(** * Qudi configuration files: the YAML loader and dumper of [core/config.py]

    A shallow embedding of [ordered_load], [ordered_dump], [load] and [save],
    together with the parts of the YAML library ([ruamel.yaml], called
    through its functions [load] and [dump]), of numpy and of Python that
    these functions call.  The characters of a YAML text are not modelled: a
    stream is given by the documents the parser finds in it, each a tree of
    untagged or explicitly tagged nodes, and the composer, the resolver, the
    constructors and the representers work on these trees as they do in the
    library.  Where the emitter writes text that the parser does not read
    back as the tree that was written, the document is marked as not read
    and nothing is said of its load. *)

From Stdlib Require Import ZArith String Ascii List Bool Lia.
From Stdlib Require Import DecimalString DecimalZ DecimalPos DecimalFacts SpecFloat.
From stdpp Require Import base option list strings gmap.

Set Warnings "-register-all".

Local Open Scope string_scope.
Local Open Scope list_scope.
Local Open Scope Z_scope.

(** ** Outcomes of Python code *)

(** The exceptions that the modelled code can raise. *)
Inductive exn : Type :=
  | SyntaxError
  | NameError (name : string)
  | TypeError
  | ValueError
  | KeyError
  | AttributeError
  | OSError
  | FileNotFoundError (message : string)
  | ConstructorError
  | ComposerError.

(** A call returns a value, raises an exception, or leaves the fragment of
    Python, numpy and YAML that this development describes ([Unmodelled]);
    nothing is claimed about the last case. *)
Inductive result (A : Type) : Type :=
  | Returns (a : A)
  | Raises (e : exn)
  | Unmodelled.
Arguments Returns {A} a.
Arguments Raises {A} e.
Arguments Unmodelled {A}.

#[global] Instance result_ret : MRet result := fun A a => Returns a.
#[global] Instance result_bind : MBind result := fun A B f m =>
  match m with
  | Returns a => f a
  | Raises e => Raises e
  | Unmodelled => Unmodelled
  end.
#[global] Instance result_fmap : FMap result := fun A B f m =>
  match m with
  | Returns a => Returns (f a)
  | Raises e => Raises e
  | Unmodelled => Unmodelled
  end.

(** [try: body except SyntaxError: handler] *)
Definition try_except_SyntaxError {A} (body : result A) (handler : result A) : result A :=
  match body with
  | Raises SyntaxError => handler
  | other => other
  end.

(** [try: body except: handler], the bare handler that catches every
    exception. *)
Definition try_except_all {A} (body : result A) (handler : result A) : result A :=
  match body with
  | Raises _ => handler
  | other => other
  end.

(** ** Strings *)

Fixpoint startswith (prefix s : string) : bool :=
  match prefix, s with
  | EmptyString, _ => true
  | String a p, String b t => if Ascii.eqb a b then startswith p t else false
  | String _ _, EmptyString => false
  end.

Definition chars (s : string) : list ascii := list_ascii_of_string s.

Definition char_in (c : ascii) (s : string) : bool :=
  existsb (Ascii.eqb c) (chars s).

Definition in_range (lo hi c : ascii) : bool :=
  (nat_of_ascii lo <=? nat_of_ascii c)%nat && (nat_of_ascii c <=? nat_of_ascii hi)%nat.

Definition is_digit (c : ascii) : bool := in_range "0" "9" c.
Definition is_upper (c : ascii) : bool := in_range "A" "Z" c.
Definition is_lower_letter (c : ascii) : bool := in_range "a" "z" c.

Definition lower_char (c : ascii) : ascii :=
  if is_upper c then ascii_of_nat (nat_of_ascii c + 32) else c.

(** [str.lower] on ASCII text. *)
Fixpoint lower (s : string) : string :=
  match s with
  | EmptyString => EmptyString
  | String c t => String (lower_char c) (lower t)
  end.

(** [s.replace(c, '')] for a single character [c]. *)
Fixpoint remove_char (c : ascii) (s : string) : string :=
  match s with
  | EmptyString => EmptyString
  | String a t => if Ascii.eqb a c then remove_char c t else String a (remove_char c t)
  end.

(** ** Regular expressions

    The implicit resolvers of the YAML library are regular expressions.  They
    are kept as data and matched with derivatives, so that each pattern below
    can be read against the pattern of the library. *)
Inductive regex : Type :=
  | Void
  | Eps
  | Class (ranges : list (ascii * ascii))
  | Cat (r1 r2 : regex)
  | Alt (r1 r2 : regex)
  | Star (r : regex).

Definition in_class (ranges : list (ascii * ascii)) (c : ascii) : bool :=
  existsb (fun '(lo, hi) => in_range lo hi c) ranges.

Fixpoint nullable (r : regex) : bool :=
  match r with
  | Void => false
  | Eps => true
  | Class _ => false
  | Cat r1 r2 => nullable r1 && nullable r2
  | Alt r1 r2 => nullable r1 || nullable r2
  | Star _ => true
  end.

Fixpoint deriv (c : ascii) (r : regex) : regex :=
  match r with
  | Void => Void
  | Eps => Void
  | Class ranges => if in_class ranges c then Eps else Void
  | Cat r1 r2 =>
      if nullable r1 then Alt (Cat (deriv c r1) r2) (deriv c r2)
      else Cat (deriv c r1) r2
  | Alt r1 r2 => Alt (deriv c r1) (deriv c r2)
  | Star r1 => Cat (deriv c r1) (Star r1)
  end.

(** [re.match(r + "$", s)] for a string [s] without a final newline. *)
Fixpoint fullmatch (r : regex) (s : string) : bool :=
  match s with
  | EmptyString => nullable r
  | String c t => fullmatch (deriv c r) t
  end.




Definition Chr (c : ascii) : regex := Class [(c, c)].
Definition Opt (r : regex) : regex := Alt Eps r.
Definition Plus (r : regex) : regex := Cat r (Star r).
Definition AnyOf (rs : list regex) : regex := fold_right Alt Void rs.
Definition Seq (rs : list regex) : regex := fold_right Cat Eps rs.
Definition Lit (s : string) : regex := Seq (map Chr (chars s)).
Definition OneOf (s : string) : regex := Class (map (fun c => (c, c)) (chars s)).

(** ** Tags and implicit resolvers of the YAML library

    [core/config.py] imports [ruamel.yaml].  Its resolver keeps one table of
    patterns for YAML 1.1 and one for YAML 1.2 and takes the table of
    YAML 1.2 for a text without a [%YAML 1.1] directive, which is every text
    that this development describes. *)

Definition TAG_NULL : string := "tag:yaml.org,2002:null".
Definition TAG_BOOL : string := "tag:yaml.org,2002:bool".
Definition TAG_INT : string := "tag:yaml.org,2002:int".
Definition TAG_FLOAT : string := "tag:yaml.org,2002:float".
Definition TAG_STR : string := "tag:yaml.org,2002:str".
Definition TAG_SEQ : string := "tag:yaml.org,2002:seq".
Definition TAG_MAP : string := "tag:yaml.org,2002:map".
Definition TAG_SET : string := "tag:yaml.org,2002:set".
Definition TAG_BINARY : string := "tag:yaml.org,2002:binary".
Definition TAG_MERGE : string := "tag:yaml.org,2002:merge".
Definition TAG_TIMESTAMP : string := "tag:yaml.org,2002:timestamp".
Definition TAG_VALUE : string := "tag:yaml.org,2002:value".
Definition TAG_NDARRAY : string := "!ndarray".
Definition TAG_EXTNDARRAY : string := "!extndarray".
Definition TAG_FROZENSET : string := "!frozenset".

Definition DEFAULT_SCALAR_TAG : string := TAG_STR.
Definition DEFAULT_SEQUENCE_TAG : string := TAG_SEQ.
Definition DEFAULT_MAPPING_TAG : string := TAG_MAP.

Definition digit : regex := Class [("0", "9")]%char.
Definition digit_ : regex := Class [("0", "9"); ("_", "_")]%char.
Definition sign : regex := OneOf "-+".

(** [true|True|TRUE|false|False|FALSE]: the words [yes], [no], [on] and
    [off] of YAML 1.1 are strings. *)
Definition bool_regex : regex :=
  AnyOf (map Lit ["true"; "True"; "TRUE"; "false"; "False"; "FALSE"]).

(** An exponent, with or without a sign, and an exponent with its sign. *)
Definition exponent : regex := Seq [OneOf "eE"; Opt sign; Plus digit].
Definition signed_exponent : regex := Seq [OneOf "eE"; sign; Plus digit].

(** A mantissa without a decimal point, followed by an exponent:
    [[-+]?[0-9][0-9_]*[eE][-+]?[0-9]+]. *)
Definition exponent_without_point : regex :=
  Seq [Opt sign; digit; Star digit_; exponent].

(** The float pattern, with the groups of the library's pattern written
    without their non-capturing marks:
    [[-+]?[0-9][0-9_]*\.[0-9_]*([eE][-+]?[0-9]+)?]
    [|[-+]?[0-9][0-9_]*[eE][-+]?[0-9]+]
    [|[-+]?\.[0-9_]+([eE][-+][0-9]+)?]
    [|[-+]?\.(inf|Inf|INF)]
    [|\.(nan|NaN|NAN)].
    A mantissa with digits in front needs neither a decimal point nor a sign
    in its exponent. *)
Definition float_regex : regex :=
  AnyOf
    [ Seq [Opt sign; digit; Star digit_; Chr "."; Star digit_; Opt exponent];
      exponent_without_point;
      Seq [Opt sign; Chr "."; Plus digit_; Opt signed_exponent];
      Seq [Opt sign; Chr "."; AnyOf (map Lit ["inf"; "Inf"; "INF"])];
      Seq [Chr "."; AnyOf (map Lit ["nan"; "NaN"; "NAN"])] ].

(** [[-+]?0b[0-1_]+|[-+]?0o?[0-7_]+|[-+]?[0-9_]+|[-+]?0x[0-9a-fA-F_]+]: there
    is no base 60, and digits after a zero are decimal digits unless [0o]
    is in front of them. *)
Definition int_regex : regex :=
  AnyOf
    [ Seq [Opt sign; Lit "0b"; Plus (Class [("0", "1"); ("_", "_")]%char)];
      Seq [Opt sign; Chr "0"; Opt (Chr "o"); Plus (Class [("0", "7"); ("_", "_")]%char)];
      Seq [Opt sign; Plus digit_];
      Seq [Opt sign; Lit "0x";
           Plus (Class [("0", "9"); ("a", "f"); ("A", "F"); ("_", "_")]%char)] ].

Definition merge_regex : regex := Lit "<<".

(** [~|null|Null|NULL|] (the last alternative is the empty scalar) *)
Definition null_regex : regex := AnyOf [Lit "~"; Lit "null"; Lit "Null"; Lit "NULL"; Eps].

(** [[0-9]{4}-[0-9]{2}-[0-9]{2}] or a date followed by a time, an optional
    fraction and an optional time zone. *)
Definition blank : regex := OneOf (String " " (String (ascii_of_nat 9) EmptyString)).
Definition timestamp_regex : regex :=
  AnyOf
    [ Seq [digit; digit; digit; digit; Chr "-"; digit; digit; Chr "-"; digit; digit];
      Seq [digit; digit; digit; digit; Chr "-"; digit; Opt digit; Chr "-"; digit; Opt digit;
           Alt (OneOf "Tt") (Plus blank);
           digit; Opt digit; Chr ":"; digit; digit; Chr ":"; digit; digit;
           Opt (Seq [Chr "."; Star digit]);
           Opt (Seq [Star blank;
                     Alt (Chr "Z")
                         (Seq [sign; digit; Opt digit; Opt (Seq [Chr ":"; digit; digit])])])] ].

Definition value_regex : regex := Lit "=".

(** [!|&|*] *)
Definition TAG_YAML : string := "tag:yaml.org,2002:yaml".
Definition yaml_regex : regex := OneOf "!&*".

(** One entry of [yaml_implicit_resolvers]: registered under each character of
    [first]; [None] in [first] is the entry for the empty scalar. *)
Record implicit_resolver : Type := {
  ir_tag : string;
  ir_regexp : regex;
  ir_first : list (option ascii)
}.

Definition first_of (s : string) : list (option ascii) := map Some (chars s).

(** The implicit resolvers of the library for YAML 1.2, in the order in
    which it registers them. *)
Definition base_implicit_resolvers : list implicit_resolver :=
  [ {| ir_tag := TAG_BOOL; ir_regexp := bool_regex; ir_first := first_of "tTfF" |};
    {| ir_tag := TAG_FLOAT; ir_regexp := float_regex; ir_first := first_of "-+0123456789." |};
    {| ir_tag := TAG_INT; ir_regexp := int_regex; ir_first := first_of "-+0123456789" |};
    {| ir_tag := TAG_MERGE; ir_regexp := merge_regex; ir_first := first_of "<" |};
    {| ir_tag := TAG_NULL; ir_regexp := null_regex; ir_first := first_of "~nN" ++ [None] |};
    {| ir_tag := TAG_TIMESTAMP; ir_regexp := timestamp_regex; ir_first := first_of "0123456789" |};
    {| ir_tag := TAG_VALUE; ir_regexp := value_regex; ir_first := first_of "=" |};
    {| ir_tag := TAG_YAML; ir_regexp := yaml_regex; ir_first := first_of "!&*" |} ].

(** The implicit resolvers that [core/config.py] registers when it is
    imported.  Its docstring speaks of a fix for scientific notation that is
    applied at import; its top level holds the docstring and six imports
    ([re] among them) and no call of [add_implicit_resolver]. *)
Definition config_implicit_resolvers : list implicit_resolver := [].

(** The resolvers in force during every load and dump of the process. *)
Definition yaml_implicit_resolvers : list implicit_resolver :=
  base_implicit_resolvers ++ config_implicit_resolvers.

Definition first_key (value : string) : option ascii :=
  match value with
  | EmptyString => None
  | String c _ => Some c
  end.

Definition option_ascii_eqb (a b : option ascii) : bool :=
  match a, b with
  | None, None => true
  | Some x, Some y => Ascii.eqb x y
  | _, _ => false
  end.

(** [resolve(ScalarNode, value, (True, False))] over a list of resolvers: the
    first resolver registered for the first character whose pattern matches
    gives the tag, and the default scalar tag is the fallback. *)
Fixpoint resolve_with (resolvers : list implicit_resolver) (value : string) : string :=
  match resolvers with
  | [] => DEFAULT_SCALAR_TAG
  | r :: rest =>
      if existsb (option_ascii_eqb (first_key value)) (ir_first r)
         && fullmatch (ir_regexp r) value
      then ir_tag r
      else resolve_with rest value
  end.

Definition resolve_plain (value : string) : string :=
  resolve_with yaml_implicit_resolvers value.

(** ** Nodes *)

(** The representation graph of the library: [ScalarNode], [SequenceNode] and
    [MappingNode], each with its tag. *)
Inductive Node : Type :=
  | ScalarNode (tag : string) (value : string)
  | SequenceNode (tag : string) (items : list Node)
  | MappingNode (tag : string) (pairs : list (Node * Node)).

Inductive scalar_style : Type := Plain | Quoted.

(** What the parser reads for a node: its explicit tag if the text carries
    one, and for a scalar whether it is plain or quoted.  [RawUnread] is a
    document whose text is not described by such a tree: text that the
    parser refuses, or text of which it is not known here how the parser
    reads it. *)
Inductive RawNode : Type :=
  | RawScalar (tag : option string) (style : scalar_style) (value : string)
  | RawSequence (tag : option string) (items : list RawNode)
  | RawMapping (tag : option string) (pairs : list (RawNode * RawNode))
  | RawUnread.

(** The documents of a stream, as the parser delivers them. *)
Definition Stream : Type := list RawNode.

(** The composer: a node without an explicit tag is tagged by the resolver, a
    plain scalar through the implicit resolvers and everything else with the
    default tag of its kind.  Text that is not read has no node; it is given
    a scalar without a tag, which no text has. *)
Fixpoint compose_node (r : RawNode) : Node :=
  match r with
  | RawScalar (Some tag) _ value => ScalarNode tag value
  | RawScalar None Plain value => ScalarNode (resolve_plain value) value
  | RawScalar None Quoted value => ScalarNode DEFAULT_SCALAR_TAG value
  | RawSequence tag items =>
      SequenceNode (default DEFAULT_SEQUENCE_TAG tag) (map compose_node items)
  | RawMapping tag pairs =>
      MappingNode (default DEFAULT_MAPPING_TAG tag)
                  (map (fun kv => (compose_node kv.1, compose_node kv.2)) pairs)
  | RawUnread => ScalarNode "" ""
  end.

(** [get_single_node]: no node for a stream without a document, the root node
    of the only document, an error for a stream with several.  Nothing is
    said of a document that is not read. *)
Definition get_single_node (stream : Stream) : result (option Node) :=
  match stream with
  | [] => Returns None
  | [RawUnread] => Unmodelled
  | [document] => Returns (Some (compose_node document))
  | _ => Raises ComposerError
  end.

(** The serializer, and the tree that the parser reads from the text of the
    emitter where it reads it back: a scalar is written plain and untagged
    when the implicit resolvers give its tag back, quoted and untagged when
    its tag is the default one, and with its tag otherwise; a collection is
    written untagged when its tag is the default of its kind. *)
Fixpoint serialize_tree (n : Node) : RawNode :=
  match n with
  | ScalarNode tag value =>
      if String.eqb (resolve_plain value) tag then RawScalar None Plain value
      else if String.eqb tag DEFAULT_SCALAR_TAG then RawScalar None Quoted value
      else RawScalar (Some tag) Quoted value
  | SequenceNode tag items =>
      RawSequence (if String.eqb tag DEFAULT_SEQUENCE_TAG then None else Some tag)
                  (map serialize_tree items)
  | MappingNode tag pairs =>
      RawMapping (if String.eqb tag DEFAULT_MAPPING_TAG then None else Some tag)
                 (map (fun kv => (serialize_tree kv.1, serialize_tree kv.2)) pairs)
  end.

Definition is_scalar_node (n : Node) : bool :=
  match n with
  | ScalarNode _ _ => true
  | _ => false
  end.

(** Every key of every mapping of the node is a scalar. *)
Fixpoint scalar_keys (n : Node) : bool :=
  match n with
  | ScalarNode _ _ => true
  | SequenceNode _ items => forallb scalar_keys items
  | MappingNode _ pairs =>
      forallb (fun kv => is_scalar_node kv.1 && scalar_keys kv.2) pairs
  end.

(** The document that a node is written as.  The text of the emitter is
    read back as the tree of the node when every key is a scalar.  A key
    that is a collection is written in a way that depends on the layout
    that the emitter chooses, and the parser does not read back every such
    text: an empty collection in the place of a key is written in flow style
    with a line break after it, and the [:] that follows on the next line is
    refused.  The document of a node with such a key is not described. *)
Definition serialize_node (n : Node) : RawNode :=
  if scalar_keys n then serialize_tree n else RawUnread.

(** ** numpy arrays and configuration values *)

Inductive int_dtype : Type := int8 | uint8 | int16 | uint16 | int32 | uint32 | int64 | uint64.
Inductive float_dtype : Type := float16 | float32 | float64.
Inductive dtype : Type :=
  | IntType (d : int_dtype)
  | FloatType (d : float_dtype).

(** The least and the greatest value of an integer type. *)
Definition int_bounds (d : int_dtype) : Z * Z :=
  match d with
  | int8 => (- 2 ^ 7, 2 ^ 7 - 1)
  | uint8 => (0, 2 ^ 8 - 1)
  | int16 => (- 2 ^ 15, 2 ^ 15 - 1)
  | uint16 => (0, 2 ^ 16 - 1)
  | int32 => (- 2 ^ 31, 2 ^ 31 - 1)
  | uint32 => (0, 2 ^ 32 - 1)
  | int64 => (- 2 ^ 63, 2 ^ 63 - 1)
  | uint64 => (0, 2 ^ 64 - 1)
  end.

Definition fits (d : int_dtype) (z : Z) : bool :=
  ((int_bounds d).1 <=? z) && (z <=? (int_bounds d).2).

(** An element of an array: an integer, or a float given as an IEEE 754
    datum. *)
Inductive element : Type :=
  | EInt (z : Z)
  | EFloat (f : spec_float).

(** An array payload: element type, shape and the elements in row-major
    order. *)
Record ndarray : Type := {
  arr_dtype : dtype;
  arr_shape : list nat;
  arr_data : list element
}.

(** The values of a configuration.  A Python [int] and [float] carry no
    width; a numpy scalar carries its type.  The float of a numpy scalar is
    the value that [numpy.asscalar] converts it to. *)
Inductive Value : Type :=
  | VNone
  | VBool (b : bool)
  | VInt (z : Z)
  | VFloat (f : spec_float)
  | VStr (s : string)
  | VNumpyInt (d : int_dtype) (z : Z)
  | VNumpyFloat (d : float_dtype) (f : spec_float)
  | VList (items : list Value)
  | VOrderedDict (items : list (Value * Value))
  | VFrozenset (elements : list Value)
  | VArray (a : ndarray).

(** ** The fragment of Python expressions that [eval] is modelled on

    Names, [None], [True], [False], integer and string literals, list
    displays, a unary minus, parentheses and calls with positional and keyword
    arguments.  Text that is Python but outside this fragment is reported as
    [Unmodelled]; [SyntaxError] is reported only for text that Python
    rejects. *)

Inductive token : Type :=
  | TName (s : string)
  | TNone
  | TBool (b : bool)
  | TInt (z : Z)
  | TStr (s : string)
  | TLParen | TRParen | TLBrack | TRBrack | TComma | TEq | TMinus.

Inductive lex_state : Type :=
  | LIdle
  | LName (acc : list ascii)
  | LInt (acc : list ascii)
  | LStr (quote : ascii) (acc : list ascii)
  | LEq.

Definition is_name_start (c : ascii) : bool :=
  is_lower_letter c || is_upper c || Ascii.eqb c "_".
Definition is_name_char (c : ascii) : bool := is_name_start c || is_digit c.
Definition double_quote : ascii := ascii_of_nat 34.
Definition is_quote (c : ascii) : bool := Ascii.eqb c "'" || Ascii.eqb c double_quote.

(** The keywords of Python 3 other than [None], [True] and [False]. *)
Definition other_keywords : list string :=
  ["and"; "as"; "assert"; "async"; "await"; "break"; "class"; "continue"; "def"; "del";
   "elif"; "else"; "except"; "finally"; "for"; "from"; "global"; "if"; "import"; "in";
   "is"; "lambda"; "nonlocal"; "not"; "or"; "pass"; "raise"; "return"; "try"; "while";
   "with"; "yield"].

Definition string_in (s : string) (l : list string) : bool := existsb (String.eqb s) l.

Definition name_token (acc : list ascii) : result token :=
  let s := string_of_list_ascii (rev acc) in
  if String.eqb s "None" then Returns TNone
  else if String.eqb s "True" then Returns (TBool true)
  else if String.eqb s "False" then Returns (TBool false)
  else if string_in s other_keywords then Unmodelled
  else Returns (TName s).

Definition digit_value (c : ascii) : Z := Z.of_nat (nat_of_ascii c) - 48.

(** The value of a run of decimal digits. *)
Definition decimal_value (digits : list ascii) : Z :=
  fold_left (fun acc c => 10 * acc + digit_value c) digits 0.

(** A decimal integer literal; a literal with a leading zero other than a
    run of zeros is left out. *)
Definition int_token (acc : list ascii) : result token :=
  match rev acc with
  | "0"%char :: _ :: _ => Unmodelled
  | digits => Returns (TInt (decimal_value digits))
  end.

(** The step of the lexer outside a token. *)
Definition idle_step (c : ascii) : result (list token * lex_state) :=
  if Ascii.eqb c " " || Ascii.eqb c (ascii_of_nat 9) then Returns ([], LIdle)
  else if is_name_start c then Returns ([], LName [c])
  else if is_digit c then Returns ([], LInt [c])
  else if is_quote c then Returns ([], LStr c [])
  else if Ascii.eqb c "(" then Returns ([TLParen], LIdle)
  else if Ascii.eqb c ")" then Returns ([TRParen], LIdle)
  else if Ascii.eqb c "[" then Returns ([TLBrack], LIdle)
  else if Ascii.eqb c "]" then Returns ([TRBrack], LIdle)
  else if Ascii.eqb c "," then Returns ([TComma], LIdle)
  else if Ascii.eqb c "-" then Returns ([TMinus], LIdle)
  else if Ascii.eqb c "=" then Returns ([], LEq)
  else if Ascii.eqb c "$" || Ascii.eqb c "?" || Ascii.eqb c "`" then Raises SyntaxError
  else Unmodelled.

Definition after_token (t : token) (c : ascii) : result (list token * lex_state) :=
  '(ts, st) ← idle_step c; Returns (t :: ts, st).

Definition lex_step (st : lex_state) (c : ascii) : result (list token * lex_state) :=
  match st with
  | LIdle => idle_step c
  | LName acc =>
      if is_name_char c then Returns ([], LName (c :: acc))
      else if is_quote c then Unmodelled
      else t ← name_token acc; after_token t c
  | LInt acc =>
      if is_digit c then Returns ([], LInt (c :: acc))
      else if is_name_start c || Ascii.eqb c "." then Unmodelled
      else t ← int_token acc; after_token t c
  | LStr quote acc =>
      if Ascii.eqb c quote then Returns ([TStr (string_of_list_ascii (rev acc))], LIdle)
      else if Ascii.eqb c "\" || Ascii.eqb c (ascii_of_nat 10) then Unmodelled
      else Returns ([], LStr quote (c :: acc))
  | LEq => if Ascii.eqb c "=" then Unmodelled else after_token TEq c
  end.

Definition lex_finish (st : lex_state) : result (list token) :=
  match st with
  | LIdle => Returns []
  | LName acc => t ← name_token acc; Returns [t]
  | LInt acc => t ← int_token acc; Returns [t]
  | LStr _ _ => Raises SyntaxError
  | LEq => Returns [TEq]
  end.

Fixpoint lex_from (st : lex_state) (s : list ascii) : result (list token) :=
  match s with
  | [] => lex_finish st
  | c :: rest =>
      '(ts, st') ← lex_step st c;
      more ← lex_from st' rest;
      Returns (ts ++ more)
  end.

Definition lex (s : string) : result (list token) := lex_from LIdle (chars s).

Inductive expr : Type :=
  | EName (name : string)
  | ENoneLit
  | EBoolLit (b : bool)
  | EIntLit (z : Z)
  | EStrLit (s : string)
  | EListDisplay (items : list expr)
  | ENeg (e : expr)
  | ECall (func : expr) (args : list expr) (kwargs : list (string * expr)).

(** What a token means when it follows a complete expression and is neither
    a call nor a separator that the context expects: a second operand is a
    syntax error, anything else is Python outside the fragment. *)
Definition after_expression (t : token) : exn + unit :=
  match t with
  | TName _ | TNone | TBool _ | TInt _ | TEq | TRParen | TRBrack => inl SyntaxError
  | _ => inr tt
  end.

Definition unexpected {A} (t : token) : result A :=
  match after_expression t with
  | inl e => Raises e
  | inr _ => Unmodelled
  end.

Fixpoint parse_expr (fuel : nat) (ts : list token) : result (expr * list token) :=
  match fuel with
  | O => Unmodelled
  | S fuel =>
      match ts with
      | [] => Raises SyntaxError
      | TName s :: rest => parse_trailers fuel (EName s) rest
      | TNone :: rest => parse_trailers fuel ENoneLit rest
      | TBool b :: rest => parse_trailers fuel (EBoolLit b) rest
      | TInt z :: rest => parse_trailers fuel (EIntLit z) rest
      | TStr s :: TStr _ :: _ => Unmodelled
      | TStr s :: rest => parse_trailers fuel (EStrLit s) rest
      | TMinus :: rest =>
          '(e, rest') ← parse_expr fuel rest; Returns (ENeg e, rest')
      | TLBrack :: rest =>
          '(items, rest') ← parse_items fuel rest;
          parse_trailers fuel (EListDisplay items) rest'
      | TLParen :: TRParen :: _ => Unmodelled
      | TLParen :: rest =>
          '(e, rest') ← parse_expr fuel rest;
          match rest' with
          | TRParen :: rest'' => parse_trailers fuel e rest''
          | [] => Raises SyntaxError
          | TComma :: _ => Unmodelled
          | t :: _ => unexpected t
          end
      | (TRParen | TRBrack | TComma | TEq) :: _ => Raises SyntaxError
      end
  end

(** The calls that follow an atom. *)
with parse_trailers (fuel : nat) (e : expr) (ts : list token) : result (expr * list token) :=
  match fuel with
  | O => Unmodelled
  | S fuel =>
      match ts with
      | TLParen :: rest =>
          '(args, kwargs, rest') ← parse_args fuel rest [] [];
          parse_trailers fuel (ECall e args kwargs) rest'
      | TLBrack :: _ => Unmodelled
      | _ => Returns (e, ts)
      end
  end

(** The items of a list display, after its opening bracket. *)
with parse_items (fuel : nat) (ts : list token) : result (list expr * list token) :=
  match fuel with
  | O => Unmodelled
  | S fuel =>
      match ts with
      | TRBrack :: rest => Returns ([], rest)
      | _ =>
          '(e, rest) ← parse_expr fuel ts;
          match rest with
          | TRBrack :: rest' => Returns ([e], rest')
          | TComma :: rest' =>
              '(es, rest'') ← parse_items fuel rest'; Returns (e :: es, rest'')
          | [] => Raises SyntaxError
          | TRParen :: _ => Raises SyntaxError
          | t :: _ => unexpected t
          end
      end
  end

(** The arguments of a call, after its opening parenthesis. *)
with parse_args (fuel : nat) (ts : list token) (args : list expr)
       (kwargs : list (string * expr)) : result (list expr * list (string * expr) * list token) :=
  match fuel with
  | O => Unmodelled
  | S fuel =>
      let continue (args : list expr) (kwargs : list (string * expr)) (rest : list token) :=
        match rest with
        | TRParen :: rest' => Returns (args, kwargs, rest')
        | TComma :: rest' => parse_args fuel rest' args kwargs
        | [] => Raises SyntaxError
        | TRBrack :: _ => Raises SyntaxError
        | t :: _ => unexpected t
        end in
      match ts with
      | TRParen :: rest => Returns (args, kwargs, rest)
      | TName k :: TEq :: rest =>
          '(e, rest') ← parse_expr fuel rest;
          if string_in k (map fst kwargs) then Raises SyntaxError
          else continue args (kwargs ++ [(k, e)]) rest'
      | _ =>
          '(e, rest) ← parse_expr fuel ts;
          match kwargs with
          | [] => continue (args ++ [e]) kwargs rest
          | _ :: _ => Raises SyntaxError
          end
      end
  end.

(** [compile(source, "<string>", "eval")] on the fragment. *)
Definition parse (source : string) : result expr :=
  ts ← lex source;
  '(e, rest) ← parse_expr (3 * length ts + 3) ts;
  match rest with
  | [] => Returns e
  | TComma :: _ => Unmodelled
  | t :: _ => unexpected t
  end.

(** ** Python objects and evaluation *)

(** The callables that an evaluation can meet: [numpy.array], a numpy scalar
    type, a builtin of Python. *)
Inductive callable : Type :=
  | NumpyArray
  | NumpyType (d : dtype)
  | Builtin (name : string).

Inductive pyobj : Type :=
  | PyNone
  | PyBool (b : bool)
  | PyInt (z : Z)
  | PyStr (s : string)
  | PyList (items : list pyobj)
  | PyCallable (c : callable)
  | PyModule (name : string)
  | PyNdarray (a : ndarray)
  | PyNumpyInt (d : int_dtype) (z : Z).

(** The names of the [builtins] module of Python 3: functions and types,
    constants, and exception classes. *)
Definition builtin_names : list string :=
  ["abs"; "aiter"; "all"; "anext"; "any"; "ascii"; "bin"; "bool"; "breakpoint"; "bytearray";
   "bytes"; "callable"; "chr"; "classmethod"; "compile"; "complex"; "delattr"; "dict";
   "dir"; "divmod"; "enumerate"; "eval"; "exec"; "filter"; "float"; "format"; "frozenset";
   "getattr"; "globals"; "hasattr"; "hash"; "help"; "hex"; "id"; "input"; "int";
   "isinstance"; "issubclass"; "iter"; "len"; "list"; "locals"; "map"; "max";
   "memoryview"; "min"; "next"; "object"; "oct"; "open"; "ord"; "pow"; "print";
   "property"; "range"; "repr"; "reversed"; "round"; "set"; "setattr"; "slice"; "sorted";
   "staticmethod"; "str"; "sum"; "super"; "tuple"; "type"; "vars"; "zip"; "__import__";
   "__build_class__"; "__debug__"; "__doc__"; "__loader__"; "__name__"; "__package__";
   "__spec__"; "Ellipsis"; "NotImplemented"; "copyright"; "credits"; "exit"; "license";
   "quit";
   "ArithmeticError"; "AssertionError"; "AttributeError"; "BaseException";
   "BlockingIOError"; "BrokenPipeError"; "BufferError"; "BytesWarning";
   "ChildProcessError"; "ConnectionAbortedError"; "ConnectionError";
   "ConnectionRefusedError"; "ConnectionResetError"; "DeprecationWarning"; "EOFError";
   "EnvironmentError"; "Exception"; "FileExistsError"; "FileNotFoundError";
   "FloatingPointError"; "FutureWarning"; "GeneratorExit"; "IOError"; "ImportError";
   "ImportWarning"; "IndentationError"; "IndexError"; "InterruptedError";
   "IsADirectoryError"; "KeyError"; "KeyboardInterrupt"; "LookupError"; "MemoryError";
   "ModuleNotFoundError"; "NameError"; "NotADirectoryError"; "NotImplementedError";
   "OSError"; "OverflowError"; "PendingDeprecationWarning"; "PermissionError";
   "ProcessLookupError"; "RecursionError"; "ReferenceError"; "ResourceWarning";
   "RuntimeError"; "RuntimeWarning"; "StopAsyncIteration"; "StopIteration"; "SyntaxError";
   "SyntaxWarning"; "SystemError"; "SystemExit"; "TabError"; "TimeoutError"; "TypeError";
   "UnboundLocalError"; "UnicodeDecodeError"; "UnicodeEncodeError"; "UnicodeError";
   "UnicodeTranslateError"; "UnicodeWarning"; "UserWarning"; "ValueError"; "Warning";
   "ZeroDivisionError"].

Definition is_builtin (name : string) : bool := string_in name builtin_names.

(** The names resolved during an evaluation, each with the object found. *)
Definition lookups : Type := list (string * pyobj).

(** A global name is looked up in the globals of the evaluation and then in
    the builtins; a name in neither is a [NameError]. *)
Definition lookup_name (globals : gmap string pyobj) (name : string) : result pyobj :=
  match globals !! name with
  | Some v => Returns v
  | None =>
      if is_builtin name then Returns (PyCallable (Builtin name))
      else Raises (NameError name)
  end.

Definition shape_eqb (s1 s2 : list nat) : bool := bool_decide (s1 = s2).

(** The shape and the elements of a nesting of lists of integers. *)
Fixpoint int_items (v : pyobj) : result (list nat * list Z) :=
  match v with
  | PyInt z => Returns ([], [z])
  | PyList items =>
      children ← (fix go (l : list pyobj) : result (list (list nat * list Z)) :=
                    match l with
                    | [] => Returns []
                    | x :: r => c ← int_items x; cs ← go r; Returns (c :: cs)
                    end) items;
      match children with
      | [] => Returns ([O], [])
      | (s, _) :: _ =>
          if forallb (fun c => shape_eqb c.1 s) children
          then Returns (length children :: s, concat (map snd children))
          else Unmodelled
      end
  | _ => Unmodelled
  end.

(** The positional and keyword arguments of [numpy.array] that are modelled:
    the object and an optional [dtype]. *)
Definition array_arguments (args : list pyobj) (kwargs : list (string * pyobj))
  : result (pyobj * option pyobj) :=
  match args, kwargs with
  | [], _ => Raises TypeError
  | [obj], [] => Returns (obj, None)
  | [obj], [("dtype", d)] => Returns (obj, Some d)
  | [obj; d], [] => Returns (obj, Some d)
  | [_; _], [("dtype", _)] => Raises TypeError
  | _, _ => Unmodelled
  end.

(** [numpy.array(obj, dtype)] on integers and nestings of lists of integers.
    Without a [dtype] the elements are [int64] (the default integer of numpy
    on Linux) and an empty list gives a [float64] array. *)
Definition numpy_array (args : list pyobj) (kwargs : list (string * pyobj)) : result pyobj :=
  '(obj, dt) ← array_arguments args kwargs;
  match obj, dt with
  | PyNdarray a, (None | Some PyNone) => Returns (PyNdarray a)
  | PyNumpyInt d z, (None | Some PyNone) =>
      Returns (PyNdarray {| arr_dtype := IntType d; arr_shape := []; arr_data := [EInt z] |})
  | _, _ =>
      '(shape, data) ← int_items obj;
      d ← match dt with
          | None | Some PyNone =>
              match data with
              | [] => Returns (FloatType float64)
              | _ => if forallb (fits int64) data then Returns (IntType int64) else Unmodelled
              end
          | Some (PyCallable (NumpyType (IntType d))) =>
              if forallb (fits d) data then Returns (IntType d) else Unmodelled
          | Some _ => Unmodelled
          end;
      Returns (PyNdarray {| arr_dtype := d; arr_shape := shape; arr_data := map EInt data |})
  end.

(** A call of a numpy scalar type, as in [int32(5)]. *)
Definition numpy_scalar (d : dtype) (args : list pyobj) (kwargs : list (string * pyobj))
  : result pyobj :=
  match d, args, kwargs with
  | IntType i, [], [] => Returns (PyNumpyInt i 0)
  | IntType i, [PyInt z], [] => if fits i z then Returns (PyNumpyInt i z) else Unmodelled
  | _, _, _ => Unmodelled
  end.

(** The modules of the standard library that [__import__] is modelled on. *)
Definition importable : list string := ["os"; "sys"; "subprocess"; "shutil"; "builtins"].

(** Calls of builtins: [len] and [__import__]. *)
Definition call_builtin (name : string) (args : list pyobj) (kwargs : list (string * pyobj))
  : result pyobj :=
  if String.eqb name "len" then
    match args, kwargs with
    | [PyList items], [] => Returns (PyInt (Z.of_nat (length items)))
    | [PyStr s], [] => Returns (PyInt (Z.of_nat (String.length s)))
    | [(PyNone | PyBool _ | PyInt _ | PyCallable _ | PyModule _ | PyNumpyInt _ _)], [] =>
        Raises TypeError
    | [_], [] => Unmodelled
    | _, _ => Raises TypeError
    end
  else if String.eqb name "__import__" then
    match args, kwargs with
    | [PyStr name], [] =>
        if string_in name importable then Returns (PyModule name) else Unmodelled
    | _, _ => Unmodelled
    end
  else Unmodelled.

Definition call (f : pyobj) (args : list pyobj) (kwargs : list (string * pyobj)) : result pyobj :=
  match f with
  | PyCallable NumpyArray => numpy_array args kwargs
  | PyCallable (NumpyType d) => numpy_scalar d args kwargs
  | PyCallable (Builtin name) => call_builtin name args kwargs
  | _ => Raises TypeError
  end.

(** Evaluation of an expression: the function of a call first, then its
    positional arguments from left to right, then its keyword arguments. *)
Fixpoint eval_expr (globals : gmap string pyobj) (e : expr) : result (pyobj * lookups) :=
  match e with
  | EName name => v ← lookup_name globals name; Returns (v, [(name, v)])
  | ENoneLit => Returns (PyNone, [])
  | EBoolLit b => Returns (PyBool b, [])
  | EIntLit z => Returns (PyInt z, [])
  | EStrLit s => Returns (PyStr s, [])
  | EListDisplay items =>
      '(vs, log) ← (fix go (l : list expr) : result (list pyobj * lookups) :=
                      match l with
                      | [] => Returns ([], [])
                      | x :: r =>
                          '(v, l1) ← eval_expr globals x;
                          '(vs, l2) ← go r;
                          Returns (v :: vs, l1 ++ l2)
                      end) items;
      Returns (PyList vs, log)
  | ENeg e1 =>
      '(v, log) ← eval_expr globals e1;
      match v with
      | PyInt z => Returns (PyInt (- z), log)
      | PyNone | PyStr _ | PyList _ | PyCallable _ | PyModule _ => Raises TypeError
      | _ => Unmodelled
      end
  | ECall func args kwargs =>
      '(f, l0) ← eval_expr globals func;
      '(vs, l1) ← (fix go (l : list expr) : result (list pyobj * lookups) :=
                     match l with
                     | [] => Returns ([], [])
                     | x :: r =>
                         '(v, l1) ← eval_expr globals x;
                         '(vs, l2) ← go r;
                         Returns (v :: vs, l1 ++ l2)
                     end) args;
      '(ks, l2) ← (fix go (l : list (string * expr)) : result (list (string * pyobj) * lookups) :=
                     match l with
                     | [] => Returns ([], [])
                     | (k, x) :: r =>
                         '(v, l1) ← eval_expr globals x;
                         '(ks, l2) ← go r;
                         Returns ((k, v) :: ks, l1 ++ l2)
                     end) kwargs;
      v ← call f vs ks;
      Returns (v, l0 ++ l1 ++ l2)
  end.

(** [eval(source, globals)]: the builtins are entered into [globals] under
    [__builtins__] unless that key is present, and the source is compiled
    and evaluated with [globals] as its global and local names. *)
Definition python_eval (source : string) (globals : gmap string pyobj) : result (pyobj * lookups) :=
  let globals' :=
    match globals !! "__builtins__" with
    | Some _ => globals
    | None => <["__builtins__" := PyModule "builtins"]> globals
    end in
  e ← parse source;
  eval_expr globals' e.

(** The configuration value that an evaluated object is. *)
Fixpoint value_of_pyobj (v : pyobj) : result Value :=
  match v with
  | PyNone => Returns VNone
  | PyBool b => Returns (VBool b)
  | PyInt z => Returns (VInt z)
  | PyStr s => Returns (VStr s)
  | PyList items =>
      vs ← (fix go (l : list pyobj) : result (list Value) :=
              match l with
              | [] => Returns []
              | x :: r => y ← value_of_pyobj x; ys ← go r; Returns (y :: ys)
              end) items;
      Returns (VList vs)
  | PyNdarray a => Returns (VArray a)
  | PyNumpyInt d z => Returns (VNumpyInt d z)
  | PyCallable _ | PyModule _ => Unmodelled
  end.

(** [getattr(numpy, name)] for [array] and the scalar types. *)
Definition numpy_getattr (name : string) : result pyobj :=
  if String.eqb name "array" then Returns (PyCallable NumpyArray)
  else if String.eqb name "int8" then Returns (PyCallable (NumpyType (IntType int8)))
  else if String.eqb name "uint8" then Returns (PyCallable (NumpyType (IntType uint8)))
  else if String.eqb name "int16" then Returns (PyCallable (NumpyType (IntType int16)))
  else if String.eqb name "uint16" then Returns (PyCallable (NumpyType (IntType uint16)))
  else if String.eqb name "float16" then Returns (PyCallable (NumpyType (FloatType float16)))
  else if String.eqb name "int32" then Returns (PyCallable (NumpyType (IntType int32)))
  else if String.eqb name "uint32" then Returns (PyCallable (NumpyType (IntType uint32)))
  else if String.eqb name "float32" then Returns (PyCallable (NumpyType (FloatType float32)))
  else if String.eqb name "int64" then Returns (PyCallable (NumpyType (IntType int64)))
  else if String.eqb name "uint64" then Returns (PyCallable (NumpyType (IntType uint64)))
  else if String.eqb name "float64" then Returns (PyCallable (NumpyType (FloatType float64)))
  else Unmodelled.

(** ** [construct_str] *)

(** The scalar type names that [construct_str] enters into the namespace of
    the evaluation, in the order of the source. *)
Definition dtype_names : list string :=
  ["int8"; "uint8"; "int16"; "uint16"; "float16"; "int32"; "uint32";
   "float32"; "int64"; "uint64"; "float64"].

(** The names of the allow-list: [array] and the scalar type names. *)
Definition allow_list : list string := "array" :: dtype_names.

(** [local = {"array": numpy.array}] followed by the loop
    [for dtype in [...]: local[dtype] = getattr(numpy, dtype)]. *)
Fixpoint add_dtypes (names : list string) (local : gmap string pyobj)
  : result (gmap string pyobj) :=
  match names with
  | [] => Returns local
  | name :: rest => v ← numpy_getattr name; add_dtypes rest (<[name := v]> local)
  end.

Definition eval_namespace : result (gmap string pyobj) :=
  add_dtypes dtype_names {["array" := PyCallable NumpyArray]}.

(** [construct_str] on the text of a scalar, with the names that the
    evaluation resolved. *)
Definition construct_str_lookups (value : string) : result (Value * lookups) :=
  if startswith "array(" value then
    try_except_SyntaxError
      (local ← eval_namespace;
       '(v, log) ← python_eval value local;
       r ← value_of_pyobj v;
       Returns (r, log))
      (Returns (VStr value, []))
  else Returns (VStr value, []).

Definition construct_str_value (value : string) : result Value :=
  fst <$> construct_str_lookups value.

(** ** Keys, dictionaries and sets of Python *)

Inductive number : Type :=
  | NInt (z : Z)
  | NFloat (f : spec_float).

(** The number that a value is when Python compares it: [True] is 1, a numpy
    scalar is its value. *)
Definition number_of (v : Value) : option number :=
  match v with
  | VBool b => Some (NInt (if b then 1 else 0))
  | VInt z | VNumpyInt _ z => Some (NInt z)
  | VFloat f | VNumpyFloat _ f => Some (NFloat f)
  | _ => None
  end.

(** Exact comparison of a float with an integer. *)
Definition float_eq_int (f : spec_float) (z : Z) : bool :=
  match f with
  | S754_zero _ => z =? 0
  | S754_finite s m e =>
      let v := if s then Z.neg m else Z.pos m in
      if 0 <=? e then v * 2 ^ e =? z else v =? z * 2 ^ (- e)
  | _ => false
  end.

Definition number_eqb (x y : number) : bool :=
  match x, y with
  | NInt a, NInt b => a =? b
  | NFloat f, NFloat g => SFeqb f g
  | NInt a, NFloat f | NFloat f, NInt a => float_eq_int f a
  end.

(** [a == b] for hashable values. *)
Fixpoint key_eqb (a b : Value) : bool :=
  match number_of a, number_of b with
  | Some x, Some y => number_eqb x y
  | None, None =>
      match a, b with
      | VNone, VNone => true
      | VStr s, VStr t => String.eqb s t
      | VFrozenset l1, VFrozenset l2 =>
          forallb (fun x => existsb (key_eqb x) l2) l1
          && forallb (fun y => existsb (fun x => key_eqb x y) l1) l2
      | _, _ => false
      end
  | _, _ => false
  end.

Fixpoint hashable (v : Value) : bool :=
  match v with
  | VList _ | VOrderedDict _ | VArray _ => false
  | VFrozenset elements => forallb hashable elements
  | _ => true
  end.

(** [d[k] = v] on an ordered dictionary: the value of an equal key is
    replaced where the key stands, a new key goes to the end. *)
Fixpoint od_setitem (d : list (Value * Value)) (k v : Value) : list (Value * Value) :=
  match d with
  | [] => [(k, v)]
  | (k', v') :: rest =>
      if key_eqb k' k then (k', v) :: rest else (k', v') :: od_setitem rest k v
  end.

(** [OrderedDict(pairs)] *)
Fixpoint od_update (d : list (Value * Value)) (pairs : list (Value * Value))
  : result (list (Value * Value)) :=
  match pairs with
  | [] => Returns d
  | (k, v) :: rest =>
      if hashable k then od_update (od_setitem d k v) rest else Raises TypeError
  end.

Definition OrderedDict (pairs : list (Value * Value)) : result (list (Value * Value)) :=
  od_update [] pairs.

Definition is_list (v : Value) : bool :=
  match v with
  | VList _ => true
  | _ => false
  end.

(** The dictionary that the base [construct_mapping] of the library builds.
    A key that is a list is turned into a tuple, which is not among the
    values described here, and what is done with a key that occurs twice
    differs between the versions of the library (a warning or an error):
    nothing is said of these two cases.  Another key that cannot be hashed
    is refused with a [ConstructorError]. *)
Fixpoint dict_update (d : list (Value * Value)) (pairs : list (Value * Value))
  : result (list (Value * Value)) :=
  match pairs with
  | [] => Returns d
  | (k, v) :: rest =>
      if is_list k then Unmodelled
      else if negb (hashable k) then Raises ConstructorError
      else if existsb (fun kv => key_eqb kv.1 k) d then Unmodelled
      else dict_update (od_setitem d k v) rest
  end.

(** ** Integers and booleans as YAML scalars *)

(** [str(z)] *)
Definition int_text (z : Z) : string := NilZero.string_of_int (Z.to_int z).

Definition digit_in_base (base : Z) (c : ascii) : option Z :=
  let v :=
    if is_digit c then Some (digit_value c)
    else if in_range "a" "f" c then Some (Z.of_nat (nat_of_ascii c) - 87)
    else if in_range "A" "F" c then Some (Z.of_nat (nat_of_ascii c) - 55)
    else None in
  match v with
  | Some d => if d <? base then Some d else None
  | None => None
  end.

(** [int(s, base)] for a text of digits: an empty text or a digit outside the
    base is a [ValueError]; text with other characters (signs, blanks) is
    left out. *)
Definition int_of_base (base : Z) (s : string) : result Z :=
  match chars s with
  | [] => Raises ValueError
  | cs =>
      fold_left (fun acc c =>
                   a ← acc;
                   match digit_in_base 16 c with
                   | None => Unmodelled
                   | Some _ =>
                       match digit_in_base base c with
                       | Some d => Returns (base * a + d)
                       | None => Raises ValueError
                       end
                   end) cs (Returns 0)
  end.

(** [s.split(sep)] *)
Fixpoint split_on (sep : ascii) (s : string) : list string :=
  match s with
  | EmptyString => [EmptyString]
  | String c t =>
      if Ascii.eqb c sep then EmptyString :: split_on sep t
      else match split_on sep t with
           | [] => [String c EmptyString]
           | part :: parts => String c part :: parts
           end
  end.

(** The cases of [construct_yaml_int] once the sign is taken off: zero,
    binary after [0b], hexadecimal after [0x], octal after [0o], and
    decimal.  The cases for a leading zero and for base 60 are taken for
    YAML 1.1 only. *)
Definition yaml_int_unsigned (value : string) : result Z :=
  if String.eqb value "0" then Returns 0
  else if startswith "0b" value then
    int_of_base 2 (string_of_list_ascii (drop 2 (chars value)))
  else if startswith "0x" value then
    int_of_base 16 (string_of_list_ascii (drop 2 (chars value)))
  else if startswith "0o" value then
    int_of_base 8 (string_of_list_ascii (drop 2 (chars value)))
  else int_of_base 10 value.

(** [construct_yaml_int] on the text of a scalar: underscores are dropped
    and a leading sign is applied to the value of the rest. *)
Definition construct_yaml_int (text : string) : result Z :=
  let value := remove_char "_" text in
  match value with
  | EmptyString => Unmodelled
  | String c0 t0 =>
      let sgn := if Ascii.eqb c0 "-" then -1 else 1 in
      let value := if Ascii.eqb c0 "-" || Ascii.eqb c0 "+" then t0 else value in
      n ← yaml_int_unsigned value;
      Returns (sgn * n)
  end.

(** [represent_bool] and the table [bool_values] of the constructor. *)
Definition bool_text (b : bool) : string := if b then "true" else "false".

Definition construct_yaml_bool (text : string) : result bool :=
  let value := lower text in
  if string_in value ["yes"; "y"; "true"; "on"] then Returns true
  else if string_in value ["no"; "n"; "false"; "off"] then Returns false
  else Raises KeyError.

(** ** Paths and the file system *)

(** The text before and after the last occurrence of [sep], if there is
    one. *)
Fixpoint rsplit (sep : ascii) (s : string) : option (string * string) :=
  match s with
  | EmptyString => None
  | String c t =>
      match rsplit sep t with
      | Some (h, tl) => Some (String c h, tl)
      | None => if Ascii.eqb c sep then Some (EmptyString, t) else None
      end
  end.

Fixpoint drop_leading (c : ascii) (l : list ascii) : list ascii :=
  match l with
  | [] => []
  | a :: r => if Ascii.eqb a c then drop_leading c r else l
  end.

(** [s.rstrip(c)] *)
Definition rstrip (c : ascii) (s : string) : string :=
  string_of_list_ascii (rev (drop_leading c (rev (chars s)))).

(** [posixpath.basename] *)
Definition basename (p : string) : string :=
  match rsplit "/" p with
  | Some (_, tail) => tail
  | None => p
  end.

(** [posixpath.dirname]: the text up to the last slash, without its final
    slashes unless it consists of slashes. *)
Definition dirname (p : string) : string :=
  match rsplit "/" p with
  | Some (h, _) =>
      let head := h +:+ "/" in
      if String.eqb (rstrip "/" head) "" then head else rstrip "/" head
  | None => ""
  end.

(** [posixpath.splitext]: the extension starts at the last dot of the last
    component, unless only dots come before it in that component. *)
Definition splitext (p : string) : string * string :=
  match rsplit "." p with
  | Some (root, ext) =>
      if char_in "/" ext then (p, "")
      else if forallb (Ascii.eqb ".") (chars (basename root)) then (p, "")
      else (root, "." +:+ ext)
  | None => (p, "")
  end.

(** [posixpath.join] of two components. *)
Definition path_join (a b : string) : string :=
  if startswith "/" b then b
  else if String.eqb a "" || negb (String.eqb (rstrip "/" a) a) then a +:+ b
  else a +:+ "/" +:+ b.

(** [s.rjust(width, c)] *)
Definition rjust (width : nat) (c : ascii) (s : string) : string :=
  string_of_list_ascii (replicate (width - String.length s) c) +:+ s.

(** [{:06}] applied to a counter: its decimal digits, filled with zeros on
    the left up to six characters. *)
Definition format_06 (n : nat) : string :=
  rjust 6 "0" (int_text (Z.of_nat n)).

Definition bytes : Type := list Byte.byte.

(** A file holds YAML text, given by its documents, or binary data. *)
Inductive file : Type :=
  | TextFile (documents : Stream)
  | BinaryFile (content : bytes).

(** The files by path, and the paths at which a file can be created or
    overwritten; a write anywhere else fails (missing directory, permission,
    full disk). *)
Record filesystem : Type := {
  fs_files : gmap string file;
  fs_writable : string -> bool
}.

(** [os.path.isfile] *)
Definition isfile (fs : filesystem) (path : string) : bool :=
  bool_decide (is_Some (fs_files fs !! path)).

Definition fs_write (fs : filesystem) (path : string) (content : bytes) : result filesystem :=
  if fs_writable fs path
  then Returns {| fs_files := <[path := BinaryFile content]> (fs_files fs);
                  fs_writable := fs_writable fs |}
  else Raises OSError.

Definition fs_read (fs : filesystem) (path : string) : result bytes :=
  match fs_files fs !! path with
  | Some (BinaryFile content) => Returns content
  | Some (TextFile _) => Unmodelled
  | None =>
      Raises (FileNotFoundError ("[Errno 2] No such file or directory: '" +:+ path +:+ "'"))
  end.

(** ** The loader and the dumper *)

Definition node_tag (n : Node) : string :=
  match n with
  | ScalarNode tag _ | SequenceNode tag _ | MappingNode tag _ => tag
  end.

Definition set_tag (tag : string) (n : Node) : Node :=
  match n with
  | ScalarNode _ value => ScalarNode tag value
  | SequenceNode _ items => SequenceNode tag items
  | MappingNode _ pairs => MappingNode tag pairs
  end.

Fixpoint node_height (n : Node) : nat :=
  match n with
  | ScalarNode _ _ => 1
  | SequenceNode _ items => S (foldr (fun x h => Nat.max (node_height x) h) O items)
  | MappingNode _ pairs =>
      S (foldr (fun kv h => Nat.max (Nat.max (node_height kv.1) (node_height kv.2)) h) O pairs)
  end.

(** Each element of a list in turn, up to the first that does not return. *)
Fixpoint for_each {A B} (f : A -> result B) (l : list A) : result (list B) :=
  match l with
  | [] => Returns []
  | x :: rest => y ← f x; ys ← for_each f rest; Returns (y :: ys)
  end.

(** [construct_scalar] of the safe constructor: the text of a scalar node,
    or of the value of the first [=] key of a mapping node. *)
Fixpoint construct_scalar (node : Node) : result string :=
  match node with
  | ScalarNode _ value => Returns value
  | SequenceNode _ _ => Raises ConstructorError
  | MappingNode _ pairs =>
      (fix go (l : list (Node * Node)) : result string :=
         match l with
         | [] => Raises ConstructorError
         | (k, v) :: rest =>
             if String.eqb (node_tag k) TAG_VALUE then construct_scalar v else go rest
         end) pairs
  end.

(** [flatten_mapping]: the pairs of a mapping node after its merge key has
    been replaced by the pairs it stands for, which come first; a [=] key
    becomes a string key.  What the library does with a second merge key in
    one mapping differs between its versions (a warning or an error), and
    nothing is said of it. *)
Fixpoint flatten_mapping (node : Node) : result (list (Node * Node)) :=
  match node with
  | MappingNode _ pairs =>
      '(merge, rest) ←
        (fix go (l : list (Node * Node))
           : result (list (Node * Node) * list (Node * Node)) :=
           match l with
           | [] => Returns ([], [])
           | (k, v) :: r =>
               if String.eqb (node_tag k) TAG_MERGE then
                 if existsb (fun kv => String.eqb (node_tag kv.1) TAG_MERGE) r
                 then Unmodelled else
                 m ← match v with
                     | MappingNode _ _ => flatten_mapping v
                     | SequenceNode _ subnodes =>
                         ms ← (fix each (s : list Node) : result (list (list (Node * Node))) :=
                                 match s with
                                 | [] => Returns []
                                 | sub :: s' =>
                                     match sub with
                                     | MappingNode _ _ =>
                                         x ← flatten_mapping sub; xs ← each s'; Returns (x :: xs)
                                     | _ => Raises ConstructorError
                                     end
                                 end) subnodes;
                         Returns (concat (rev ms))
                     | ScalarNode _ _ => Raises ConstructorError
                     end;
                 '(merge, rest) ← go r;
                 Returns (m ++ merge, rest)
               else
                 '(merge, rest) ← go r;
                 Returns (merge,
                          (if String.eqb (node_tag k) TAG_VALUE then set_tag TAG_STR k else k, v)
                            :: rest)
           end) pairs;
      Returns (merge ++ rest)
  | _ => Unmodelled
  end.

Inductive loader_base : Type := Loader | SafeLoader.

(** Each element of a list in turn, every step starting in the state that
    the step before it left. *)
Definition thread {A B S} (f : A -> S -> result (B * S)) : list A -> S -> result (list B * S) :=
  fix go (l : list A) (st : S) : result (list B * S) :=
    match l with
    | [] => Returns ([], st)
    | x :: rest =>
        '(y, st1) ← f x st;
        '(ys, st2) ← go rest st1;
        Returns (y :: ys, st2)
    end.

(** The state of one dumper: the counter of the arrays written to files of
    their own, and the file system. *)
Record dumper_state : Type := {
  external_ndarray_counter : nat;
  dumper_fs : filesystem
}.

Definition quoted (s : string) : string :=
  String double_quote s +:+ String double_quote EmptyString.

(** ** Directories and the system calls of [save]

    [save] asks whether the directory of the file exists, creates it when it
    does not, and opens the file for writing.  A disk holds the files and the
    directories by path, and the paths at which the process may create an
    entry or write to a file.  A path names an entry as it is written; what
    lets two paths name one entry (links, the names [.] and [..], doubled and
    final slashes) is outside the model, and so is the directory that
    relative paths start from, which is the parent of a path without a
    slash.  The root directory [/] is always there. *)

Inductive os_error : Type := ENOENT | EEXIST | ENOTDIR | EISDIR | EACCES.

Record disk : Type := {
  disk_files : gmap string file;
  disk_dirs : gset string;
  disk_permits : string -> bool
}.

(** The outcome of a system call: the error, if there is one, and the disk
    after the call. *)
Definition os_outcome : Type := option os_error * disk.

(** The exception that Python raises for an error at a path:
    [FileNotFoundError] with its message for [ENOENT], and for the other
    errors [FileExistsError], [NotADirectoryError], [IsADirectoryError] and
    [PermissionError], which are kinds of [OSError]. *)
Definition os_exception (e : os_error) (path : string) : exn :=
  match e with
  | ENOENT => FileNotFoundError ("[Errno 2] No such file or directory: '" +:+ path +:+ "'")
  | _ => OSError
  end.

Definition raise_os_error (path : string) (outcome : result os_outcome) : result disk :=
  '(failure, d) ← outcome;
  match failure with
  | Some e => Raises (os_exception e path)
  | None => Returns d
  end.

(** A name that stands for the entry of that name: not the empty name, [.]
    or [..]. *)
Definition plain_name (name : string) : bool :=
  negb (string_in name [""; "."; ".."]).

Definition without_root (path : string) : string :=
  match path with
  | String "/" rest => rest
  | _ => path
  end.

(** A path that names its entry in one way only: [/], or plain names with
    single slashes between them, after at most one slash in front. *)
Definition plain_path (path : string) : bool :=
  String.eqb path "/" || forallb plain_name (split_on "/" (without_root path)).



(** [os.path.isdir] and [os.path.isfile] on a plain path. *)
Definition disk_isdir (d : disk) (path : string) : bool :=
  String.eqb path "/" || bool_decide (path ∈ disk_dirs d).

Definition disk_isfile (d : disk) (path : string) : bool :=
  bool_decide (is_Some (disk_files d !! path)).

(** [os.path.exists]: no entry has the empty path. *)
Definition path_exists (d : disk) (path : string) : result bool :=
  if String.eqb path "" then Returns false
  else if negb (plain_path path) then Unmodelled
  else Returns (disk_isdir d path || disk_isfile d path).

(** The parent of a new entry: [None] when it is a directory, the error when
    it is a file.  When there is no entry at the parent the error depends on
    the directories above it. *)
Definition parent_error (d : disk) (path : string) : result (option os_error) :=
  let parent := dirname path in
  if String.eqb parent "" || disk_isdir d parent then Returns None
  else if disk_isfile d parent then Returns (Some ENOTDIR)
  else Unmodelled.

(** [os.mkdir] *)
Definition mkdir (d : disk) (path : string) : result os_outcome :=
  if String.eqb path "" then Returns (Some ENOENT, d)
  else if negb (plain_path path) then Unmodelled
  else
    failure ← parent_error d path;
    match failure with
    | Some e => Returns (Some e, d)
    | None =>
        if disk_isdir d path || disk_isfile d path then Returns (Some EEXIST, d)
        else if disk_permits d path then
          Returns (None, {| disk_files := disk_files d;
                            disk_dirs := {[path]} ∪ disk_dirs d;
                            disk_permits := disk_permits d |})
        else Returns (Some EACCES, d)
    end.

(** [os.path.split] *)
Definition path_split (p : string) : string * string := (dirname p, basename p).

(** [os.makedirs(name)], with [exist_ok] left at [False]: the directories
    above [name] are made first where the one next to it is missing, a
    [FileExistsError] from making them is passed over, and the error of the
    last [mkdir] is raised.  Every call is on a shorter name, which [fuel]
    counts. *)
Fixpoint makedirs_from (fuel : nat) (d : disk) (name : string) : result os_outcome :=
  match fuel with
  | O => Unmodelled
  | S fuel =>
      let '(head, tail) := path_split name in
      let '(head, tail) := if String.eqb tail "" then path_split head else (head, tail) in
      if negb (String.eqb head "") && negb (String.eqb tail "") then
        found ← path_exists d head;
        if negb found then
          '(failure, made) ← makedirs_from fuel d head;
          let passed_over :=
            match failure with
            | None | Some EEXIST => true
            | Some _ => false
            end in
          if passed_over
          then if String.eqb tail "." then Returns (None, made) else mkdir made name
          else Returns (failure, made)
        else mkdir d name
      else mkdir d name
  end.

Definition makedirs (d : disk) (name : string) : result os_outcome :=
  makedirs_from (S (String.length name)) d name.

(** [open(path, 'w')]: the file is created, or emptied if it is there. *)
Definition open_w (d : disk) (path : string) : result os_outcome :=
  if String.eqb path "" then Returns (Some ENOENT, d)
  else if negb (plain_path path) then Unmodelled
  else
    failure ← parent_error d path;
    match failure with
    | Some e => Returns (Some e, d)
    | None =>
        if disk_isdir d path then Returns (Some EISDIR, d)
        else if disk_permits d path then
          Returns (None, {| disk_files := <[path := TextFile []]> (disk_files d);
                            disk_dirs := disk_dirs d;
                            disk_permits := disk_permits d |})
        else Returns (Some EACCES, d)
    end.

(** The files of a disk as the loader and the dumper see them: a file can
    be written where it can be opened for writing. *)
Definition disk_view (d : disk) : filesystem :=
  {| fs_files := disk_files d;
     fs_writable := fun path =>
       match open_w d path with
       | Returns (None, _) => true
       | _ => false
       end |}.

(** ** Stand-ins for the libraries

    Small codecs with which the loader and the dumper can be run: floats are
    written as a mantissa and a binary exponent, an archive holds the type,
    the shape and the integer elements of an array in eight bytes each, and
    bytes are written in hexadecimal.  They stand where the development
    needs some float text, archive format and binary-to-text encoding to
    compute with, and they are not the formats of the libraries. *)
Module Sample.

Definition float_text (f : spec_float) : string :=
  match f with
  | S754_zero s => if s then "-0.0" else "0.0"
  | S754_infinity s => if s then "-.inf" else ".inf"
  | S754_nan => ".nan"
  | S754_finite s m e =>
      (if s then "-" else "") +:+ NilZero.string_of_uint (Pos.to_uint m)
        +:+ "p" +:+ NilZero.string_of_int (Z.to_int e)
  end.

Definition float_value (text : string) : result spec_float :=
  if String.eqb text "0.0" then Returns (S754_zero false)
  else if String.eqb text "-0.0" then Returns (S754_zero true)
  else if String.eqb text ".inf" then Returns (S754_infinity false)
  else if String.eqb text "-.inf" then Returns (S754_infinity true)
  else if String.eqb text ".nan" then Returns S754_nan
  else
    let s := startswith "-" text in
    let body := if s then string_of_list_ascii (drop 1 (chars text)) else text in
    match rsplit "p" body with
    | Some (m, e) =>
        match NilZero.uint_of_string m, NilZero.int_of_string e with
        | Some um, Some ie =>
            match Pos.of_uint um with
            | Npos pm => Returns (S754_finite s pm (Z.of_int ie))
            | N0 => Raises ValueError
            end
        | _, _ => Raises ValueError
        end
    | None => Raises ValueError
    end.

Definition byte_of_Z (z : Z) : Byte.byte :=
  default Byte.x00 (Byte.of_N (Z.to_N (z mod 256))).
Definition Z_of_byte (b : Byte.byte) : Z := Z.of_N (Byte.to_N b).

(** [n] bytes of an integer, the least significant first. *)
Fixpoint le_bytes (n : nat) (z : Z) : bytes :=
  match n with
  | O => []
  | S n => byte_of_Z z :: le_bytes n (z / 256)
  end.

Fixpoint le_value (bs : bytes) : Z :=
  match bs with
  | [] => 0
  | b :: rest => Z_of_byte b + 256 * le_value rest
  end.

Definition dtype_code (d : dtype) : Z :=
  match d with
  | IntType int8 => 0 | IntType uint8 => 1 | IntType int16 => 2 | IntType uint16 => 3
  | IntType int32 => 4 | IntType uint32 => 5 | IntType int64 => 6 | IntType uint64 => 7
  | FloatType float16 => 8 | FloatType float32 => 9 | FloatType float64 => 10
  end.

Definition all_dtypes : list dtype :=
  map IntType [int8; uint8; int16; uint16; int32; uint32; int64; uint64]
    ++ map FloatType [float16; float32; float64].

Definition dtype_of_code (c : Z) : option dtype :=
  find (fun d => dtype_code d =? c) all_dtypes.

Definition element_bytes (x : element) : bytes :=
  match x with
  | EInt z => le_bytes 8 z
  | EFloat _ => le_bytes 8 0
  end.

Definition savez_compressed (a : ndarray) : bytes :=
  byte_of_Z (dtype_code (arr_dtype a))
    :: byte_of_Z (Z.of_nat (length (arr_shape a)))
    :: map (fun n => byte_of_Z (Z.of_nat n)) (arr_shape a)
    ++ concat (map element_bytes (arr_data a)).

Fixpoint chunks (fuel : nat) (bs : bytes) : list bytes :=
  match fuel, bs with
  | S fuel, _ :: _ => take 8 bs :: chunks fuel (drop 8 bs)
  | _, _ => []
  end.

Definition element_of (d : dtype) (chunk : bytes) : element :=
  match d with
  | IntType i =>
      let u := le_value chunk in
      EInt (if (0 <=? (int_bounds i).1) || (u <? 2 ^ 63) then u else u - 2 ^ 64)
  | FloatType _ => EFloat (S754_zero false)
  end.

Definition numpy_load (bs : bytes) : result ndarray :=
  match bs with
  | code :: ndim :: rest =>
      match dtype_of_code (Z_of_byte code) with
      | Some d =>
          let n := Z.to_nat (Z_of_byte ndim) in
          Returns {| arr_dtype := d;
                     arr_shape := map (fun b => Z.to_nat (Z_of_byte b)) (take n rest);
                     arr_data := map (element_of d) (chunks (length rest) (drop n rest)) |}
      | None => Raises ValueError
      end
  | _ => Raises ValueError
  end.

Definition hex_digit (z : Z) : ascii :=
  ascii_of_nat (Z.to_nat (if z <? 10 then 48 + z else 87 + z)).

Definition b64encode (bs : bytes) : string :=
  string_of_list_ascii
    (concat (map (fun b => [hex_digit (Z_of_byte b / 16); hex_digit (Z_of_byte b mod 16)]) bs)).

Fixpoint hex_pairs (cs : list ascii) : result bytes :=
  match cs with
  | [] => Returns []
  | a :: b :: rest =>
      match digit_in_base 16 a, digit_in_base 16 b with
      | Some x, Some y => bs ← hex_pairs rest; Returns (byte_of_Z (16 * x + y) :: bs)
      | _, _ => Raises ConstructorError
      end
  | [_] => Raises ConstructorError
  end.

Definition b64decode (text : string) : result bytes := hex_pairs (chars text).

(** Sample inputs: a file system on which every write succeeds and one on
    which every write fails, an array, a document, and a file system with
    one configuration file. *)
Definition writable_fs : filesystem := {| fs_files := ∅; fs_writable := fun _ => true |}.
Definition readonly_fs : filesystem := {| fs_files := ∅; fs_writable := fun _ => false |}.

Definition grid : ndarray :=
  {| arr_dtype := IntType int32; arr_shape := [2%nat; 2%nat];
     arr_data := [EInt 1; EInt (-2); EInt 3; EInt 4] |}.

Definition document : list (Value * Value) :=
  [ (VStr "gain", VNumpyInt int32 7);
    (VStr "rate", VFloat (S754_finite false 3 (-1)));
    (VStr "modes", VFrozenset [VStr "fast"; VInt 2]);
    (VStr "spare", VFrozenset []);
    (VStr "frames", VList [VArray grid; VNone; VBool true; VStr "1e10"]);
    (VStr "dark", VArray grid) ].

Definition config_text : Stream :=
  [RawMapping None [(RawScalar None Plain "x", RawScalar None Plain "5")]].

Definition config_fs : filesystem :=
  {| fs_files := {["app.cfg" := TextFile config_text]}; fs_writable := fun _ => true |}.


Definition conf_disk : disk :=
  {| disk_files := ∅; disk_dirs := {["conf"]}; disk_permits := fun _ => true |}.

(** The pairs of the mapping [{a: 1, b: 2}], which is merged, and those of
    the mapping [{b: 3, c: 4}] that merges it. *)
Definition merged_pairs : list (Node * Node) :=
  [(ScalarNode TAG_STR "a", ScalarNode TAG_INT "1");
   (ScalarNode TAG_STR "b", ScalarNode TAG_INT "2")].

Definition own_pairs : list (Node * Node) :=
  [(ScalarNode TAG_STR "b", ScalarNode TAG_INT "3");
   (ScalarNode TAG_STR "c", ScalarNode TAG_INT "4")].

End Sample.

Section Codec.

Set Default Proof Using "Type".

(** The parts of the libraries that are taken as given: the text that
    [represent_float] writes for a float and the float that
    [construct_yaml_float] reads; the archive that
    [numpy.savez_compressed(f, array=data)] writes and the entry [array]
    that [numpy.load] finds in an archive; [base64.encodebytes] and
    [base64.decodebytes]. *)
Variable float_text : spec_float -> string.
Variable float_value : string -> result spec_float.
Variable savez_compressed : ndarray -> bytes.
Variable numpy_load : bytes -> result ndarray.
Variable b64encode : bytes -> string.
Variable b64decode : string -> result bytes.

(** *** [ordered_load] *)

(** [loader.construct_pairs(node)]; [loader] is the constructor for the
    nodes below. *)
Definition construct_pairs (loader : Node -> result Value) (pairs : list (Node * Node))
  : result (list (Value * Value)) :=
  for_each (fun kv => k ← loader kv.1; v ← loader kv.2; Returns (k, v)) pairs.

(** The [OrderedDict] constructor. *)
Definition construct_mapping (loader : Node -> result Value) (node : Node) : result Value :=
  pairs ← flatten_mapping node;
  kvs ← construct_pairs loader pairs;
  d ← OrderedDict kvs;
  Returns (VOrderedDict d).

(** [loader.construct_yaml_binary(node)] *)
Definition construct_yaml_binary (node : Node) : result bytes :=
  text ← construct_scalar node;
  b64decode text.

(** The [ndarray] constructor. *)
Definition construct_ndarray (node : Node) : result Value :=
  value ← construct_yaml_binary node;
  a ← numpy_load value;
  Returns (VArray a).

(** The constructor for an array that is saved in an external file. *)
Definition construct_external_ndarray (fs : filesystem) (node : Node) : result Value :=
  filename ← construct_scalar node;
  content ← fs_read fs filename;
  a ← numpy_load content;
  Returns (VArray a).

(** [loader.construct_yaml_set(node)] drained by [tuple]: the generator
    yields one set and fills it, before it ends, with the keys of the
    mapping that the safe constructor builds from the node.  The result
    lists the objects yielded, as they are once the generator has ended. *)
Definition construct_yaml_set (loader : Node -> result Value) (node : Node)
  : result (list (list Value)) :=
  match node with
  | MappingNode _ _ =>
      pairs ← flatten_mapping node;
      kvs ← construct_pairs loader pairs;
      d ← dict_update [] kvs;
      Returns [map fst d]
  | _ => Raises ConstructorError
  end.

(** The [frozenset] constructor:
    [frozenset(data[0]) if data else frozenset()]. *)
Definition construct_frozenset (loader : Node -> result Value) (node : Node) : result Value :=
  data ← construct_yaml_set loader node;
  match data with
  | first :: _ => Returns (VFrozenset first)
  | [] => Returns (VFrozenset [])
  end.

(** [construct_str]: a string that starts with [array(] is evaluated. *)
Definition construct_str (node : Node) : result Value :=
  value ← construct_scalar node;
  construct_str_value value.

(** [construct_yaml_seq] *)
Definition construct_yaml_seq (loader : Node -> result Value) (node : Node) : result Value :=
  match node with
  | SequenceNode _ items => vs ← for_each loader items; Returns (VList vs)
  | _ => Raises ConstructorError
  end.

(** The constructors of [OrderedLoader] by tag: those of the base loader
    and the five that [ordered_load] adds.  Tags of the base loader whose
    values are not configuration values (binary data, time stamps, ordered
    maps, pairs, mutable sets, Python objects) are left out. *)
Definition construct_by_tag (base : loader_base) (fs : filesystem)
    (loader : Node -> result Value) (node : Node) : result Value :=
  let tag := node_tag node in
  if String.eqb tag DEFAULT_MAPPING_TAG then construct_mapping loader node
  else if String.eqb tag TAG_NDARRAY then construct_ndarray node
  else if String.eqb tag TAG_EXTNDARRAY then construct_external_ndarray fs node
  else if String.eqb tag TAG_FROZENSET then construct_frozenset loader node
  else if String.eqb tag DEFAULT_SCALAR_TAG then construct_str node
  else if String.eqb tag TAG_NULL then _ ← construct_scalar node; Returns VNone
  else if String.eqb tag TAG_BOOL then
    text ← construct_scalar node; b ← construct_yaml_bool text; Returns (VBool b)
  else if String.eqb tag TAG_INT then
    text ← construct_scalar node; z ← construct_yaml_int text; Returns (VInt z)
  else if String.eqb tag TAG_FLOAT then
    text ← construct_scalar node; f ← float_value text; Returns (VFloat f)
  else if String.eqb tag TAG_SEQ then construct_yaml_seq loader node
  else if string_in tag [TAG_BINARY; TAG_TIMESTAMP; TAG_SET;
                         "tag:yaml.org,2002:omap"; "tag:yaml.org,2002:pairs"]
  then Unmodelled
  else match base with
       | Loader => if startswith "tag:yaml.org,2002:python/" tag then Unmodelled
                   else Raises ConstructorError
       | SafeLoader => Raises ConstructorError
       end.

(** [construct_object]; [fuel] bounds the depth of the nodes. *)
Fixpoint construct_object (base : loader_base) (fs : filesystem) (fuel : nat) (node : Node)
  : result Value :=
  match fuel with
  | O => Unmodelled
  | S fuel => construct_by_tag base fs (construct_object base fs fuel) node
  end.

(** [yaml.load(stream, OrderedLoader)]: [None] for a stream without a
    document. *)
Definition yaml_load (base : loader_base) (fs : filesystem) (stream : Stream) : result Value :=
  root ← get_single_node stream;
  match root with
  | None => Returns VNone
  | Some node => construct_object base fs (node_height node) node
  end.

(** [ordered_load(stream, loader_base)] *)
Definition ordered_load (fs : filesystem) (stream : Stream) (base : loader_base)
  : result Value :=
  config ← yaml_load base fs stream;
  match config with
  | VNone => Returns (VOrderedDict [])
  | _ => Returns config
  end.

(** [load(file_path, ignore_missing)] *)
Definition load (fs : filesystem) (file_path : string) (ignore_missing : bool) : result Value :=
  if isfile fs file_path then
    match fs_files fs !! file_path with
    | Some (TextFile f) => ordered_load fs f SafeLoader
    | _ => Unmodelled
    end
  else if ignore_missing then Returns (VOrderedDict [])
  else Raises (FileNotFoundError
                 ("Could not load config file " +:+ quoted file_path +:+ ". File not found")).

(** *** [ordered_dump] *)

Definition representer : Type := Value -> dumper_state -> result (Node * dumper_state).

(** [represent_sequence(tag, sequence)] *)
Definition represent_sequence (represent_data : representer) (tag : string)
    (sequence : list Value) (st : dumper_state) : result (Node * dumper_state) :=
  '(items, st') ← thread represent_data sequence st;
  Returns (SequenceNode tag items, st').

(** One item of [represent_mapping]: the key is represented before the
    value. *)
Definition represent_item (represent_data : representer) (item : Value * Value)
    (st : dumper_state) : result (Node * Node * dumper_state) :=
  '(node_key, st1) ← represent_data item.1 st;
  '(node_value, st2) ← represent_data item.2 st1;
  Returns (node_key, node_value, st2).

(** [represent_mapping(tag, mapping)] for a mapping given by its items in
    order. *)
Definition represent_mapping (represent_data : representer) (tag : string)
    (mapping : list (Value * Value)) (st : dumper_state) : result (Node * dumper_state) :=
  '(pairs, st') ← thread (represent_item represent_data) mapping st;
  Returns (MappingNode tag pairs, st').

(** Representer for [OrderedDict]. *)
Definition represent_ordereddict (represent_data : representer)
    (data : list (Value * Value)) (st : dumper_state) : result (Node * dumper_state) :=
  represent_mapping represent_data DEFAULT_MAPPING_TAG data st.

(** Representer for numpy int dtypes: [numpy.asscalar(data)] is the Python
    [int] of the same value. *)
Definition represent_int (data : Z) (st : dumper_state) : result (Node * dumper_state) :=
  Returns (ScalarNode TAG_INT (int_text data), st).

(** Representer for numpy float dtypes. *)
Definition represent_float (data : spec_float) (st : dumper_state)
  : result (Node * dumper_state) :=
  Returns (ScalarNode TAG_FLOAT (float_text data), st).

Definition represent_none (st : dumper_state) : result (Node * dumper_state) :=
  Returns (ScalarNode TAG_NULL "null", st).

(** One element of [represent_set]: the element is a key and [None] its
    value. *)
Definition represent_element (represent_data : representer) (key : Value)
    (st : dumper_state) : result (Node * Node * dumper_state) :=
  '(node_key, st1) ← represent_data key st;
  '(node_value, st2) ← represent_none st1;
  Returns (node_key, node_value, st2).

(** [represent_set(data)]: a mapping node from the elements to [None].
    The elements stand in the order in which the set is iterated. *)
Definition represent_set (represent_data : representer)
    (data : list Value) (st : dumper_state) : result (Node * dumper_state) :=
  '(pairs, st') ← thread (represent_element represent_data) data st;
  Returns (MappingNode TAG_SET pairs, st').

(** Representer for [frozenset]: the node of [represent_set] with its tag
    replaced. *)
Definition represent_frozenset (represent_data : representer)
    (data : list Value) (st : dumper_state) : result (Node * dumper_state) :=
  '(node, st') ← represent_set represent_data data st;
  Returns (set_tag TAG_FROZENSET node, st').

(** The name of the file that [represent_ndarray] writes. *)
Definition external_path (name : string) (counter : nat) : string :=
  let filename := (splitext (basename name)).1 in
  let configdir := dirname name in
  path_join configdir filename +:+ "-" +:+ format_06 counter +:+ ".npz".

(** Representer for numpy ndarrays.  [stream_name] is [stream.name] where
    the stream has that attribute. *)
Definition represent_ndarray (stream_name : option string)
    (data : ndarray) (st : dumper_state) : result (Node * dumper_state) :=
  try_except_all
    (name ← match stream_name with
            | Some name => Returns name
            | None => Raises AttributeError
            end;
     let newpath := external_path name (external_ndarray_counter st) in
     fs ← fs_write (dumper_fs st) newpath (savez_compressed data);
     let node := set_tag TAG_EXTNDARRAY (ScalarNode TAG_STR newpath) in
     Returns (node, {| external_ndarray_counter := S (external_ndarray_counter st);
                       dumper_fs := fs |}))
    (let compressed_string := savez_compressed data in
     let node := set_tag TAG_NDARRAY (ScalarNode TAG_BINARY (b64encode compressed_string)) in
     Returns (node, st)).

(** [represent_data]: the representer registered for the type of the
    value. *)
Fixpoint represent_data (stream_name : option string) (data : Value) (st : dumper_state)
  : result (Node * dumper_state) :=
  match data with
  | VNone => represent_none st
  | VBool b => Returns (ScalarNode TAG_BOOL (bool_text b), st)
  | VInt z => Returns (ScalarNode TAG_INT (int_text z), st)
  | VFloat f => Returns (ScalarNode TAG_FLOAT (float_text f), st)
  | VStr s => Returns (ScalarNode TAG_STR s, st)
  | VNumpyInt _ z => represent_int z st
  | VNumpyFloat _ f => represent_float f st
  | VList items => represent_sequence (represent_data stream_name) TAG_SEQ items st
  | VOrderedDict items => represent_ordereddict (represent_data stream_name) items st
  | VFrozenset elements => represent_frozenset (represent_data stream_name) elements st
  | VArray a => represent_ndarray stream_name a st
  end.

(** [ordered_dump(data, stream)].  The first component is the text that
    [yaml.dump] writes: it is returned to the caller when there is no
    stream, and it goes to the stream when there is one, which holds it from
    then on; where the stream is a file, as in [save], the text is in the
    file when the file is closed.  The second component is the file system
    as the representers leave it, that is, with the files of the arrays;
    the text of the stream is not entered into it.  The counter of a dumper
    starts at 0. *)
Definition ordered_dump (data : Value) (stream_name : option string) (fs : filesystem)
  : result (Stream * filesystem) :=
  '(node, st) ← represent_data stream_name data
                  {| external_ndarray_counter := O; dumper_fs := fs |};
  Returns ([serialize_node node], dumper_fs st).

(** *** [save] *)

(** [save(file_path, data)]: the disk after the call.  The stream of the
    dump is the file that was opened, so its name is [file_path]; the dumper
    base [yaml.SafeDumper] has the representers of the base that
    [ordered_dump] takes by default for every value of a configuration, and
    [default_flow_style] changes the layout of the text only.  The text of the
    document is in the file when the file is closed. *)
Definition save (d : disk) (file_path : string) (data : Value) : result disk :=
  let file_dir := dirname file_path in
  found ← path_exists d file_dir;
  made ← (if negb found then raise_os_error file_dir (makedirs d file_dir) else Returns d);
  opened ← raise_os_error file_path (open_w made file_path);
  '(stream, fs) ← ordered_dump data (Some file_path) (disk_view opened);
  Returns {| disk_files := <[file_path := TextFile stream]> (fs_files fs);
             disk_dirs := disk_dirs opened;
             disk_permits := disk_permits opened |}.

(** *** Notions used in the statements *)

(** The keys of a list of items in the order of their first occurrence. *)
Fixpoint first_occurrences (keys : list string) : list string :=
  match keys with
  | [] => []
  | k :: rest => k :: filter (fun k' => k' <> k) (first_occurrences rest)
  end.

(** The value of the last item with key [k]. *)
Fixpoint last_binding (k : string) (items : list (string * Value)) : option Value :=
  match items with
  | [] => None
  | (k', v) :: rest =>
      match last_binding k rest with
      | Some v' => Some v'
      | None => if decide (k' = k) then Some v else None
      end
  end.

(** Items with string keys as pairs of values. *)
Definition str_items (items : list (string * Value)) : list (Value * Value) :=
  map (fun item => (VStr item.1, item.2)) items.

(** [d[k] = v] on items with string keys. *)
Fixpoint str_setitem (d : list (string * Value)) (k : string) (v : Value)
  : list (string * Value) :=
  match d with
  | [] => [(k, v)]
  | (k', v') :: rest =>
      if decide (k' = k) then (k', v) :: rest else (k', v') :: str_setitem rest k v
  end.

Definition str_update (d items : list (string * Value)) : list (string * Value) :=
  fold_left (fun d item => str_setitem d item.1 item.2) items d.

(** A text of decimal digits. *)
Definition all_digits (s : string) : Prop := Forall (fun c => is_digit c = true) (chars s).

(** A value with every numpy scalar replaced by the Python number of the
    same value: what is left of a value when widths are not looked at. *)
Fixpoint widen (v : Value) : Value :=
  match v with
  | VNumpyInt _ z => VInt z
  | VNumpyFloat _ f => VFloat f
  | VList items => VList (map widen items)
  | VOrderedDict items => VOrderedDict (map (fun kv => (widen kv.1, widen kv.2)) items)
  | VFrozenset elements => VFrozenset (map widen elements)
  | _ => v
  end.

(** No key of the list equals a later one. *)
Fixpoint distinct_keys (keys : list Value) : bool :=
  match keys with
  | [] => true
  | k :: rest => forallb (fun k' => negb (key_eqb k k')) rest && distinct_keys rest
  end.

(** A string that [construct_str] does not evaluate. *)
Definition is_plain_str (v : Value) : bool :=
  match v with
  | VStr s => negb (startswith "array(" s)
  | _ => false
  end.

(** A value that is not a collection and not an array. *)
Definition is_scalar (v : Value) : bool :=
  match v with
  | VList _ | VOrderedDict _ | VFrozenset _ | VArray _ => false
  | _ => true
  end.

(** The values that a document is built from: no string starts with
    [array(], the keys of a mapping are distinct strings, and the elements of
    a set are distinct scalars. *)
Fixpoint supported (v : Value) : bool :=
  match v with
  | VStr s => negb (startswith "array(" s)
  | VList items => forallb supported items
  | VOrderedDict items =>
      forallb (fun kv => is_plain_str kv.1 && supported kv.2) items
      && distinct_keys (map fst items)
  | VFrozenset elements =>
      forallb (fun x => is_scalar x && supported x) elements && distinct_keys elements
  | _ => true
  end.

(** The libraries read back what they write for the floats and the arrays
    of a value: the float constructor gives the float whose text it reads,
    [numpy.load] finds the array in its archive, and the archive is decoded
    from its encoding. *)
Fixpoint faithful (v : Value) : Prop :=
  match v with
  | VFloat f | VNumpyFloat _ f => float_value (float_text f) = Returns f
  | VArray a =>
      numpy_load (savez_compressed a) = Returns a
      /\ b64decode (b64encode (savez_compressed a)) = Returns (savez_compressed a)
  | VList items => fold_right (fun x rest => faithful x /\ rest) True items
  | VOrderedDict items =>
      fold_right (fun kv rest => (faithful kv.1 /\ faithful kv.2) /\ rest) True items
  | VFrozenset elements => fold_right (fun x rest => faithful x /\ rest) True elements
  | _ => True
  end.

(** The arrays of a value in the order in which they are represented. *)
Fixpoint arrays_of (v : Value) : list ndarray :=
  match v with
  | VArray a => [a]
  | VList items => concat (map arrays_of items)
  | VOrderedDict items => concat (map (fun kv => arrays_of kv.1 ++ arrays_of kv.2) items)
  | VFrozenset elements => concat (map arrays_of elements)
  | _ => []
  end.

(** The file names under the [!extndarray] nodes of a node, in the order of
    the document. *)
Fixpoint external_nodes (n : Node) : list string :=
  match n with
  | ScalarNode tag value => if String.eqb tag TAG_EXTNDARRAY then [value] else []
  | SequenceNode _ items => concat (map external_nodes items)
  | MappingNode _ pairs =>
      concat (map (fun kv => external_nodes kv.1 ++ external_nodes kv.2) pairs)
  end.

(** The text of a number with blanks in front of it, as numpy pads the
    elements of an array to one width: the item is the number of blanks and
    the number. *)
Definition padded (item : nat * nat) : string :=
  string_of_list_ascii (replicate item.1 " "%char) +:+ int_text (Z.of_nat item.2).

(** The items with commas between them. *)
Fixpoint joined (items : list (nat * nat)) : string :=
  match items with
  | [] => ""
  | [item] => padded item
  | item :: rest => padded item +:+ "," +:+ joined rest
  end.

(** The text that numpy writes for a one-dimensional array of integers
    that are not negative, on one line, as in [array([  1,  20, 300])]. *)
Definition array_repr (items : list (nat * nat)) : string :=
  "array([" +:+ joined items +:+ "])".

(** The tokens and the expressions of the items. *)
Fixpoint item_tokens (items : list (nat * nat)) : list token :=
  match items with
  | [] => []
  | [item] => [TInt (Z.of_nat item.2)]
  | item :: rest => TInt (Z.of_nat item.2) :: TComma :: item_tokens rest
  end.

Definition separator_token (c : ascii) : token :=
  if Ascii.eqb c "," then TComma else TRBrack.

Definition item_exprs (items : list (nat * nat)) : list expr :=
  map (fun item => EIntLit (Z.of_nat item.2)) items.

(** The nodes that stand for arrays, each with its tag and its text, in
    the order of the document. *)
Fixpoint array_nodes (n : Node) : list (string * string) :=
  match n with
  | ScalarNode tag value =>
      if String.eqb tag TAG_NDARRAY || String.eqb tag TAG_EXTNDARRAY then [(tag, value)] else []
  | SequenceNode _ items => concat (map array_nodes items)
  | MappingNode _ pairs =>
      concat (map (fun kv => array_nodes kv.1 ++ array_nodes kv.2) pairs)
  end.

(** The node of an array [a] after a dump to [stream_name] that left the
    files [files]: the archive of the array, encoded, under [!ndarray], or
    under [!extndarray] the name of a file beside the stream that holds the
    archive. *)
Definition array_node (stream_name : option string) (files : gmap string file)
    (a : ndarray) (node : string * string) : Prop :=
  node = (TAG_NDARRAY, b64encode (savez_compressed a))
  \/ exists name k,
       stream_name = Some name
       /\ node = (TAG_EXTNDARRAY, external_path name k)
       /\ files !! external_path name k = Some (BinaryFile (savez_compressed a)).

(** The nodes of arrays that the dumper represents one after another from
    the counter value [c] on, and the counter afterwards: an array goes to
    the file of the counter, and the counter moves on, when that file can be
    written; it is embedded, and the counter stays, when the file cannot be
    written or the stream has no name. *)
Fixpoint array_nodes_from (stream_name : option string) (writable : string -> bool)
    (c : nat) (arrays : list ndarray) : list (string * string) * nat :=
  match arrays with
  | [] => ([], c)
  | a :: rest =>
      let embedded := (TAG_NDARRAY, b64encode (savez_compressed a)) in
      match stream_name with
      | Some name =>
          if writable (external_path name c)
          then let '(nodes, c') := array_nodes_from stream_name writable (S c) rest in
               ((TAG_EXTNDARRAY, external_path name c) :: nodes, c')
          else let '(nodes, c') := array_nodes_from stream_name writable c rest in
               (embedded :: nodes, c')
      | None =>
          let '(nodes, c') := array_nodes_from stream_name writable c rest in
          (embedded :: nodes, c')
      end
  end.

(** The last component of the name of an external file. *)
Definition external_name (name : string) (counter : nat) : string :=
  (splitext (basename name)).1 +:+ "-" +:+ format_06 counter +:+ ".npz".

(** The file names that a dumper uses from the counter value [c] on. *)
Definition numbered (stream_name : option string) (c n : nat) : list string :=
  match stream_name with
  | Some name => map (external_path name) (seq c n)
  | None => []
  end.

(** What a step of the dumper from [st] to [st'] does to the state when it
    writes the files [paths]: the files are numbered from the counter on, the
    counter moves past them, and no other file changes. *)
Record wrote (stream_name : option string) (st st' : dumper_state) (paths : list string)
  : Prop := {
  wrote_paths : paths = numbered stream_name (external_ndarray_counter st) (length paths);
  wrote_counter :
    external_ndarray_counter st' = (external_ndarray_counter st + length paths)%nat;
  wrote_writable : fs_writable (dumper_fs st') = fs_writable (dumper_fs st);
  wrote_frame :
    forall p, p ∉ paths -> fs_files (dumper_fs st') !! p = fs_files (dumper_fs st) !! p
}.

(** Two file systems hold the same files at [paths]. *)
Definition same_files (paths : list string) (fs1 fs2 : filesystem) : Prop :=
  forall p, p ∈ paths -> fs_files fs1 !! p = fs_files fs2 !! p.

(** The node is constructed as [v], whatever fuel is given beyond its
    height. *)
Definition loads_back (base : loader_base) (fs : filesystem) (node : Node) (v : Value) : Prop :=
  forall fuel, (node_height node <= fuel)%nat -> construct_object base fs fuel node = Returns v.

(** ** Properties *)

(** *** The empty stream (C8) *)

(** C8.  A stream without a document loads as an empty [OrderedDict]: the
    load returns, and what it returns is neither [None] nor an error. *)
Theorem empty_stream_loads_empty_document :
  forall fs base, ordered_load fs [] base = Returns (VOrderedDict []).
Proof. intros fs base. reflexivity. Qed.

(** *** Induction on values *)

Section Value_induction.

Variable P : Value -> Prop.
Hypothesis HNone : P VNone.
Hypothesis HBool : forall b, P (VBool b).
Hypothesis HInt : forall z, P (VInt z).
Hypothesis HFloat : forall f, P (VFloat f).
Hypothesis HStr : forall s, P (VStr s).
Hypothesis HNumpyInt : forall d z, P (VNumpyInt d z).
Hypothesis HNumpyFloat : forall d f, P (VNumpyFloat d f).
Hypothesis HList : forall items, Forall P items -> P (VList items).
Hypothesis HDict :
  forall items, Forall (fun kv => P kv.1 /\ P kv.2) items -> P (VOrderedDict items).
Hypothesis HSet : forall elements, Forall P elements -> P (VFrozenset elements).
Hypothesis HArray : forall a, P (VArray a).

Fixpoint Value_nested_ind (v : Value) : P v :=
  match v with
  | VNone => HNone
  | VBool b => HBool b
  | VInt z => HInt z
  | VFloat f => HFloat f
  | VStr s => HStr s
  | VNumpyInt d z => HNumpyInt d z
  | VNumpyFloat d f => HNumpyFloat d f
  | VList items =>
      HList items
        ((fix go (l : list Value) : Forall P l :=
            match l with
            | [] => List.Forall_nil P
            | x :: r => List.Forall_cons _ x r (Value_nested_ind x) (go r)
            end) items)
  | VOrderedDict items =>
      HDict items
        ((fix go (l : list (Value * Value)) : Forall (fun kv => P kv.1 /\ P kv.2) l :=
            match l with
            | [] => List.Forall_nil _
            | kv :: r =>
                List.Forall_cons _ kv r
                  (conj (Value_nested_ind kv.1) (Value_nested_ind kv.2)) (go r)
            end) items)
  | VFrozenset elements =>
      HSet elements
        ((fix go (l : list Value) : Forall P l :=
            match l with
            | [] => List.Forall_nil P
            | x :: r => List.Forall_cons _ x r (Value_nested_ind x) (go r)
            end) elements)
  | VArray a => HArray a
  end.

End Value_induction.

(** *** The dump always returns and falls back to inline arrays (C5) *)

Lemma represent_ndarray_returns stream_name data st :
  exists node st', represent_ndarray stream_name data st = Returns (node, st').
Proof.
  unfold represent_ndarray, fs_write.
  destruct stream_name as [name|]; simpl; [|eauto].
  destruct (fs_writable _ _); simpl; eauto.
Qed.

Lemma thread_returns {A B S} (f : A -> S -> result (B * S)) (l : list A) :
  Forall (fun x => forall st, exists y st', f x st = Returns (y, st')) l ->
  forall st, exists ys st', thread f l st = Returns (ys, st').
Proof.
  induction 1 as [|x rest Hx _ IH]; intros st; simpl; [eauto|].
  destruct (Hx st) as (y & st1 & ->). simpl.
  destruct (IH st1) as (ys & st2 & ->). simpl. eauto.
Qed.

Lemma represent_data_returns stream_name (data : Value) :
  forall st, exists node st', represent_data stream_name data st = Returns (node, st').
Proof.
  induction data as [| | | | | | |items IH|items IH|elements IH|a] using Value_nested_ind;
    intros st; simpl; try (unfold represent_none, represent_int, represent_float; eauto; fail).
  - unfold represent_sequence.
    destruct (thread_returns (represent_data stream_name) items IH st) as (ys & st' & ->).
    simpl. eauto.
  - unfold represent_ordereddict, represent_mapping.
    assert (Hitem : Forall (fun kv => forall st, exists y st',
                       represent_item (represent_data stream_name) kv st = Returns (y, st')) items).
    { eapply Forall_impl; [exact IH|]. intros kv [Hk Hv] st0. unfold represent_item.
      destruct (Hk st0) as (nk & st1 & ->). simpl.
      destruct (Hv st1) as (nv & st2 & ->). simpl. eauto. }
    destruct (thread_returns _ items Hitem st) as (ys & st' & ->). simpl. eauto.
  - unfold represent_frozenset, represent_set.
    assert (Hitem : Forall (fun k => forall st, exists y st',
                       represent_element (represent_data stream_name) k st = Returns (y, st'))
                      elements).
    { eapply Forall_impl; [exact IH|]. intros k Hk st0. unfold represent_element.
      destruct (Hk st0) as (nk & st1 & ->). simpl. eauto. }
    destruct (thread_returns _ elements Hitem st) as (ys & st' & ->). simpl. eauto.
  - apply represent_ndarray_returns.
Qed.

(** *** Missing files (C4) *)

(** C4.  For a path that is not a file, [load] returns an empty
    [OrderedDict] when [ignore_missing] is set and raises
    [FileNotFoundError] with a message that quotes the path when it is not;
    for the path of a file it returns what [ordered_load] returns on the
    contents of the file, with the safe loader.  ([ignore_missing] is
    [False] when the caller leaves it out.) *)
Theorem load_missing_and_existing :
  forall fs file_path,
    (isfile fs file_path = false ->
     load fs file_path true = Returns (VOrderedDict [])
     /\ load fs file_path false
        = Raises (FileNotFoundError
                    ("Could not load config file " +:+ quoted file_path
                       +:+ ". File not found")))
    /\ (forall f ignore_missing,
          fs_files fs !! file_path = Some (TextFile f) ->
          load fs file_path ignore_missing = ordered_load fs f SafeLoader).
Proof.
  intros fs file_path. split.
  - intros Hmissing. unfold load. rewrite Hmissing. split; reflexivity.
  - intros f ignore_missing Hfile. unfold load, isfile.
    rewrite Hfile. rewrite bool_decide_eq_true_2 by eauto. reflexivity.
Qed.

(** *** The empty set (C9) *)

(** C9.  An empty frozenset is represented by an empty mapping node tagged
    [!frozenset] and written as such; the node loads as an empty frozenset,
    which is neither [None] nor an empty list, on its own and as a value of
    a document. *)
Theorem empty_frozenset_roundtrip :
  forall stream_name fs base st,
    represent_data stream_name (VFrozenset []) st
    = Returns (MappingNode TAG_FROZENSET [], st)
    /\ ordered_dump (VFrozenset []) stream_name fs
       = Returns ([RawMapping (Some TAG_FROZENSET) []], fs)
    /\ ordered_load fs [RawMapping (Some TAG_FROZENSET) []] base = Returns (VFrozenset [])
    /\ VFrozenset [] <> VNone
    /\ VFrozenset [] <> VList []
    /\ (exists stream,
          ordered_dump (VOrderedDict [(VStr "s", VFrozenset [])]) stream_name fs
          = Returns (stream, fs)
          /\ ordered_load fs stream base = Returns (VOrderedDict [(VStr "s", VFrozenset [])])).
Proof.
  intros stream_name fs base st.
  repeat split; try reflexivity; try discriminate.
  eexists. split; reflexivity.
Qed.

(** *** Evaluation of strings that start with [array(] (C2, C7) *)

Lemma bind_Returns {A B} (m : result A) (f : A -> result B) (b : B) :
  m ≫= f = Returns b -> exists a, m = Returns a /\ f a = Returns b.
Proof. destruct m as [a| |]; simpl; intros H; [eauto|discriminate..]. Qed.

Lemma string_in_In (s : string) (l : list string) : string_in s l = true <-> In s l.
Proof.
  unfold string_in. rewrite existsb_exists. split.
  - intros (x & Hx & Heq). apply String.eqb_eq in Heq. by subst.
  - intros Hin. exists s. split; [done|]. apply String.eqb_refl.
Qed.

Lemma add_dtypes_lookup (names : list string) :
  forall local ns,
    add_dtypes names local = Returns ns ->
    forall name,
      ns !! name = if string_in name names
                   then match numpy_getattr name with
                        | Returns v => Some v
                        | _ => None
                        end
                   else local !! name.
Proof.
  induction names as [|n rest IH]; intros local ns H name; simpl in *.
  - by injection H as <-.
  - apply bind_Returns in H as (v & Hv & H).
    rewrite (IH _ _ H name).
    destruct (String.eqb_spec name n) as [->|Hne]; simpl.
    + rewrite Hv. destruct (string_in n rest); [done|]. apply lookup_insert_eq.
    + destruct (string_in name rest); [done|]. by apply lookup_insert_ne.
Qed.

Lemma allow_listed_has_attribute (name : string) :
  In name allow_list -> exists obj, numpy_getattr name = Returns obj.
Proof.
  unfold allow_list, dtype_names. simpl.
  intros H. repeat (destruct H as [<-|H]; [eexists; reflexivity|]). destruct H.
Qed.

Lemma eval_namespace_lookup (ns : gmap string pyobj) :
  eval_namespace = Returns ns ->
  forall name obj,
    ns !! name = Some obj <-> In name allow_list /\ numpy_getattr name = Returns obj.
Proof.
  intros H name obj. unfold eval_namespace in H.
  rewrite (add_dtypes_lookup _ _ _ H name).
  destruct (string_in name dtype_names) eqn:Hin.
  - apply string_in_In in Hin. split.
    + destruct (numpy_getattr name); [|discriminate..].
      intros [= ->]. split; [by right|done].
    + intros [_ ->]. done.
  - rewrite lookup_singleton. case_decide as Hname.
    + subst name. split.
      * intros [= <-]. split; [by left|reflexivity].
      * intros [_ Hattr]. vm_compute in Hattr. by injection Hattr as <-.
    + split; [discriminate|]. intros [[Heq|Hd] _]; [by symmetry in Heq|].
      apply string_in_In in Hd. congruence.
Qed.

(** C7 (the code departs from the claim).  The handler of [construct_str]
    catches [SyntaxError] only.  An evaluation that fails with another
    exception does not give the string back: the exception leaves
    [construct_str] and the load, here a [NameError] for an unknown name and
    a [TypeError] for a call without arguments.  A string that does not
    parse is given back, and a string that evaluates gives the array. *)
Theorem evaluation_error_leaves_the_loader :
  construct_str (ScalarNode TAG_STR "array(foo)") = Raises (NameError "foo")
  /\ construct_str (ScalarNode TAG_STR "array()") = Raises TypeError
  /\ (forall fs base,
        ordered_load fs [RawMapping None [(RawScalar None Plain "k",
                                           RawScalar None Plain "array(foo)")]] base
        = Raises (NameError "foo"))
  /\ construct_str (ScalarNode TAG_STR "array([1, 2") = Returns (VStr "array([1, 2")
  /\ construct_str (ScalarNode TAG_STR "array([1, 2, 3])")
     = Returns (VArray {| arr_dtype := IntType int64; arr_shape := [3%nat];
                          arr_data := [EInt 1; EInt 2; EInt 3] |}).
Proof.
  repeat split; vm_compute; reflexivity.
Qed.

(** *** Duplicate keys (C10) *)

Lemma key_eqb_str (s t : string) : key_eqb (VStr s) (VStr t) = bool_decide (s = t).
Proof.
  simpl. destruct (String.eqb_spec s t).
  - by rewrite bool_decide_eq_true_2.
  - by rewrite bool_decide_eq_false_2.
Qed.

Lemma od_setitem_str d k v :
  od_setitem (str_items d) (VStr k) v = str_items (str_setitem d k v).
Proof.
  induction d as [|[k' v'] rest IH]; [done|].
  cbn [str_items map od_setitem str_setitem fst snd]. rewrite key_eqb_str.
  case_decide; [by rewrite bool_decide_eq_true_2|].
  rewrite bool_decide_eq_false_2 by done. fold (str_items rest). by rewrite IH.
Qed.

Lemma od_update_str items :
  forall d, od_update (str_items d) (str_items items) = Returns (str_items (str_update d items)).
Proof.
  induction items as [|[k v] rest IH]; intros d; [done|].
  cbn [str_items map od_update fst snd hashable]. fold (str_items rest).
  rewrite od_setitem_str. apply IH.
Qed.

Lemma str_setitem_keys d k v :
  (str_setitem d k v).*1 = if decide (k ∈ d.*1) then d.*1 else d.*1 ++ [k].
Proof.
  induction d as [|[k' v'] rest IH]; [done|].
  cbn [str_setitem]. rewrite fmap_cons. cbn [fst].
  destruct (decide (k' = k)) as [->|Hne].
  - rewrite decide_True by apply list_elem_of_here. done.
  - rewrite fmap_cons, IH. cbn [fst]. destruct (decide (k ∈ rest.*1)) as [Hin|Hnin].
    + rewrite decide_True by by apply list_elem_of_further. done.
    + rewrite decide_False; [done|]. rewrite elem_of_cons. intros [->|?]; done.
Qed.

Lemma str_update_keys items :
  forall d,
    (str_update d items).*1
    = d.*1 ++ filter (fun k => k ∉ d.*1) (first_occurrences items.*1).
Proof.
  induction items as [|[k v] rest IH]; intros d.
  - cbn. by rewrite app_nil_r.
  - unfold str_update in IH |- *. cbn [fold_left fst snd]. rewrite IH, str_setitem_keys.
    rewrite fmap_cons. cbn [first_occurrences fst].
    destruct (decide (k ∈ d.*1)) as [Hin|Hnin].
    + rewrite filter_cons_False by (intros ?; done). f_equal.
      rewrite list_filter_filter.
      apply list_filter_iff. intros x. split; [|by intros [? _]].
      intros Hx. split; [done|]. intros ->. done.
    + rewrite filter_cons_True by done. rewrite <- app_assoc. cbn [app]. do 2 f_equal.
      rewrite list_filter_filter.
      apply list_filter_iff. intros x. rewrite not_elem_of_app, list_elem_of_singleton.
      split; intros [? ?]; by split.
Qed.

Lemma filter_no_prefix (l : list string) : filter (fun k => k ∉ []) l = l.
Proof.
  induction l as [|x l IH]; [done|].
  rewrite filter_cons_True by apply not_elem_of_nil. by rewrite IH.
Qed.

Lemma first_occurrences_NoDup keys : NoDup (first_occurrences keys).
Proof.
  induction keys as [|k rest IH]; simpl; constructor.
  - rewrite list_elem_of_filter. by intros [? _].
  - by apply NoDup_filter.
Qed.

Lemma str_setitem_elem d k v t w :
  NoDup d.*1 ->
  (t, w) ∈ str_setitem d k v <-> (t = k /\ w = v) \/ (t <> k /\ (t, w) ∈ d).
Proof.
  induction d as [|[k' v'] rest IH]; intros Hnd.
  - cbn [str_setitem]. rewrite list_elem_of_singleton. split.
    + intros [= -> ->]. by left.
    + intros [[-> ->]|[_ H]]; [done|]. by apply elem_of_nil in H.
  - rewrite fmap_cons in Hnd. apply NoDup_cons in Hnd as [Hk' Hnd]. cbn [fst] in Hk'.
    cbn [str_setitem]. destruct (decide (k' = k)) as [->|Hk].
    + rewrite !elem_of_cons. split.
      * intros [[= -> ->]|Hin]; [by left|]. right. split; [|by right].
        intros ->. apply Hk'. apply list_elem_of_fmap. by exists (k, w).
      * intros [[-> ->]|[Hne [[= ? ?]|Hin]]]; [by left|done|by right].
    + rewrite !elem_of_cons, (IH Hnd). split.
      * intros [[= -> ->]|[[-> ->]|[Hne Hin]]].
        -- right. split; [done|by left].
        -- by left.
        -- right. split; [done|by right].
      * intros [[-> ->]|[Hne [[= -> ->]|Hin]]].
        -- right. by left.
        -- by left.
        -- right. right. done.
Qed.

Lemma str_setitem_NoDup d k v : NoDup d.*1 -> NoDup (str_setitem d k v).*1.
Proof.
  intros Hnd. rewrite str_setitem_keys. case_decide as Hin; [done|].
  apply NoDup_app. split_and!; [done| |apply NoDup_singleton].
  intros x Hx Hx'. apply list_elem_of_singleton in Hx'. by subst.
Qed.

Lemma str_update_elem items :
  forall d t w,
    NoDup d.*1 ->
    (t, w) ∈ str_update d items
    <-> last_binding t items = Some w \/ (last_binding t items = None /\ (t, w) ∈ d).
Proof.
  induction items as [|[k v] rest IH]; intros d t w Hnd.
  - cbn. split; [by right|]. by intros [?|[_ ?]].
  - unfold str_update in IH |- *. cbn [fold_left fst snd last_binding].
    rewrite IH by by apply str_setitem_NoDup.
    rewrite str_setitem_elem by done.
    destruct (last_binding t rest) as [x|]; [split; (intros [?|[? _]]; [by left|done])|].
    case_decide as Hk.
    + subst k. split.
      * intros [?|[_ [[_ ->]|[? _]]]]; [done|by left|done].
      * intros [[= ->]|[? _]]; [|done]. right. split; [done|by left].
    + split.
      * intros [?|[_ [[-> _]|[_ Hin]]]]; [done|done|by right].
      * intros [?|[_ Hin]]; [done|]. right. split; [done|]. right. split; [congruence|done].
Qed.

(** C10.  When the pairs of a mapping node load as items with string keys,
    [construct_mapping] returns an [OrderedDict] of those keys in which
    each key stands once, in the order in which the keys first occur, and
    is bound to the value of its last occurrence. *)
Theorem duplicate_keys_last_value_wins :
  forall loader node pairs items,
    flatten_mapping node = Returns pairs ->
    construct_pairs loader pairs = Returns (str_items items) ->
    exists d,
      construct_mapping loader node = Returns (VOrderedDict (str_items d))
      /\ d.*1 = first_occurrences items.*1
      /\ NoDup d.*1
      /\ (forall k v, (k, v) ∈ d <-> last_binding k items = Some v).
Proof.
  intros loader node pairs items Hflat Hpairs.
  exists (str_update [] items). split_and!.
  - unfold construct_mapping. rewrite Hflat. simpl. rewrite Hpairs. simpl.
    unfold OrderedDict. pose proof (od_update_str items []) as Hupd.
    change (str_items []) with (@nil (Value * Value)) in Hupd. by rewrite Hupd.
  - rewrite str_update_keys. cbn [fmap list_fmap app].
    apply filter_no_prefix.
  - rewrite str_update_keys. cbn [fmap list_fmap app]. rewrite filter_no_prefix.
    apply first_occurrences_NoDup.
  - intros k v. rewrite str_update_elem by constructor. split.
    + intros [?|[_ H]]; [done|]. by apply elem_of_nil in H.
    + by left.
Qed.

(** *** Decimal text *)

Lemma uint_text_digits (d : Decimal.uint) : all_digits (NilEmpty.string_of_uint d).
Proof. induction d; constructor; done. Qed.

Ltac eval_digit :=
  repeat match goal with
         | |- context [digit_value ?c] =>
             let v := eval vm_compute in (digit_value c) in change (digit_value c) with v
         end.

Lemma decimal_value_acc (d : Decimal.uint) :
  forall acc,
    fold_left (fun a c => 10 * a + digit_value c) (chars (NilEmpty.string_of_uint d)) (Z.pos acc)
    = Z.pos (Pos.of_uint_acc d acc).
Proof.
  induction d; intros acc;
    cbn [NilEmpty.string_of_uint chars list_ascii_of_string fold_left Pos.of_uint_acc];
    [done|fold (chars (NilEmpty.string_of_uint d)); rewrite <- IHd; f_equal; eval_digit; lia..].
Qed.

Lemma decimal_value_uint (d : Decimal.uint) :
  decimal_value (chars (NilEmpty.string_of_uint d)) = Z.of_N (Pos.of_uint d).
Proof.
  unfold decimal_value.
  induction d; cbn [NilEmpty.string_of_uint chars list_ascii_of_string fold_left Pos.of_uint];
    [done|exact IHd|eval_digit; apply (decimal_value_acc d)..].
Qed.

Lemma pos_text_head (p : positive) :
  exists c rest,
    NilZero.string_of_uint (Pos.to_uint p) = String c rest
    /\ is_digit c = true /\ c <> "0"%char /\ all_digits rest
    /\ decimal_value (c :: chars rest) = Z.pos p.
Proof.
  assert (Hval : decimal_value (chars (NilEmpty.string_of_uint (Pos.to_uint p))) = Z.pos p).
  { by rewrite decimal_value_uint, DecimalPos.Unsigned.of_to. }
  assert (Hun : Decimal.unorm (Pos.to_uint p) = Pos.to_uint p).
  { pose proof (DecimalPos.Unsigned.to_of (Pos.to_uint p)) as H.
    rewrite DecimalPos.Unsigned.of_to in H. by symmetry. }
  assert (Hnz : Decimal.nzhead (Pos.to_uint p) = Pos.to_uint p).
  { rewrite <- unorm_nzhead; [done|].
    intros H. apply unorm_0 in H. rewrite Hun in H.
    by apply Unsigned.to_uint_nonzero in H. }
  pose proof (nzhead_nonzero (Pos.to_uint p)) as Hhead. rewrite Hnz in Hhead.
  pose proof (uint_text_digits (Pos.to_uint p)) as Hdig.
  destruct (Pos.to_uint p) as [|u|u|u|u|u|u|u|u|u|u] eqn:Hu;
    [by apply Unsigned.to_uint_nonnil in Hu|by destruct (Hhead u)|..];
    cbn [NilZero.string_of_uint NilEmpty.string_of_uint] in *;
    (eexists _, _; split; [reflexivity|]; split_and!;
       [done|done|by apply Forall_cons in Hdig as [_ ?]|exact Hval]).
Qed.

Lemma all_digits_cons (c : ascii) (rest : string) :
  is_digit c = true -> all_digits rest -> all_digits (String c rest).
Proof. intros Hc Hrest. by constructor. Qed.

Lemma remove_char_digits (s : string) : all_digits s -> remove_char "_" s = s.
Proof.
  unfold all_digits. induction s as [|c s IH]; [done|]. cbn [chars list_ascii_of_string].
  intros [Hc Hs]%Forall_cons. cbn [remove_char].
  destruct (Ascii.eqb_spec c "_") as [->|_]; [done|]. by rewrite IH.
Qed.

Lemma digit_in_base_digit (c : ascii) :
  is_digit c = true ->
  digit_in_base 16 c = Some (digit_value c) /\ digit_in_base 10 c = Some (digit_value c).
Proof.
  intros Hc. unfold digit_in_base. rewrite Hc.
  assert (0 <= digit_value c < 10) as Hrange.
  { unfold is_digit, in_range in Hc. apply andb_true_iff in Hc as [H1 H2].
    apply Nat.leb_le in H1, H2. unfold digit_value.
    change (nat_of_ascii "0") with 48%nat in H1.
    change (nat_of_ascii "9") with 57%nat in H2. lia. }
  split.
  - destruct (Z.ltb_spec (digit_value c) 16); [done|lia].
  - destruct (Z.ltb_spec (digit_value c) 10); [done|lia].
Qed.

Lemma fold_digits (l : list ascii) :
  Forall (fun c => is_digit c = true) l ->
  forall z,
    fold_left (fun acc c =>
                 a ← acc;
                 match digit_in_base 16 c with
                 | None => Unmodelled
                 | Some _ =>
                     match digit_in_base 10 c with
                     | Some d => Returns (10 * a + d)
                     | None => Raises ValueError
                     end
                 end) l (Returns z)
    = Returns (fold_left (fun a c => 10 * a + digit_value c) l z).
Proof.
  induction 1 as [|x l Hx _ IH]; intros z; [done|]. cbn [fold_left].
  destruct (digit_in_base_digit x Hx) as [-> ->]. simpl. apply IH.
Qed.

Lemma int_of_base_digits (c : ascii) (rest : string) :
  is_digit c = true -> all_digits rest ->
  int_of_base 10 (String c rest) = Returns (decimal_value (c :: chars rest)).
Proof.
  intros Hc Hrest. unfold int_of_base, decimal_value.
  cbn [chars list_ascii_of_string]. apply fold_digits. by constructor.
Qed.

Lemma yaml_int_unsigned_digits (c : ascii) (rest : string) :
  is_digit c = true -> c <> "0"%char -> all_digits rest ->
  yaml_int_unsigned (String c rest) = Returns (decimal_value (c :: chars rest)).
Proof.
  intros Hc Hnz Hrest. unfold yaml_int_unsigned.
  assert (Ascii.eqb "0" c = false) as Hc0 by by apply Ascii.eqb_neq.
  cbn [String.eqb startswith]. rewrite Ascii.eqb_sym, Hc0.
  by apply int_of_base_digits.
Qed.

(** The integer constructor reads back what [str] writes. *)
Lemma construct_yaml_int_text (z : Z) : construct_yaml_int (int_text z) = Returns z.
Proof.
  destruct z as [|p|p]; [done|..]; unfold int_text; cbn [Z.to_int NilZero.string_of_int];
    destruct (pos_text_head p) as (c & rest & -> & Hc & Hnz & Hrest & Hval);
    unfold construct_yaml_int.
  - rewrite remove_char_digits by by apply all_digits_cons.
    assert (Ascii.eqb c "-" = false) as ->.
    { apply Ascii.eqb_neq. intros ->. done. }
    assert (Ascii.eqb c "+" = false) as ->.
    { apply Ascii.eqb_neq. intros ->. done. }
    cbn [orb]. rewrite yaml_int_unsigned_digits, Hval by done. simpl. done.
  - assert (Hrm : remove_char "_" (String "-" (String c rest)) = String "-" (String c rest)).
    { change (remove_char "_" (String "-" (String c rest)))
        with (String "-" (remove_char "_" (String c rest))).
      by rewrite remove_char_digits by by apply all_digits_cons. }
    rewrite Hrm. cbv beta iota zeta.
    change (Ascii.eqb "-" "-") with true. cbn [orb].
    rewrite yaml_int_unsigned_digits, Hval by done. simpl. done.
Qed.

Lemma chars_app (a b : string) : chars (a +:+ b) = chars a ++ chars b.
Proof. unfold chars. induction a as [|c a IH]; simpl; [done|by rewrite IH]. Qed.

Lemma int_text_value (n : nat) : decimal_value (chars (int_text (Z.of_nat n))) = Z.of_nat n.
Proof.
  destruct (Z.of_nat n) as [|p|p] eqn:Hn; [done| |lia].
  unfold int_text. cbn [Z.to_int NilZero.string_of_int].
  by destruct (pos_text_head p) as (c & rest & -> & _ & _ & _ & Hval).
Qed.

Lemma format_06_value (n : nat) : decimal_value (chars (format_06 n)) = Z.of_nat n.
Proof.
  unfold format_06, rjust. rewrite chars_app.
  unfold chars at 1. rewrite list_ascii_of_string_of_list_ascii.
  unfold decimal_value. rewrite fold_left_app.
  assert (Hzeros : forall k, fold_left (fun a c => 10 * a + digit_value c)
                                       (replicate k "0"%char) 0 = 0).
  { induction k as [|k IH]; [done|]. cbn. exact IH. }
  rewrite Hzeros. apply int_text_value.
Qed.

Lemma format_06_inj (m n : nat) : format_06 m = format_06 n -> m = n.
Proof.
  intros H. apply Nat2Z.inj. by rewrite <- !format_06_value, H.
Qed.

Lemma external_path_inj (name : string) (m n : nat) :
  external_path name m = external_path name n -> m = n.
Proof.
  unfold external_path. intros H.
  apply (f_equal chars) in H. rewrite !chars_app in H.
  do 2 apply app_inv_head in H. apply app_inv_tail in H.
  apply format_06_inj. rewrite <- (string_of_list_ascii_of_string (format_06 m)).
  rewrite <- (string_of_list_ascii_of_string (format_06 n)). unfold chars in H. by rewrite H.
Qed.

Lemma decimal_value_lower (l : list ascii) :
  Forall (fun c => is_digit c = true) l ->
  forall z, 0 <= z ->
    z * 10 ^ Z.of_nat (length l) <= fold_left (fun a c => 10 * a + digit_value c) l z.
Proof.
  induction 1 as [|x l Hx _ IH]; intros z Hz.
  - cbn. lia.
  - cbn [fold_left length]. destruct (digit_in_base_digit x Hx) as [_ Hd].
    assert (0 <= digit_value x).
    { unfold digit_in_base in Hd. rewrite Hx in Hd.
      unfold is_digit, in_range in Hx. apply andb_true_iff in Hx as [H1 _].
      apply Nat.leb_le in H1. change (nat_of_ascii "0") with 48%nat in H1.
      unfold digit_value. lia. }
    etrans; [|apply IH; lia].
    rewrite Nat2Z.inj_succ, Z.pow_succ_r by lia. nia.
Qed.

Lemma string_length_chars (s : string) : String.length s = length (chars s).
Proof. unfold chars. induction s as [|c s IH]; simpl; [done|by rewrite IH]. Qed.

Lemma int_text_short (n : nat) :
  (n < 10 ^ 6)%nat -> (String.length (int_text (Z.of_nat n)) <= 6)%nat.
Proof.
  intros Hn. destruct (Z.of_nat n) as [|p|p] eqn:Hp; [cbn; lia| |lia].
  unfold int_text. cbn [Z.to_int NilZero.string_of_int].
  destruct (pos_text_head p) as (c & rest & -> & Hc & Hnz & Hrest & Hval).
  cbn [String.length]. rewrite string_length_chars.
  destruct (Nat.le_gt_cases (length (chars rest)) 5) as [|Hlong]; [lia|]. exfalso.
  unfold decimal_value in Hval. cbn [fold_left] in Hval.
  assert (1 <= digit_value c) as Hc1.
  { assert (digit_value c <> 0).
    { intros H0. apply Hnz. unfold digit_value in H0.
      assert (nat_of_ascii c = 48%nat) as H48 by lia.
      rewrite <- (ascii_nat_embedding c), H48. done. }
    unfold is_digit, in_range in Hc. apply andb_true_iff in Hc as [H1 _].
    apply Nat.leb_le in H1. change (nat_of_ascii "0") with 48%nat in H1.
    unfold digit_value in *. lia. }
  pose proof (decimal_value_lower (chars rest) Hrest (10 * 0 + digit_value c) ltac:(lia)) as Hlow.
  rewrite Hval in Hlow.
  assert (10 ^ 6 <= 10 ^ Z.of_nat (length (chars rest))) as Hpow
    by (apply Z.pow_le_mono_r; lia).
  assert (Z.pos p < 10 ^ 6) as Hp6.
  { rewrite <- Hp. apply Nat2Z.inj_lt in Hn. by rewrite Nat2Z.inj_pow in Hn. }
  set (X := 10 ^ Z.of_nat (length (chars rest))) in *.
  set (Y := 10 ^ 6) in *. nia.
Qed.

Lemma format_06_length (n : nat) : (n < 10 ^ 6)%nat -> String.length (format_06 n) = 6%nat.
Proof.
  intros Hn. pose proof (int_text_short n Hn) as Hshort.
  unfold format_06, rjust. rewrite string_length_chars, chars_app, length_app.
  unfold chars at 1. rewrite list_ascii_of_string_of_list_ascii, length_replicate.
  rewrite <- string_length_chars. lia.
Qed.

(** *** What a dump writes *)

Lemma numbered_app stream_name (c n1 n2 : nat) :
  numbered stream_name c (n1 + n2)
  = numbered stream_name c n1 ++ numbered stream_name (c + n1) n2.
Proof. destruct stream_name as [name|]; [|done]. cbn. by rewrite seq_app, map_app. Qed.

Lemma numbered_disjoint stream_name (c n1 n2 : nat) (p : string) :
  p ∈ numbered stream_name c n1 -> p ∉ numbered stream_name (c + n1) n2.
Proof.
  destruct stream_name as [name|]; cbn [numbered]; [|by intros ?%elem_of_nil].
  intros (k & Hp & Hk)%list_elem_of_fmap (k' & Heq & Hk')%list_elem_of_fmap.
  rewrite Hp in Heq. apply external_path_inj in Heq. subst k'.
  apply list_elem_of_In, in_seq in Hk. apply list_elem_of_In, in_seq in Hk'. lia.
Qed.

Lemma wrote_refl stream_name st : wrote stream_name st st [].
Proof.
  split; cbn; [by destruct stream_name|lia|done|done].
Qed.

Lemma wrote_trans stream_name st0 st1 st2 p1 p2 :
  wrote stream_name st0 st1 p1 -> wrote stream_name st1 st2 p2 ->
  wrote stream_name st0 st2 (p1 ++ p2).
Proof.
  intros [Hp1 Hc1 Hw1 Hf1] [Hp2 Hc2 Hw2 Hf2]. split.
  - rewrite length_app, numbered_app, <- Hc1, <- Hp1, <- Hp2. done.
  - rewrite length_app. lia.
  - congruence.
  - intros p [H1 H2]%not_elem_of_app. by rewrite Hf2, Hf1.
Qed.

(** Files written by a step stay as they are through the steps after it. *)
Lemma wrote_kept stream_name st0 st1 st2 p1 p2 :
  wrote stream_name st0 st1 p1 -> wrote stream_name st1 st2 p2 ->
  same_files p1 (dumper_fs st2) (dumper_fs st1).
Proof.
  intros [Hp1 Hc1 _ _] [Hp2 _ _ Hf2] p Hp. apply Hf2.
  rewrite Hp2, Hc1. rewrite Hp1 in Hp. by apply numbered_disjoint.
Qed.

Lemma thread_wrote {A B} stream_name (f : A -> dumper_state -> result (B * dumper_state))
    (ext : B -> list string) (l : list A) :
  Forall (fun x => forall st y st', f x st = Returns (y, st') -> wrote stream_name st st' (ext y))
         l ->
  forall st ys st',
    thread f l st = Returns (ys, st') -> wrote stream_name st st' (concat (map ext ys)).
Proof.
  induction 1 as [|x rest Hx _ IH]; intros st ys st' H; cbn [thread] in H.
  - injection H as <- <-. apply wrote_refl.
  - apply bind_Returns in H as ([y st1] & Hy & H).
    apply bind_Returns in H as ([ys' st2] & Hys & H). injection H as <- <-.
    cbn [map concat]. eapply wrote_trans; [by eapply Hx|by eapply IH].
Qed.

Lemma represent_ndarray_wrote stream_name data st node st' :
  represent_ndarray stream_name data st = Returns (node, st') ->
  wrote stream_name st st' (external_nodes node).
Proof.
  unfold represent_ndarray, fs_write.
  destruct stream_name as [name|]; cbn; [|intros [= <- <-]; apply wrote_refl].
  destruct (fs_writable _ _); cbn; intros [= <- <-]; [|apply wrote_refl].
  destruct st as [c fs]. split; cbn; [done|lia|done|].
  intros p Hp. apply lookup_insert_ne. intros <-. apply Hp, list_elem_of_here.
Qed.

Lemma represent_data_wrote stream_name (data : Value) :
  forall st node st',
    represent_data stream_name data st = Returns (node, st') ->
    wrote stream_name st st' (external_nodes node).
Proof.
  induction data as [| | | | | | |items IH|items IH|elements IH|a] using Value_nested_ind;
    intros st node st' H; cbn [represent_data] in H;
    unfold represent_none, represent_int, represent_float in H;
    try (injection H as <- <-; apply wrote_refl).
  - unfold represent_sequence in H.
    apply bind_Returns in H as ([ns st1] & Hth & H). injection H as <- <-.
    exact (thread_wrote stream_name _ external_nodes items IH _ _ _ Hth).
  - unfold represent_ordereddict, represent_mapping in H.
    apply bind_Returns in H as ([ns st1] & Hth & H). injection H as <- <-.
    refine (thread_wrote stream_name _
              (fun kv : Node * Node => external_nodes kv.1 ++ external_nodes kv.2)
              items _ _ _ _ Hth).
    eapply Forall_impl; [exact IH|]. intros [k v] [Hk Hv] st0 [nk nv] st2 Hitem.
    unfold represent_item in Hitem.
    apply bind_Returns in Hitem as ([nk' st1'] & Hnk & Hitem).
    apply bind_Returns in Hitem as ([nv' st2'] & Hnv & Hitem). injection Hitem as <- <- <-.
    eapply wrote_trans; [by eapply Hk|by eapply Hv].
  - unfold represent_frozenset, represent_set in H.
    apply bind_Returns in H as ([n1 st1] & H1 & H). injection H as <- <-.
    apply bind_Returns in H1 as ([ns st2] & Hth & H1). injection H1 as <- <-.
    refine (thread_wrote stream_name _
              (fun kv : Node * Node => external_nodes kv.1 ++ external_nodes kv.2)
              elements _ _ _ _ Hth).
    eapply Forall_impl; [exact IH|]. intros k Hk st0 [nk nv] st3 Hitem.
    unfold represent_element, represent_none in Hitem.
    apply bind_Returns in Hitem as ([nk' st1'] & Hnk & Hitem). injection Hitem as <- <- <-.
    cbn [fst snd external_nodes String.eqb]. rewrite app_nil_r. by eapply Hk.
  - by eapply represent_ndarray_wrote.
Qed.

(** *** What is written is composed as it was represented *)

Section Node_induction.

Variable P : Node -> Prop.
Hypothesis HScalar : forall tag value, P (ScalarNode tag value).
Hypothesis HSequence : forall tag items, Forall P items -> P (SequenceNode tag items).
Hypothesis HMapping :
  forall tag pairs, Forall (fun kv => P kv.1 /\ P kv.2) pairs -> P (MappingNode tag pairs).

Fixpoint Node_nested_ind (n : Node) : P n :=
  match n with
  | ScalarNode tag value => HScalar tag value
  | SequenceNode tag items =>
      HSequence tag items
        ((fix go (l : list Node) : Forall P l :=
            match l with
            | [] => List.Forall_nil P
            | x :: r => List.Forall_cons _ x r (Node_nested_ind x) (go r)
            end) items)
  | MappingNode tag pairs =>
      HMapping tag pairs
        ((fix go (l : list (Node * Node)) : Forall (fun kv => P kv.1 /\ P kv.2) l :=
            match l with
            | [] => List.Forall_nil _
            | kv :: r =>
                List.Forall_cons _ kv r
                  (conj (Node_nested_ind kv.1) (Node_nested_ind kv.2)) (go r)
            end) pairs)
  end.

End Node_induction.

Lemma compose_serialize_tree (n : Node) : compose_node (serialize_tree n) = n.
Proof.
  induction n as [tag value|tag items IH|tag pairs IH] using Node_nested_ind;
    cbn [serialize_tree].
  - destruct (String.eqb_spec (resolve_plain value) tag) as [<-|_]; [done|].
    destruct (String.eqb_spec tag DEFAULT_SCALAR_TAG) as [->|_]; done.
  - cbn [compose_node]. f_equal.
    + destruct (String.eqb_spec tag DEFAULT_SEQUENCE_TAG) as [->|_]; done.
    + rewrite map_map. induction IH as [|x r Hx _ IHr]; [done|]. cbn. by rewrite Hx, IHr.
  - cbn [compose_node]. f_equal.
    + destruct (String.eqb_spec tag DEFAULT_MAPPING_TAG) as [->|_]; done.
    + rewrite map_map. induction IH as [|[k v] r [Hk Hv] _ IHr]; [done|].
      cbn in *. by rewrite Hk, Hv, IHr.
Qed.

(** The document of a node whose keys are scalars is read as the node. *)
Lemma get_single_serialize (n : Node) :
  scalar_keys n = true -> get_single_node [serialize_node n] = Returns (Some n).
Proof.
  intros Hkeys. unfold serialize_node. rewrite Hkeys.
  rewrite <- (compose_serialize_tree n) at 2.
  destruct n as [tag value|tag items|tag pairs]; cbn [serialize_tree]; [|done..].
  destruct (String.eqb _ tag); [done|]. by destruct (String.eqb tag _).
Qed.

Lemma thread_Forall {A B S} (f : A -> S -> result (B * S)) (P : B -> Prop) (l : list A) :
  Forall (fun x => forall st y st', f x st = Returns (y, st') -> P y) l ->
  forall st ys st', thread f l st = Returns (ys, st') -> Forall P ys.
Proof.
  induction 1 as [|x rest Hx _ IH]; intros st ys st' H; cbn [thread] in H.
  - injection H as <- <-. constructor.
  - destruct (f x st) as [[y st1]| |] eqn:Hy; [|discriminate..]. cbn [mbind result_bind] in H.
    destruct (thread f rest st1) as [[ys' st2]| |] eqn:Hys; [|discriminate..].
    cbn [mbind result_bind] in H. injection H as <- <-.
    constructor; [by eapply Hx|by eapply IH].
Qed.

(** *** The constructors on the nodes that the dumper writes *)

Lemma construct_null base fs fuel text :
  construct_object base fs (S fuel) (ScalarNode TAG_NULL text) = Returns VNone.
Proof. reflexivity. Qed.

Lemma construct_bool base fs fuel text :
  construct_object base fs (S fuel) (ScalarNode TAG_BOOL text)
  = b ← construct_yaml_bool text; Returns (VBool b).
Proof. reflexivity. Qed.

Lemma construct_int base fs fuel text :
  construct_object base fs (S fuel) (ScalarNode TAG_INT text)
  = z ← construct_yaml_int text; Returns (VInt z).
Proof. reflexivity. Qed.

Lemma construct_float base fs fuel text :
  construct_object base fs (S fuel) (ScalarNode TAG_FLOAT text)
  = f ← float_value text; Returns (VFloat f).
Proof. reflexivity. Qed.

Lemma construct_text base fs fuel text :
  construct_object base fs (S fuel) (ScalarNode TAG_STR text) = construct_str_value text.
Proof. reflexivity. Qed.

Lemma construct_inline base fs fuel text :
  construct_object base fs (S fuel) (ScalarNode TAG_NDARRAY text)
  = construct_ndarray (ScalarNode TAG_NDARRAY text).
Proof. reflexivity. Qed.

Lemma construct_external base fs fuel text :
  construct_object base fs (S fuel) (ScalarNode TAG_EXTNDARRAY text)
  = construct_external_ndarray fs (ScalarNode TAG_EXTNDARRAY text).
Proof. reflexivity. Qed.

Lemma construct_seq base fs fuel items :
  construct_object base fs (S fuel) (SequenceNode TAG_SEQ items)
  = vs ← for_each (construct_object base fs fuel) items; Returns (VList vs).
Proof. reflexivity. Qed.

Lemma construct_map base fs fuel pairs :
  construct_object base fs (S fuel) (MappingNode TAG_MAP pairs)
  = construct_mapping (construct_object base fs fuel) (MappingNode TAG_MAP pairs).
Proof. reflexivity. Qed.

Lemma construct_set base fs fuel pairs :
  construct_object base fs (S fuel) (MappingNode TAG_FROZENSET pairs)
  = construct_frozenset (construct_object base fs fuel) (MappingNode TAG_FROZENSET pairs).
Proof. reflexivity. Qed.

Lemma construct_str_plain (s : string) :
  startswith "array(" s = false -> construct_str_value s = Returns (VStr s).
Proof. intros H. unfold construct_str_value, construct_str_lookups. by rewrite H. Qed.

Lemma construct_bool_text (b : bool) : construct_yaml_bool (bool_text b) = Returns b.
Proof. by destruct b. Qed.

Lemma for_each_Forall2 {A B C} (f : B -> result C) (g : A -> C) (xs : list A) (ys : list B) :
  Forall2 (fun x y => f y = Returns (g x)) xs ys -> for_each f ys = Returns (map g xs).
Proof.
  induction 1 as [|x y xs ys Hxy _ IH]; [done|]. cbn. by rewrite Hxy, IH.
Qed.

Lemma forallb_Forall {A} (f : A -> bool) (l : list A) :
  forallb f l = true <-> Forall (fun x => f x = true) l.
Proof.
  induction l as [|x l IH]; cbn; [by split; [constructor|]|].
  rewrite andb_true_iff, IH, Forall_cons. done.
Qed.

Lemma height_item tag items x :
  x ∈ items -> (node_height x < node_height (SequenceNode tag items))%nat.
Proof.
  cbn [node_height]. induction 1 as [y l|y z l _ IH]; cbn [foldr]; lia.
Qed.

Lemma height_pair tag pairs kv :
  kv ∈ pairs ->
  (node_height kv.1 < node_height (MappingNode tag pairs))%nat
  /\ (node_height kv.2 < node_height (MappingNode tag pairs))%nat.
Proof.
  cbn [node_height]. induction 1 as [y l|y z l _ IH]; cbn [foldr]; lia.
Qed.

Lemma node_height_pos (n : Node) : (1 <= node_height n)%nat.
Proof. destruct n; cbn [node_height]; lia. Qed.

(** *** Mappings without merge keys, distinct keys *)

Lemma flatten_plain tag (pairs : list (Node * Node)) :
  Forall (fun kv => node_tag kv.1 <> TAG_MERGE /\ node_tag kv.1 <> TAG_VALUE) pairs ->
  flatten_mapping (MappingNode tag pairs) = Returns pairs.
Proof.
  intros Hkeys. cbn [flatten_mapping].
  match goal with
  | |- context [mbind _ (?go pairs)] =>
      assert (Hgo : go pairs = Returns ([], pairs)); [|by rewrite Hgo]
  end.
  induction Hkeys as [|[k v] r [Hm Hv] _ IH]; [done|]. cbn [fst] in Hm, Hv.
  destruct (String.eqb_spec (node_tag k) TAG_MERGE) as [|_]; [done|].
  rewrite IH. cbn.
  destruct (String.eqb_spec (node_tag k) TAG_VALUE) as [|_]; done.
Qed.

Lemma forallb_fmap {A B} (f : A -> B) (p : B -> bool) (l : list A) :
  forallb p (map f l) = forallb (fun x => p (f x)) l.
Proof. induction l as [|x l IH]; [done|]. cbn. by rewrite IH. Qed.

Lemma existsb_fmap {A B} (f : A -> B) (p : B -> bool) (l : list A) :
  existsb p (map f l) = existsb (fun x => p (f x)) l.
Proof. induction l as [|x l IH]; [done|]. cbn. by rewrite IH. Qed.

Lemma forallb_pointwise {A} (p q : A -> bool) (l : list A) :
  Forall (fun x => p x = q x) l -> forallb p l = forallb q l.
Proof. induction 1 as [|x l Hx _ IH]; [done|]. cbn. by rewrite Hx, IH. Qed.

Lemma existsb_pointwise {A} (p q : A -> bool) (l : list A) :
  Forall (fun x => p x = q x) l -> existsb p l = existsb q l.
Proof. induction 1 as [|x l Hx _ IH]; [done|]. cbn. by rewrite Hx, IH. Qed.

Lemma number_of_widen (v : Value) : number_of (widen v) = number_of v.
Proof. by destruct v. Qed.

Lemma key_eqb_widen (a : Value) : forall w, key_eqb (widen a) (widen w) = key_eqb a w.
Proof.
  induction a as [| | | | | | |items IH|items IH|elements IH|arr] using Value_nested_ind;
    intros w; destruct w; try reflexivity.
  cbn [widen key_eqb number_of]. f_equal.
  - rewrite forallb_fmap. apply forallb_pointwise.
    eapply Forall_impl; [exact IH|]. intros x Hx. cbn.
    rewrite existsb_fmap. apply existsb_pointwise. apply Forall_forall. intros y _. apply Hx.
  - rewrite forallb_fmap. apply forallb_pointwise. apply Forall_forall. intros y _. cbn.
    rewrite existsb_fmap. apply existsb_pointwise.
    eapply Forall_impl; [exact IH|]. intros x Hx. apply Hx.
Qed.

Lemma hashable_widen (v : Value) : hashable (widen v) = hashable v.
Proof.
  induction v as [| | | | | | |items IH|items IH|elements IH|arr] using Value_nested_ind;
    try reflexivity.
  cbn [widen hashable]. rewrite forallb_fmap. by apply forallb_pointwise.
Qed.

Lemma distinct_keys_widen (keys : list Value) :
  distinct_keys (map widen keys) = distinct_keys keys.
Proof.
  induction keys as [|k rest IH]; [done|]. cbn [map distinct_keys]. rewrite IH. f_equal.
  rewrite forallb_fmap. apply forallb_pointwise. apply Forall_forall. intros x _. cbn.
  by rewrite key_eqb_widen.
Qed.

(** A key that equals none of the keys of a dictionary goes to its end. *)
Lemma od_setitem_new (d : list (Value * Value)) (k v : Value) :
  Forall (fun kv => key_eqb kv.1 k = false) d -> od_setitem d k v = d ++ [(k, v)].
Proof.
  induction 1 as [|[k' v'] r Hk _ IH]; [done|]. cbn [od_setitem app]. cbn in Hk.
  by rewrite Hk, IH.
Qed.

Lemma distinct_keys_snoc (keys : list Value) (k : Value) (rest : list Value) :
  distinct_keys (keys ++ k :: rest) = true ->
  Forall (fun k' => key_eqb k' k = false) keys.
Proof.
  induction keys as [|k' keys IH]; [constructor|]. cbn [app distinct_keys].
  intros [Hk' Hrest]%andb_true_iff. constructor; [|by apply IH].
  apply forallb_Forall in Hk'. rewrite Forall_app, Forall_cons in Hk'.
  destruct Hk' as (_ & Hk & _). by apply negb_true_iff.
Qed.

Lemma update_distinct (error : exn) (kvs : list (Value * Value)) :
  forall d,
    forallb hashable (map fst kvs) = true ->
    distinct_keys (map fst d ++ map fst kvs) = true ->
    (fix go (d : list (Value * Value)) (pairs : list (Value * Value))
       : result (list (Value * Value)) :=
       match pairs with
       | [] => Returns d
       | (k, v) :: rest => if hashable k then go (od_setitem d k v) rest else Raises error
       end) d kvs = Returns (d ++ kvs).
Proof.
  induction kvs as [|[k v] rest IH]; intros d Hhash Hdist.
  - by rewrite app_nil_r.
  - cbn [map fst forallb] in Hhash, Hdist. apply andb_true_iff in Hhash as [Hk Hrest].
    rewrite Hk. rewrite od_setitem_new.
    + rewrite IH; [by rewrite <- app_assoc|done|].
      by rewrite map_app, <- app_assoc.
    + apply distinct_keys_snoc in Hdist. rewrite Forall_forall in Hdist.
      apply Forall_forall. intros kv Hkv. apply Hdist.
      apply list_elem_of_In, in_map. by apply list_elem_of_In.
Qed.

Lemma OrderedDict_distinct (kvs : list (Value * Value)) :
  forallb hashable (map fst kvs) = true ->
  distinct_keys (map fst kvs) = true ->
  OrderedDict kvs = Returns kvs.
Proof. intros Hh Hd. exact (update_distinct TypeError kvs [] Hh Hd). Qed.

Lemma dict_update_distinct_from (kvs : list (Value * Value)) :
  forall d,
    forallb hashable (map fst kvs) = true ->
    distinct_keys (map fst d ++ map fst kvs) = true ->
    dict_update d kvs = Returns (d ++ kvs).
Proof.
  induction kvs as [|[k v] rest IH]; intros d Hhash Hdist; cbn [dict_update].
  - by rewrite app_nil_r.
  - cbn [map fst forallb] in Hhash, Hdist. apply andb_true_iff in Hhash as [Hk Hrest].
    assert (Hnew : Forall (fun kv : Value * Value => key_eqb kv.1 k = false) d).
    { apply distinct_keys_snoc in Hdist. rewrite Forall_forall in Hdist.
      apply Forall_forall. intros kv Hkv. apply Hdist.
      apply list_elem_of_In, in_map. by apply list_elem_of_In. }
    assert (is_list k = false) as -> by by destruct k.
    rewrite Hk. cbn [negb].
    assert (existsb (fun kv : Value * Value => key_eqb kv.1 k) d = false) as ->.
    { apply not_true_is_false. intros (kv & Hkv & Heq)%existsb_exists.
      rewrite Forall_forall in Hnew. apply list_elem_of_In in Hkv.
      by rewrite (Hnew kv Hkv) in Heq. }
    rewrite od_setitem_new by done.
    rewrite IH; [by rewrite <- app_assoc|done|].
    by rewrite map_app, <- app_assoc.
Qed.

Lemma dict_update_distinct (kvs : list (Value * Value)) :
  forallb hashable (map fst kvs) = true ->
  distinct_keys (map fst kvs) = true ->
  dict_update [] kvs = Returns kvs.
Proof. intros Hh Hd. exact (dict_update_distinct_from kvs [] Hh Hd). Qed.

(** *** The resolver (C1) *)











(** *** What is dumped loads back *)

Lemma faithful_each (items : list Value) :
  fold_right (fun x rest => faithful x /\ rest) True items <-> Forall faithful items.
Proof.
  induction items as [|x l IH]; cbn [fold_right]; [by split; [constructor|]|].
  by rewrite IH, Forall_cons.
Qed.

Lemma faithful_each_item (items : list (Value * Value)) :
  fold_right (fun kv rest => (faithful kv.1 /\ faithful kv.2) /\ rest) True items
  <-> Forall (fun kv => faithful kv.1 /\ faithful kv.2) items.
Proof.
  induction items as [|x l IH]; cbn [fold_right]; [by split; [constructor|]|].
  by rewrite IH, Forall_cons.
Qed.

Lemma Forall2_impl_elem {A B} (P Q : A -> B -> Prop) (xs : list A) (ys : list B) :
  Forall2 P xs ys ->
  (forall x y, y ∈ ys -> P x y -> Q x y) ->
  Forall2 Q xs ys.
Proof.
  induction 1 as [|x y xs ys Hxy _ IH]; intros Himpl; constructor.
  - apply Himpl; [apply list_elem_of_here|done].
  - apply IH. intros x' y' Hy'. apply Himpl. by apply list_elem_of_further.
Qed.

Lemma Forall2_right {A B} (P : A -> B -> Prop) (Q : B -> Prop) (xs : list A) (ys : list B) :
  Forall2 P xs ys -> (forall x y, P x y -> Q y) -> Forall Q ys.
Proof. induction 1; intros Himpl; constructor; eauto. Qed.

Lemma is_scalar_hashable (v : Value) : is_scalar v = true -> hashable v = true.
Proof. by destruct v. Qed.

(** The node of a hashable value is neither a merge key nor a [=] key. *)
Lemma represent_data_key_tag stream_name (data : Value) st node st' :
  hashable data = true ->
  represent_data stream_name data st = Returns (node, st') ->
  node_tag node <> TAG_MERGE /\ node_tag node <> TAG_VALUE.
Proof.
  intros Hh H. destruct data; try discriminate Hh; cbn [represent_data] in H;
    unfold represent_none, represent_int, represent_float in H;
    try (injection H as <- <-; split; discriminate).
  unfold represent_frozenset, represent_set in H.
  apply bind_Returns in H as ([n1 st1] & H1 & H). injection H as <- <-.
  apply bind_Returns in H1 as ([ns st2] & _ & H1). injection H1 as <- <-.
  split; discriminate.
Qed.

Lemma thread_loads {A B} stream_name (f : A -> dumper_state -> result (B * dumper_state))
    (ext : B -> list string) (Q : A -> B -> filesystem -> Prop) (l : list A) :
  Forall (fun x => forall st y st',
              f x st = Returns (y, st') ->
              wrote stream_name st st' (ext y)
              /\ forall fs, same_files (ext y) fs (dumper_fs st') -> Q x y fs) l ->
  forall st ys st',
    thread f l st = Returns (ys, st') ->
    forall fs,
      same_files (concat (map ext ys)) fs (dumper_fs st') ->
      Forall2 (fun x y => Q x y fs) l ys.
Proof.
  intros Hall. induction Hall as [|x rest Hx Hrest IH]; intros st ys st' H fs Hfs;
    cbn [thread] in H.
  - injection H as <- <-. constructor.
  - apply bind_Returns in H as ([y st1] & Hy & H).
    apply bind_Returns in H as ([ys' st2] & Hys & H). injection H as <- <-.
    destruct (Hx _ _ _ Hy) as [Hw Hq].
    assert (Hw' : wrote stream_name st1 st2 (concat (map ext ys'))).
    { eapply thread_wrote; [|exact Hys].
      eapply Forall_impl; [exact Hrest|]. intros a Ha s0 b s1 Hf. by apply Ha. }
    cbn [map concat] in Hfs. constructor.
    + apply Hq. intros p Hp. rewrite Hfs by (apply elem_of_app; by left).
      by apply (wrote_kept _ _ _ _ _ _ Hw Hw').
    + eapply IH; [exact Hys|]. intros p Hp. apply Hfs. apply elem_of_app. by right.
Qed.

Ltac need_fuel fuel Hfuel :=
  destruct fuel as [|fuel]; [cbn [node_height] in Hfuel; lia|].

Lemma represent_data_loads stream_name base (data : Value) :
  supported data = true -> faithful data ->
  forall st node st',
    represent_data stream_name data st = Returns (node, st') ->
    forall fs,
      same_files (external_nodes node) fs (dumper_fs st') ->
      loads_back base fs node (widen data).
Proof.
  induction data as [|b|z|f|s|d z|d f|items IH|items IH|elements IH|a] using Value_nested_ind;
    intros Hs Hf st node st' H fs Hfs fuel Hfuel; cbn [represent_data] in H;
    unfold represent_none, represent_int, represent_float in H.
  - injection H as <- <-. need_fuel fuel Hfuel. reflexivity.
  - injection H as <- <-. need_fuel fuel Hfuel.
    rewrite construct_bool, construct_bool_text. reflexivity.
  - injection H as <- <-. need_fuel fuel Hfuel.
    rewrite construct_int, construct_yaml_int_text. reflexivity.
  - injection H as <- <-. need_fuel fuel Hfuel.
    cbn [faithful] in Hf. rewrite construct_float, Hf. reflexivity.
  - injection H as <- <-. need_fuel fuel Hfuel.
    cbn [supported] in Hs. apply negb_true_iff in Hs.
    rewrite construct_text. by apply construct_str_plain.
  - injection H as <- <-. need_fuel fuel Hfuel.
    rewrite construct_int, construct_yaml_int_text. reflexivity.
  - injection H as <- <-. need_fuel fuel Hfuel.
    cbn [faithful] in Hf. rewrite construct_float, Hf. reflexivity.
  - (* sequences *)
    cbn [supported] in Hs. apply forallb_Forall in Hs.
    cbn [faithful] in Hf. apply faithful_each in Hf.
    unfold represent_sequence in H.
    apply bind_Returns in H as ([ns st1] & Hth & H). injection H as <- <-.
    assert (Hloads : Forall2 (fun x y => loads_back base fs y (widen x)) items ns).
    { refine (thread_loads stream_name _ external_nodes
                (fun x y fs => loads_back base fs y (widen x)) items _ _ _ _ Hth fs Hfs).
      rewrite Forall_forall in IH, Hs, Hf. apply Forall_forall. intros x Hx st0 y st2 Hy.
      split; [by eapply represent_data_wrote|]. intros fs0 Hfs0.
      eapply IH; eauto. }
    need_fuel fuel Hfuel. rewrite construct_seq.
    rewrite (for_each_Forall2 _ widen items ns); [done|].
    eapply Forall2_impl_elem; [exact Hloads|]. intros x y Hy Hxy. apply Hxy.
    pose proof (height_item TAG_SEQ ns y Hy). lia.
  - (* mappings *)
    cbn [supported] in Hs. apply andb_true_iff in Hs as [Hs Hdist].
    apply forallb_Forall in Hs.
    cbn [faithful] in Hf. apply faithful_each_item in Hf.
    unfold represent_ordereddict, represent_mapping in H.
    apply bind_Returns in H as ([ns st1] & Hth & H). injection H as <- <-.
    set (Q := fun (kv : Value * Value) (y : Node * Node) (fs : filesystem) =>
                (exists s, kv.1 = VStr s /\ y.1 = ScalarNode TAG_STR s
                           /\ startswith "array(" s = false)
                /\ loads_back base fs y.2 (widen kv.2)).
    assert (Hloads : Forall2 (fun kv y => Q kv y fs) items ns).
    { refine (thread_loads stream_name _
                (fun kv : Node * Node => external_nodes kv.1 ++ external_nodes kv.2)
                Q items _ _ _ _ Hth fs Hfs).
      rewrite Forall_forall in IH, Hs, Hf. apply Forall_forall.
      intros [k v] Hkv st0 [nk nv] st2 Hitem.
      destruct (IH _ Hkv) as [_ IHv]. destruct (Hf _ Hkv) as [_ Hfv].
      specialize (Hs _ Hkv). cbn [fst snd] in *.
      apply andb_true_iff in Hs as [Hk Hv].
      destruct k; try discriminate Hk. cbn [is_plain_str] in Hk. apply negb_true_iff in Hk.
      unfold represent_item in Hitem. cbn [fst snd represent_data] in Hitem.
      cbn [mbind result_bind] in Hitem.
      apply bind_Returns in Hitem as ([nv' st2'] & Hnv & Hitem). injection Hitem as <- <- <-.
      cbn [fst snd external_nodes String.eqb Ascii.eqb Bool.eqb app].
      split; [by eapply represent_data_wrote|]. intros fs0 Hfs0. split; [by eauto|].
      eapply IHv; eauto. }
    need_fuel fuel Hfuel. rewrite construct_map. unfold construct_mapping.
    rewrite flatten_plain; cycle 1.
    { eapply Forall2_right; [exact Hloads|]. intros kv y [(s0 & _ & -> & _) _].
      split; discriminate. }
    cbn [mbind result_bind]. unfold construct_pairs.
    rewrite (for_each_Forall2 _ (fun kv => (widen kv.1, widen kv.2)) items ns); cycle 1.
    { eapply Forall2_impl_elem; [exact Hloads|].
      intros [k v] [nk nv] Hy [(s0 & Hk & Hnk & Hplain) Hv]. cbn [fst snd] in *. subst k nk.
      destruct (height_pair DEFAULT_MAPPING_TAG ns _ Hy) as [Hh1 Hh2]. cbn [fst snd] in Hh1, Hh2.
      assert (exists fuel', fuel = S fuel') as [fuel' ->].
      { destruct fuel; [|eauto].
        pose proof (node_height_pos (ScalarNode TAG_STR s0)). lia. }
      rewrite construct_text, (construct_str_plain _ Hplain). cbn [mbind result_bind].
      rewrite Hv by lia. reflexivity. }
    cbn [mbind result_bind]. rewrite OrderedDict_distinct; [done| |].
    + rewrite map_map. cbn [fst]. rewrite forallb_fmap. apply forallb_Forall.
      eapply Forall_impl; [exact Hs|]. intros [k v] [Hk _]%andb_true_iff. cbn [fst] in *.
      by destruct k.
    + rewrite map_map. cbn [fst].
      rewrite <- (map_map fst widen), distinct_keys_widen. exact Hdist.
  - (* sets *)
    cbn [supported] in Hs. apply andb_true_iff in Hs as [Hs Hdist].
    apply forallb_Forall in Hs.
    cbn [faithful] in Hf. apply faithful_each in Hf.
    unfold represent_frozenset, represent_set in H.
    apply bind_Returns in H as ([n1 st1] & H1 & H). injection H as <- <-.
    apply bind_Returns in H1 as ([ns st2] & Hth & H1). injection H1 as <- <-.
    cbn [set_tag external_nodes] in *.
    set (Q := fun (k : Value) (y : Node * Node) (fs : filesystem) =>
                loads_back base fs y.1 (widen k)
                /\ y.2 = ScalarNode TAG_NULL "null"
                /\ node_tag y.1 <> TAG_MERGE /\ node_tag y.1 <> TAG_VALUE).
    assert (Hloads : Forall2 (fun k y => Q k y fs) elements ns).
    { refine (thread_loads stream_name _
                (fun kv : Node * Node => external_nodes kv.1 ++ external_nodes kv.2)
                Q elements _ _ _ _ Hth fs Hfs).
      rewrite Forall_forall in IH, Hs, Hf. apply Forall_forall.
      intros k Hk st0 [nk nv] st3 Hitem.
      specialize (Hs _ Hk). apply andb_true_iff in Hs as [Hhash Hsup].
      apply is_scalar_hashable in Hhash.
      unfold represent_element, represent_none in Hitem.
      apply bind_Returns in Hitem as ([nk' st1'] & Hnk & Hitem). injection Hitem as <- <- <-.
      cbn [fst snd external_nodes String.eqb Ascii.eqb Bool.eqb]. rewrite app_nil_r.
      split; [by eapply represent_data_wrote|]. intros fs0 Hfs0.
      split; [eapply IH; eauto|].
      split; [done|]. by eapply represent_data_key_tag. }
    need_fuel fuel Hfuel. rewrite construct_set.
    unfold construct_frozenset, construct_yaml_set.
    rewrite flatten_plain; cycle 1.
    { eapply Forall2_right; [exact Hloads|]. intros k y (_ & _ & Hm & Hv). done. }
    cbn [mbind result_bind]. unfold construct_pairs.
    rewrite (for_each_Forall2 _ (fun k => (widen k, VNone)) elements ns); cycle 1.
    { eapply Forall2_impl_elem; [exact Hloads|].
      intros k [nk nv] Hy (Hk & Hnv & _). cbn [fst snd] in *. subst nv.
      destruct (height_pair TAG_FROZENSET ns _ Hy) as [Hh1 Hh2]. cbn [fst snd] in Hh1, Hh2.
      rewrite Hk by lia. cbn [mbind result_bind].
      assert (exists fuel', fuel = S fuel') as [fuel' ->].
      { destruct fuel; [|eauto].
        pose proof (node_height_pos (ScalarNode TAG_NULL "null")). lia. }
      rewrite construct_null. reflexivity. }
    cbn [mbind result_bind]. rewrite dict_update_distinct.
    + cbn [mbind result_bind widen]. by rewrite map_map.
    + rewrite map_map. cbn [fst]. rewrite forallb_fmap. apply forallb_Forall.
      eapply Forall_impl; [exact Hs|]. intros k [Hk _]%andb_true_iff.
      rewrite hashable_widen. by apply is_scalar_hashable.
    + rewrite map_map. cbn [fst]. by rewrite distinct_keys_widen.
  - (* arrays *)
    cbn [faithful] in Hf. destruct Hf as [Hload Hdecode].
    unfold represent_ndarray, fs_write in H.
    destruct stream_name as [name|]; cbn in H.
    + destruct (fs_writable _ _); cbn in H; injection H as <- <-.
      * need_fuel fuel Hfuel. rewrite construct_external.
        unfold construct_external_ndarray, fs_read. cbn [construct_scalar mbind result_bind].
        rewrite Hfs by (cbn; apply list_elem_of_here). cbn [dumper_fs fs_files].
        rewrite lookup_insert_eq. cbn [mbind result_bind]. by rewrite Hload.
      * need_fuel fuel Hfuel. rewrite construct_inline.
        unfold construct_ndarray, construct_yaml_binary. cbn [construct_scalar mbind result_bind].
        rewrite Hdecode. cbn [mbind result_bind]. by rewrite Hload.
    + injection H as <- <-. need_fuel fuel Hfuel. rewrite construct_inline.
      unfold construct_ndarray, construct_yaml_binary. cbn [construct_scalar mbind result_bind].
      rewrite Hdecode. cbn [mbind result_bind]. by rewrite Hload.
Qed.

Lemma arrays_of_widen (v : Value) : arrays_of (widen v) = arrays_of v.
Proof.
  induction v as [| | | | | | |items IH|items IH|elements IH|a] using Value_nested_ind;
    try reflexivity; cbn [widen arrays_of]; f_equal; rewrite map_map.
  - induction IH as [|x l Hx _ IHl]; [done|]. cbn. by rewrite Hx, IHl.
  - induction IH as [|[k v] l [Hk Hv] _ IHl]; [done|]. cbn in *. by rewrite Hk, Hv, IHl.
  - induction IH as [|x l Hx _ IHl]; [done|]. cbn. by rewrite Hx, IHl.
Qed.

Lemma represent_data_scalar stream_name (data : Value) st node st' :
  is_scalar data = true ->
  represent_data stream_name data st = Returns (node, st') ->
  is_scalar_node node = true.
Proof.
  intros Hd H. destruct data; try discriminate Hd; cbn [represent_data] in H;
    unfold represent_none, represent_int, represent_float in H; by injection H as <- <-.
Qed.

(** Every key in the node of a supported value is a scalar. *)
Lemma represent_data_scalar_keys stream_name (data : Value) :
  supported data = true ->
  forall st node st',
    represent_data stream_name data st = Returns (node, st') -> scalar_keys node = true.
Proof.
  induction data as [|b|z|f|s|d z|d f|items IH|items IH|elements IH|a] using Value_nested_ind;
    intros Hs st node st' H; cbn [represent_data] in H;
    unfold represent_none, represent_int, represent_float in H;
    try (by injection H as <- <-).
  - cbn [supported] in Hs. apply forallb_Forall in Hs.
    unfold represent_sequence in H.
    apply bind_Returns in H as ([ns st1] & Hth & H). injection H as <- <-.
    cbn [scalar_keys]. apply forallb_Forall.
    eapply thread_Forall; [|exact Hth].
    rewrite Forall_forall in IH, Hs |- *. intros x Hx st0 y st2 Hy. eapply IH; eauto.
  - cbn [supported] in Hs. apply andb_true_iff in Hs as [Hs _].
    apply forallb_Forall in Hs.
    unfold represent_ordereddict, represent_mapping in H.
    apply bind_Returns in H as ([ns st1] & Hth & H). injection H as <- <-.
    cbn [scalar_keys]. apply forallb_Forall.
    eapply thread_Forall; [|exact Hth].
    rewrite Forall_forall in IH, Hs |- *. intros [k v] Hkv st0 [nk nv] st2 Hitem.
    specialize (Hs _ Hkv). cbn [fst snd] in Hs. apply andb_true_iff in Hs as [Hk Hv].
    destruct (IH _ Hkv) as [_ IHv]. cbn [fst snd] in IHv.
    unfold represent_item in Hitem. cbn [fst snd] in Hitem.
    apply bind_Returns in Hitem as ([nk' st1'] & Hnk & Hitem).
    apply bind_Returns in Hitem as ([nv' st2'] & Hnv & Hitem). injection Hitem as <- <- <-.
    cbn [fst snd]. apply andb_true_iff. split.
    + eapply represent_data_scalar; [|exact Hnk]. by destruct k.
    + eapply IHv; eauto.
  - cbn [supported] in Hs. apply andb_true_iff in Hs as [Hs _].
    apply forallb_Forall in Hs.
    unfold represent_frozenset, represent_set in H.
    apply bind_Returns in H as ([n1 st1] & H1 & H). injection H as <- <-.
    apply bind_Returns in H1 as ([ns st2] & Hth & H1). injection H1 as <- <-.
    cbn [set_tag scalar_keys]. apply forallb_Forall.
    eapply thread_Forall; [|exact Hth].
    rewrite Forall_forall in Hs |- *. intros k Hk st0 [nk nv] st3 Hitem.
    specialize (Hs _ Hk). apply andb_true_iff in Hs as [Hscalar _].
    unfold represent_element, represent_none in Hitem.
    apply bind_Returns in Hitem as ([nk' st1'] & Hnk & Hitem). injection Hitem as <- <- <-.
    cbn [fst snd scalar_keys]. rewrite andb_true_r.
    by eapply represent_data_scalar.
  - unfold represent_ndarray, fs_write in H.
    destruct stream_name as [name|]; cbn in H; [|by injection H as <- <-].
    destruct (fs_writable _ _); cbn in H; by injection H as <- <-.
Qed.

Lemma dump_then_load stream_name base (data : Value) (fs : filesystem) :
  supported data = true -> faithful data ->
  exists node st',
    represent_data stream_name data {| external_ndarray_counter := O; dumper_fs := fs |}
    = Returns (node, st')
    /\ ordered_dump data stream_name fs = Returns ([serialize_node node], dumper_fs st')
    /\ yaml_load base (dumper_fs st') [serialize_node node] = Returns (widen data).
Proof.
  intros Hs Hf.
  destruct (represent_data_returns stream_name data
              {| external_ndarray_counter := O; dumper_fs := fs |}) as (node & st' & Hrep).
  exists node, st'. split; [done|]. split.
  - unfold ordered_dump. by rewrite Hrep.
  - unfold yaml_load.
    rewrite get_single_serialize by (eapply represent_data_scalar_keys; eauto).
    cbn [mbind result_bind]. eapply represent_data_loads; eauto. by intros p Hp.
Qed.


(** ** Further properties of the loader, the dumper and [save] *)

(** *** Paths *)

Lemma append_cons (c : ascii) (s t : string) : String c s +:+ t = String c (s +:+ t).
Proof. reflexivity. Qed.

Lemma append_nil_l (s : string) : "" +:+ s = s.
Proof. reflexivity. Qed.

Lemma char_in_app (c : ascii) (a b : string) :
  char_in c (a +:+ b) = char_in c a || char_in c b.
Proof. unfold char_in. by rewrite chars_app, existsb_app. Qed.

Lemma rsplit_None (sep : ascii) (s : string) :
  rsplit sep s = None <-> char_in sep s = false.
Proof.
  unfold char_in, chars. induction s as [|c s IH]; cbn [rsplit list_ascii_of_string existsb].
  - done.
  - rewrite (Ascii.eqb_sym sep c). destruct (rsplit sep s) as [[h t]|].
    + destruct IH as [_ IH]. split; [done|]. intros [_ H]%orb_false_iff. by apply IH in H.
    + destruct IH as [IH _]. rewrite (IH eq_refl), orb_false_r.
      destruct (Ascii.eqb c sep); split; done.
Qed.

Lemma rsplit_Some (sep : ascii) (s h t : string) :
  rsplit sep s = Some (h, t) -> s = h +:+ String sep t /\ char_in sep t = false.
Proof.
  revert h. induction s as [|c s IH]; intros h; cbn [rsplit]; [done|].
  destruct (rsplit sep s) as [[h' t']|] eqn:Hs.
  - intros [= <- <-]. destruct (IH h' eq_refl) as [-> Ht]. done.
  - destruct (Ascii.eqb c sep) eqn:Hc; [|done]. intros [= <- <-].
    apply Ascii.eqb_eq in Hc as ->. split; [done|]. by apply rsplit_None.
Qed.

Lemma rsplit_app (sep : ascii) (h t : string) :
  char_in sep t = false -> rsplit sep (h +:+ String sep t) = Some (h, t).
Proof.
  intros Ht. induction h as [|c h IH].
  - rewrite append_nil_l. cbn [rsplit]. apply rsplit_None in Ht. by rewrite Ht, Ascii.eqb_refl.
  - rewrite append_cons. cbn [rsplit]. by rewrite IH.
Qed.

Lemma rstrip_snoc (c : ascii) (s : string) :
  rstrip c (s +:+ String c "") = rstrip c s.
Proof.
  unfold rstrip. rewrite chars_app. cbn [chars list_ascii_of_string].
  rewrite rev_app_distr. cbn [rev app drop_leading]. by rewrite Ascii.eqb_refl.
Qed.

Lemma drop_leading_idem (c : ascii) (l : list ascii) :
  drop_leading c (drop_leading c l) = drop_leading c l.
Proof.
  induction l as [|a l IH]; [done|]. cbn [drop_leading].
  destruct (Ascii.eqb a c) eqn:Ha; [done|]. cbn [drop_leading]. by rewrite Ha.
Qed.

Lemma rstrip_idem (c : ascii) (s : string) : rstrip c (rstrip c s) = rstrip c s.
Proof.
  unfold rstrip, chars. rewrite list_ascii_of_string_of_list_ascii, rev_involutive.
  by rewrite drop_leading_idem.
Qed.

Lemma append_nil_r (s : string) : s +:+ "" = s.
Proof. induction s as [|c s IH]; [done|]. by rewrite append_cons, IH. Qed.

Lemma append_assoc (a b c : string) : (a +:+ b) +:+ c = a +:+ (b +:+ c).
Proof. induction a as [|x a IH]; [done|]. by rewrite !append_cons, IH. Qed.

Lemma startswith_slash (s : string) : char_in "/" s = false -> startswith "/" s = false.
Proof.
  destruct s as [|c s]; [done|]. unfold char_in, chars.
  cbn [list_ascii_of_string existsb startswith].
  intros [H _]%orb_false_iff. by rewrite H.
Qed.

Lemma basename_no_slash (p : string) : char_in "/" (basename p) = false.
Proof.
  unfold basename. destruct (rsplit "/" p) as [[h t]|] eqn:H.
  - by apply rsplit_Some in H as [_ ?].
  - by apply rsplit_None.
Qed.

Lemma splitext_app (p : string) :
  p = (splitext p).1 +:+ (splitext p).2
  /\ ((splitext p).2 = "" \/ startswith "." (splitext p).2 = true).
Proof.
  unfold splitext. destruct (rsplit "." p) as [[root ext]|] eqn:H.
  - apply rsplit_Some in H as [Hp _].
    destruct (char_in "/" ext); [cbn [fst snd]; rewrite append_nil_r; auto|].
    destruct (forallb _ _); cbn [fst snd]; [rewrite append_nil_r; auto|].
    split; [exact Hp|by right].
  - cbn [fst snd]. rewrite append_nil_r. auto.
Qed.

Lemma path_join_app (a b c : string) :
  startswith "/" b = false -> startswith "/" (b +:+ c) = false ->
  path_join a b +:+ c = path_join a (b +:+ c).
Proof.
  intros Hb Hbc. unfold path_join. rewrite Hb, Hbc.
  destruct (_ || _); by rewrite ?append_assoc.
Qed.

Lemma dirname_app (h t : string) :
  char_in "/" t = false ->
  dirname (h +:+ String "/" t)
  = (if String.eqb (rstrip "/" (h +:+ "/")) "" then h +:+ "/" else rstrip "/" (h +:+ "/"))
  /\ basename (h +:+ String "/" t) = t.
Proof. intros Ht. unfold dirname, basename. by rewrite rsplit_app. Qed.

(** A name without a slash that is put beside [name] has the directory of
    [name]. *)
Lemma beside (name t : string) :
  char_in "/" t = false ->
  dirname (path_join (dirname name) t) = dirname name
  /\ basename (path_join (dirname name) t) = t.
Proof.
  intros Ht. pose proof (startswith_slash t Ht) as Hstart.
  assert (Hnone : rsplit "/" t = None) by by apply rsplit_None.
  remember (dirname name) as D eqn:HD. unfold path_join. rewrite Hstart.
  unfold dirname in HD. destruct (rsplit "/" name) as [[h tl]|] eqn:Hname.
  - destruct (String.eqb (rstrip "/" (h +:+ "/")) "") eqn:Hroot.
    + apply String.eqb_eq in Hroot.
      assert (Hne : String.eqb D "" = false).
      { apply String.eqb_neq. rewrite HD. by destruct h. }
      assert (Hd : String.eqb (rstrip "/" D) D = false).
      { apply String.eqb_neq. rewrite HD, Hroot. by destruct h. }
      rewrite Hne, Hd. cbn [orb negb]. rewrite HD, append_assoc.
      change ("/" +:+ t) with (String "/" t).
      destruct (dirname_app h t Ht) as [-> ->]. by rewrite Hroot.
    + assert (Hne : String.eqb D "" = false) by (by rewrite HD).
      assert (Hd : String.eqb (rstrip "/" D) D = true).
      { apply String.eqb_eq. by rewrite HD, rstrip_idem. }
      rewrite Hne, Hd. cbn [orb negb].
      change (D +:+ "/" +:+ t) with (D +:+ String "/" t).
      destruct (dirname_app D t Ht) as [-> ->].
      rewrite rstrip_snoc. apply String.eqb_eq in Hd. rewrite Hd, Hne. done.
  - rewrite HD. cbn [String.eqb orb]. rewrite append_nil_l.
    unfold dirname, basename. by rewrite Hnone.
Qed.

Lemma digit_not_slash (c : ascii) : is_digit c = true -> Ascii.eqb "/" c = false.
Proof.
  intros Hc. apply Ascii.eqb_neq. intros <-. discriminate Hc.
Qed.

Lemma all_digits_no_slash (s : string) : all_digits s -> char_in "/" s = false.
Proof.
  unfold all_digits, char_in. induction 1 as [|c l Hc _ IH]; [done|].
  cbn [existsb]. by rewrite (digit_not_slash c Hc), IH.
Qed.

Lemma int_text_digits (n : nat) : all_digits (int_text (Z.of_nat n)).
Proof.
  destruct (Z.of_nat n) as [|p|p] eqn:Hn; [by repeat constructor| |lia].
  unfold int_text. cbn [Z.to_int NilZero.string_of_int].
  destruct (pos_text_head p) as (c & rest & -> & Hc & _ & Hrest & _).
  by constructor.
Qed.

Lemma format_06_digits (n : nat) : all_digits (format_06 n).
Proof.
  unfold format_06, rjust, all_digits. rewrite chars_app. apply Forall_app. split.
  - unfold chars. rewrite list_ascii_of_string_of_list_ascii.
    apply Forall_forall. by intros c [-> _]%elem_of_replicate.
  - apply int_text_digits.
Qed.

Lemma external_name_no_slash (name : string) (k : nat) :
  char_in "/" (external_name name k) = false.
Proof.
  unfold external_name. rewrite !char_in_app.
  pose proof (basename_no_slash name) as Hb.
  destruct (splitext_app (basename name)) as [Happ _]. rewrite Happ, char_in_app in Hb.
  apply orb_false_iff in Hb as [-> _].
  by rewrite (all_digits_no_slash _ (format_06_digits k)).
Qed.

Lemma external_path_beside (name : string) (k : nat) :
  external_path name k = path_join (dirname name) (external_name name k).
Proof.
  unfold external_path, external_name. apply path_join_app.
  - pose proof (basename_no_slash name) as Hb.
    destruct (splitext_app (basename name)) as [Happ _]. rewrite Happ, char_in_app in Hb.
    apply orb_false_iff in Hb as [Hb _]. by apply startswith_slash.
  - apply startswith_slash, external_name_no_slash.
Qed.












(** *** [save] *)






Lemma dirname_no_slash (p : string) : char_in "/" p = false -> dirname p = "".
Proof. intros H. apply rsplit_None in H. unfold dirname. by rewrite H. Qed.

Lemma numbered_external (name : string) (c n : nat) (q : string) :
  q ∈ numbered (Some name) c n -> exists k, q = external_path name k.
Proof. cbn [numbered]. intros (k & -> & _)%list_elem_of_fmap. eauto. Qed.

Lemma external_path_not_name (name : string) (k : nat) : external_path name k <> name.
Proof.
  destruct (beside name (external_name name k) (external_name_no_slash name k)) as [_ Hb].
  rewrite <- external_path_beside in Hb.
  intros Heq. rewrite Heq in Hb. unfold external_name in Hb.
  destruct (splitext_app (basename name)) as [Happ Hext].
  rewrite Happ in Hb at 1. apply String.app_inj in Hb.
  destruct Hext as [Hext|Hext]; rewrite Hb in Hext; discriminate Hext.
Qed.


(** X1.  The path of a file without a directory part makes [save] raise: the
    directory of such a path is the empty path, which does not exist, and
    [os.makedirs] fails on it before anything is written. *)
Theorem save_without_directory_raises :
  forall d file_path data,
    char_in "/" file_path = false ->
    makedirs d (dirname file_path) = Returns (Some ENOENT, d)
    /\ save d file_path data
       = Raises (FileNotFoundError "[Errno 2] No such file or directory: ''").
Proof.
  intros d file_path data Hno. unfold save. rewrite (dirname_no_slash _ Hno).
  split; reflexivity.
Qed.


(** X5.  The file that [represent_ndarray] writes for an array stands in the
    directory of the stream; its name there is the base name of the stream
    without its extension, a hyphen, the counter and [.npz]. It is never the
    file of the stream itself, and two counter values never give the same
    file. *)
Theorem external_file_is_a_sibling :
  forall name k,
    dirname (external_path name k) = dirname name
    /\ basename (external_path name k)
       = (splitext (basename name)).1 +:+ "-" +:+ format_06 k +:+ ".npz"
    /\ external_path name k <> name
    /\ (forall j, external_path name j = external_path name k -> j = k).
Proof.
  intros name k.
  destruct (beside name (external_name name k) (external_name_no_slash name k)) as [Hd Hb].
  rewrite <- external_path_beside in Hd, Hb. split_and!; [done|done| |].
  - apply external_path_not_name.
  - intros j. apply external_path_inj.
Qed.

(** *** Directories that [save] makes *)







(** *** What a dump and a save leave alone *)

Lemma ordered_dump_Returns (data : Value) stream_name (fs : filesystem) stream fs' :
  ordered_dump data stream_name fs = Returns (stream, fs') ->
  exists node st',
    represent_data stream_name data {| external_ndarray_counter := O; dumper_fs := fs |}
    = Returns (node, st')
    /\ stream = [serialize_node node] /\ fs' = dumper_fs st'.
Proof.
  unfold ordered_dump. intros ([node st'] & Hrep & H)%bind_Returns.
  injection H as <- <-. eauto.
Qed.

Lemma filesystem_eq (fs1 fs2 : filesystem) :
  fs_files fs1 = fs_files fs2 -> fs_writable fs1 = fs_writable fs2 -> fs1 = fs2.
Proof. destruct fs1, fs2. cbn. by intros -> ->. Qed.

(** X6.  A dump to a stream without a name writes no file: the file system
    is after the dump what it was before, and no node of the document refers
    to a file. *)
Theorem dump_without_name_writes_no_file :
  forall data fs,
    exists node,
      ordered_dump data None fs = Returns ([serialize_node node], fs)
      /\ external_nodes node = [].
Proof.
  intros data fs.
  destruct (represent_data_returns None data
              {| external_ndarray_counter := O; dumper_fs := fs |}) as (node & st' & Hrep).
  pose proof (represent_data_wrote None data _ _ _ Hrep) as [Hpaths _ Hw Hframe].
  cbn [numbered] in Hpaths. exists node. split; [|done].
  unfold ordered_dump. rewrite Hrep. cbn [mbind result_bind]. do 2 f_equal.
  apply filesystem_eq; [|done]. apply map_eq. intros q. apply Hframe.
  rewrite Hpaths. apply not_elem_of_nil.
Qed.

(** X7.  A dump to a stream with a name writes its document to the stream
    and changes no other file than the files beside the stream that it
    numbers from 0 on, one for each [!extndarray] node of the document; none
    of these is the file of the stream.  What can be written stays as it
    was. *)
Theorem dump_changes_only_numbered_files :
  forall data name fs stream fs',
    ordered_dump data (Some name) fs = Returns (stream, fs') ->
    exists node,
      stream = [serialize_node node]
      /\ external_nodes node
         = map (external_path name) (seq 0 (length (external_nodes node)))
      /\ (name ∉ external_nodes node)
      /\ (forall q,
            q <> name -> q ∉ external_nodes node ->
            fs_files fs' !! q = fs_files fs !! q)
      /\ fs_writable fs' = fs_writable fs.
Proof.
  intros data name fs stream fs' H.
  apply ordered_dump_Returns in H as (node & st' & Hrep & -> & ->).
  pose proof (represent_data_wrote (Some name) data _ _ _ Hrep) as [Hpaths _ Hw Hframe].
  exists node. split_and!; [done|exact Hpaths| |by intros q _; apply Hframe|exact Hw].
  rewrite Hpaths. intros (k & Heq & _)%list_elem_of_fmap.
  symmetry in Heq. by apply external_path_not_name in Heq.
Qed.

(** *** The arrays of a document in its dump *)

Lemma Forall2_concat {A B C D} (R : C -> D -> Prop) (f : A -> list C) (g : B -> list D)
    (l : list A) (k : list B) :
  Forall2 (fun x y => Forall2 R (f x) (g y)) l k ->
  Forall2 R (concat (map f l)) (concat (map g k)).
Proof.
  induction 1 as [|x y l k Hxy _ IH]; cbn [map concat]; [constructor|].
  by apply Forall2_app.
Qed.

Lemma same_files_app_l (p1 p2 : list string) (fs1 fs2 : filesystem) :
  same_files (p1 ++ p2) fs1 fs2 -> same_files p1 fs1 fs2.
Proof. intros H q Hq. apply H, elem_of_app. by left. Qed.

Lemma same_files_app_r (p1 p2 : list string) (fs1 fs2 : filesystem) :
  same_files (p1 ++ p2) fs1 fs2 -> same_files p2 fs1 fs2.
Proof. intros H q Hq. apply H, elem_of_app. by right. Qed.

Lemma represent_data_arrays stream_name (data : Value) :
  forall st node st',
    represent_data stream_name data st = Returns (node, st') ->
    forall fs,
      same_files (external_nodes node) fs (dumper_fs st') ->
      Forall2 (array_node stream_name (fs_files fs)) (arrays_of data) (array_nodes node).
Proof.
  induction data as [| | | | | | |items IH|items IH|elements IH|a] using Value_nested_ind;
    intros st node st' H fs Hfs; cbn [represent_data] in H;
    unfold represent_none, represent_int, represent_float in H;
    try (injection H as <- <-; constructor).
  - unfold represent_sequence in H.
    apply bind_Returns in H as ([ns st1] & Hth & H). injection H as <- <-.
    cbn [arrays_of array_nodes]. apply Forall2_concat.
    refine (thread_loads stream_name _ external_nodes
              (fun x y fs => Forall2 (array_node stream_name (fs_files fs))
                                     (arrays_of x) (array_nodes y))
              items _ _ _ _ Hth fs Hfs).
    rewrite Forall_forall in IH. apply Forall_forall. intros x Hx st0 y st2 Hy.
    split; [by eapply represent_data_wrote|]. intros fs0 Hfs0. by eapply IH.
  - unfold represent_ordereddict, represent_mapping in H.
    apply bind_Returns in H as ([ns st1] & Hth & H). injection H as <- <-.
    cbn [arrays_of array_nodes].
    apply (Forall2_concat _ (fun kv : Value * Value => arrays_of kv.1 ++ arrays_of kv.2)
             (fun kv : Node * Node => array_nodes kv.1 ++ array_nodes kv.2)).
    refine (thread_loads stream_name _
              (fun kv : Node * Node => external_nodes kv.1 ++ external_nodes kv.2)
              (fun (x : Value * Value) (y : Node * Node) fs =>
                 Forall2 (array_node stream_name (fs_files fs))
                         (arrays_of x.1 ++ arrays_of x.2)
                         (array_nodes y.1 ++ array_nodes y.2))
              items _ _ _ _ Hth fs Hfs).
    rewrite Forall_forall in IH. apply Forall_forall.
    intros [k v] Hkv st0 [nk nv] st2 Hitem. destruct (IH _ Hkv) as [IHk IHv].
    unfold represent_item in Hitem. cbn [fst snd] in *.
    apply bind_Returns in Hitem as ([nk' st1'] & Hnk & Hitem).
    apply bind_Returns in Hitem as ([nv' st2'] & Hnv & Hitem). injection Hitem as <- <- <-.
    pose proof (represent_data_wrote _ _ _ _ _ Hnk) as Hwk.
    pose proof (represent_data_wrote _ _ _ _ _ Hnv) as Hwv.
    split; [by eapply wrote_trans|]. intros fs0 Hfs0. apply Forall2_app.
    + eapply IHk; [exact Hnk|]. intros q Hq.
      rewrite (same_files_app_l _ _ _ _ Hfs0 q Hq).
      by apply (wrote_kept _ _ _ _ _ _ Hwk Hwv).
    + eapply IHv; [exact Hnv|]. by eapply same_files_app_r.
  - unfold represent_frozenset, represent_set in H.
    apply bind_Returns in H as ([n1 st1] & H1 & H). injection H as <- <-.
    apply bind_Returns in H1 as ([ns st2] & Hth & H1). injection H1 as <- <-.
    cbn [set_tag external_nodes arrays_of array_nodes] in *.
    apply (Forall2_concat _ arrays_of
             (fun kv : Node * Node => array_nodes kv.1 ++ array_nodes kv.2)).
    refine (thread_loads stream_name _
              (fun kv : Node * Node => external_nodes kv.1 ++ external_nodes kv.2)
              (fun (x : Value) (y : Node * Node) fs =>
                 Forall2 (array_node stream_name (fs_files fs))
                         (arrays_of x) (array_nodes y.1 ++ array_nodes y.2))
              elements _ _ _ _ Hth fs Hfs).
    rewrite Forall_forall in IH. apply Forall_forall. intros k Hk st0 [nk nv] st3 Hitem.
    unfold represent_element, represent_none in Hitem.
    apply bind_Returns in Hitem as ([nk' st1'] & Hnk & Hitem). injection Hitem as <- <- <-.
    cbn [fst snd external_nodes array_nodes String.eqb Ascii.eqb Bool.eqb orb].
    rewrite !app_nil_r.
    split; [by eapply represent_data_wrote|]. intros fs0 Hfs0. by eapply IH.
  - cbn [arrays_of]. unfold represent_ndarray, fs_write in H.
    destruct stream_name as [name|]; cbn in H.
    + destruct (fs_writable _ _); cbn in H; injection H as <- <-.
      * constructor; [|constructor]. right. exists name, (external_ndarray_counter st).
        split_and!; [done|done|].
        rewrite Hfs by (cbn; apply list_elem_of_here). cbn [dumper_fs fs_files].
        apply lookup_insert_eq.
      * constructor; [|constructor]. by left.
    + injection H as <- <-. constructor; [|constructor]. by left.
Qed.

(** X8.  Every array of a document has its node in the dump, in the order of
    the document, and no other node stands for an array: the node holds the
    encoded archive of the array under [!ndarray], or under [!extndarray]
    the name of a file beside the stream which holds the archive of the
    array after the dump. *)
Theorem every_array_has_its_node :
  forall data stream_name fs stream fs',
    ordered_dump data stream_name fs = Returns (stream, fs') ->
    exists node,
      stream = [serialize_node node]
      /\ Forall2 (array_node stream_name (fs_files fs')) (arrays_of data) (array_nodes node).
Proof.
  intros data stream_name fs stream fs' H.
  apply ordered_dump_Returns in H as (node & st' & Hrep & -> & ->).
  exists node. split; [done|].
  eapply represent_data_arrays; [exact Hrep|]. by intros q Hq.
Qed.

(** The files, the directories and the permissions of two disks: the
    second disk has the files and the permissions of the first and at least
    its directories. *)
Lemma mkdir_files (d : disk) (p : string) failure d' :
  mkdir d p = Returns (failure, d') ->
  disk_files d' = disk_files d /\ disk_dirs d ⊆ disk_dirs d'
  /\ disk_permits d' = disk_permits d.
Proof.
  unfold mkdir. destruct (String.eqb p ""); [by intros [= <- <-]|].
  destruct (plain_path p); cbn [negb]; [|done].
  intros (parent & _ & H)%bind_Returns. destruct parent; [by injection H as <- <-|].
  destruct (_ || _); [by injection H as <- <-|].
  destruct (disk_permits d p); injection H as <- <-; [|done].
  cbn. split_and!; [done| |done]. apply union_subseteq_r.
Qed.

Lemma makedirs_from_files (fuel : nat) :
  forall d name failure d',
    makedirs_from fuel d name = Returns (failure, d') ->
    disk_files d' = disk_files d /\ disk_dirs d ⊆ disk_dirs d'
    /\ disk_permits d' = disk_permits d.
Proof.
  induction fuel as [|fuel IH]; intros d name failure d'; cbn [makedirs_from]; [done|].
  destruct (path_split name) as [head tail].
  destruct (if String.eqb tail "" then path_split head else (head, tail)) as [head' tail'].
  destruct (negb (String.eqb head' "") && negb (String.eqb tail' ""));
    [|by apply mkdir_files].
  intros (found & _ & H)%bind_Returns. destruct found; cbn [negb] in H;
    [by apply mkdir_files in H|].
  apply bind_Returns in H as ([failure1 made] & Hmade & H).
  apply IH in Hmade as (Hf & Hd & Hp).
  assert (Hlast : forall r, mkdir made name = Returns r ->
                    disk_files r.2 = disk_files d /\ disk_dirs d ⊆ disk_dirs r.2
                    /\ disk_permits r.2 = disk_permits d).
  { intros [f2 d2] (Hf2 & Hd2 & Hp2)%mkdir_files. cbn [snd].
    split_and!; [congruence|by etrans|congruence]. }
  destruct failure1 as [[]|]; cbn in H;
    try (injection H as <- <-; done);
    (destruct (String.eqb tail' "."); [by injection H as <- <-|exact (Hlast _ H)]).
Qed.

Lemma open_w_files (d : disk) (p : string) d' :
  open_w d p = Returns (None, d') ->
  disk_files d' = <[p := TextFile []]> (disk_files d)
  /\ disk_dirs d' = disk_dirs d /\ disk_permits d' = disk_permits d.
Proof.
  unfold open_w. destruct (String.eqb p ""); [done|].
  destruct (plain_path p); cbn [negb]; [|done].
  intros (parent & _ & H)%bind_Returns. destruct parent; [done|].
  destruct (disk_isdir d p); [done|].
  destruct (disk_permits d p); [|done]. by injection H as <-.
Qed.

Lemma raise_os_error_Returns (path : string) (outcome : result os_outcome) (d : disk) :
  raise_os_error path outcome = Returns d -> outcome = Returns (None, d).
Proof.
  unfold raise_os_error. intros ([failure d0] & -> & H)%bind_Returns.
  destruct failure; [done|]. by injection H as ->.
Qed.

(** X4.  A save that returns leaves in the file the text that [ordered_dump]
    gave for the document. Of the other files only those beside the file
    that the dump numbers can have changed; no directory is removed and what
    may be written stays as it was. *)
Theorem save_changes_only_its_files :
  forall d file_path data d',
    save d file_path data = Returns d' ->
    (exists stream fs fs',
        ordered_dump data (Some file_path) fs = Returns (stream, fs')
        /\ disk_files d' !! file_path = Some (TextFile stream))
    /\ (forall q,
          q <> file_path -> (forall k, q <> external_path file_path k) ->
          disk_files d' !! q = disk_files d !! q)
    /\ disk_dirs d ⊆ disk_dirs d'
    /\ disk_permits d' = disk_permits d.
Proof.
  intros d p data d' H. unfold save in H.
  apply bind_Returns in H as (found & _ & H).
  apply bind_Returns in H as (made & Hmade & H).
  apply bind_Returns in H as (opened & Hopened & H).
  apply bind_Returns in H as ([stream fs] & Hdump & H). injection H as <-.
  cbn [disk_files disk_dirs disk_permits].
  assert (Hm : disk_files made = disk_files d /\ disk_dirs d ⊆ disk_dirs made
               /\ disk_permits made = disk_permits d).
  { destruct found; cbn [negb] in Hmade; [by injection Hmade as <-|].
    apply raise_os_error_Returns in Hmade. by apply makedirs_from_files in Hmade. }
  destruct Hm as (Hmf & Hmd & Hmp).
  apply raise_os_error_Returns, open_w_files in Hopened as (Hof & Hod & Hop).
  pose proof Hdump as Htext.
  apply ordered_dump_Returns in Hdump as (node & st' & Hrep & -> & ->).
  pose proof (represent_data_wrote (Some p) data _ _ _ Hrep) as [Hpaths _ _ Hframe].
  split_and!.
  - eexists _, _, _. split; [exact Htext|]. apply lookup_insert_eq.
  - intros q Hq Hnum. rewrite lookup_insert_ne by done.
    rewrite Hframe; cycle 1.
    { rewrite Hpaths. intros [k ->]%numbered_external. by apply (Hnum k). }
    cbn [dumper_fs disk_view fs_files]. rewrite Hof, lookup_insert_ne by done.
    by rewrite Hmf.
  - by rewrite Hod.
  - by rewrite Hop.
Qed.

(** *** The files of the arrays (C6) *)

(** C6 (as amended).  With a named stream and a write that succeeds,
    [represent_ndarray] writes the archive of the array to the file beside
    the stream that is named by the base name of the stream, a hyphen, the
    counter of the dumper filled with zeros to six digits and [.npz],
    returns the node tagged [!extndarray] on that file name, and moves the
    counter by one.  The counter of a dump starts at 0, so the
    [!extndarray] nodes of the document that a dump writes carry, in the
    order of the document, the file names of the counter values 0, 1, 2 and
    so on.  Each of these nodes is constructed, with the files that the dump
    left, as the array that numpy reads from the archive of the array it
    stands for.  Loading the whole document that was written gives back the
    arrays of the document that was dumped, in their order, when the
    document is built from the supported values and the libraries read back
    what they wrote for its floats and arrays. *)
Theorem external_arrays_numbered_from_zero :
  (forall name data st,
      fs_writable (dumper_fs st) (external_path name (external_ndarray_counter st)) = true ->
      represent_ndarray (Some name) data st
      = Returns
          (ScalarNode TAG_EXTNDARRAY (external_path name (external_ndarray_counter st)),
           {| external_ndarray_counter := S (external_ndarray_counter st);
              dumper_fs :=
                {| fs_files :=
                     <[external_path name (external_ndarray_counter st)
                       := BinaryFile (savez_compressed data)]> (fs_files (dumper_fs st));
                   fs_writable := fs_writable (dumper_fs st) |} |}))
  /\ (forall name k,
        external_path name k
        = path_join (dirname name) (splitext (basename name)).1
            +:+ "-" +:+ format_06 k +:+ ".npz")
  /\ external_path "conf/app.cfg" 0 = "conf/app-000000.npz"
  /\ external_path "conf/app.cfg" 1 = "conf/app-000001.npz"
  /\ (forall k, (k < 10 ^ 6)%nat -> String.length (format_06 k) = 6%nat)
  /\ (forall data name fs node st',
        represent_data (Some name) data {| external_ndarray_counter := O; dumper_fs := fs |}
        = Returns (node, st') ->
        external_nodes node
        = map (external_path name) (seq 0 (external_ndarray_counter st')))
  /\ (forall data name fs stream fs' base fuel,
        ordered_dump data (Some name) fs = Returns (stream, fs') ->
        exists node,
          stream = [serialize_node node]
          /\ Forall2 (fun a written =>
                        written.1 = TAG_EXTNDARRAY ->
                        construct_object base fs' (S fuel) (ScalarNode written.1 written.2)
                        = a' ← numpy_load (savez_compressed a); Returns (VArray a'))
                     (arrays_of data) (array_nodes node))
  /\ (forall items name fs base,
        supported (VOrderedDict items) = true ->
        faithful (VOrderedDict items) ->
        exists stream fs' loaded,
          ordered_dump (VOrderedDict items) (Some name) fs = Returns (stream, fs')
          /\ ordered_load fs' stream base = Returns loaded
          /\ arrays_of loaded = arrays_of (VOrderedDict items)).
Proof.
  split_and!.
  - intros name data st Hw. unfold represent_ndarray, fs_write.
    cbn [mbind result_bind]. rewrite Hw. reflexivity.
  - reflexivity.
  - reflexivity.
  - reflexivity.
  - apply format_06_length.
  - intros data name fs node st' H. apply represent_data_wrote in H as [Hp Hc _ _].
    cbn [external_ndarray_counter numbered] in Hp, Hc. by rewrite Hc.
  - intros data name fs stream fs' base fuel H.
    apply ordered_dump_Returns in H as (node & st' & Hrep & -> & ->).
    exists node. split; [done|].
    pose proof (represent_data_arrays (Some name) data _ _ _ Hrep (dumper_fs st')
                  (fun q _ => eq_refl)) as Harrays.
    eapply Forall2_impl; [exact Harrays|].
    intros a [tag text] [Hin|(name' & k & _ & [= -> ->] & Hfile)] Htag; cbn [fst snd] in *.
    + injection Hin as -> _. discriminate Htag.
    + rewrite construct_external. unfold construct_external_ndarray, fs_read.
      cbn [construct_scalar mbind result_bind]. by rewrite Hfile.
  - intros items name fs base Hs Hf.
    destruct (dump_then_load (Some name) base _ fs Hs Hf) as (node & st' & _ & Hdump & Hload).
    eexists _, _, _. split; [exact Hdump|]. split.
    + unfold ordered_load. by rewrite Hload.
    + apply arrays_of_widen.
Qed.

(** *** Arrays that cannot be written to a file (C5) *)

Lemma array_nodes_from_app stream_name (writable : string -> bool) (l1 l2 : list ndarray) :
  forall c,
    array_nodes_from stream_name writable c (l1 ++ l2)
    = let '(n1, c1) := array_nodes_from stream_name writable c l1 in
      let '(n2, c2) := array_nodes_from stream_name writable c1 l2 in
      (n1 ++ n2, c2).
Proof.
  induction l1 as [|a l1 IH]; intros c; cbn [app array_nodes_from].
  - by destruct (array_nodes_from stream_name writable c l2).
  - destruct stream_name as [name|]; [destruct (writable (external_path name c))|];
      rewrite IH;
      destruct (array_nodes_from _ writable _ l1) as [n1 c1];
      by destruct (array_nodes_from _ writable c1 l2).
Qed.

Lemma thread_array_nodes {A B} stream_name
    (f : A -> dumper_state -> result (B * dumper_state))
    (arrays : A -> list ndarray) (nodes : B -> list (string * string)) (l : list A) :
  Forall (fun x => forall st y st',
              f x st = Returns (y, st') ->
              array_nodes_from stream_name (fs_writable (dumper_fs st))
                               (external_ndarray_counter st) (arrays x)
              = (nodes y, external_ndarray_counter st')
              /\ fs_writable (dumper_fs st') = fs_writable (dumper_fs st)) l ->
  forall st ys st',
    thread f l st = Returns (ys, st') ->
    array_nodes_from stream_name (fs_writable (dumper_fs st))
                     (external_ndarray_counter st) (concat (map arrays l))
    = (concat (map nodes ys), external_ndarray_counter st')
    /\ fs_writable (dumper_fs st') = fs_writable (dumper_fs st).
Proof.
  induction 1 as [|x rest Hx _ IH]; intros st ys st' H; cbn [thread] in H.
  - by injection H as <- <-.
  - apply bind_Returns in H as ([y st1] & Hy & H).
    apply bind_Returns in H as ([ys' st2] & Hys & H). injection H as <- <-.
    destruct (Hx _ _ _ Hy) as [Hnodes Hw]. destruct (IH _ _ _ Hys) as [Hrest Hw'].
    cbn [map concat]. rewrite array_nodes_from_app, Hnodes, <- Hw, Hrest.
    split; [done|congruence].
Qed.

(** The nodes of the arrays of a value are those of its arrays taken one
    after another. *)
Lemma represent_data_array_nodes stream_name (data : Value) :
  forall st node st',
    represent_data stream_name data st = Returns (node, st') ->
    array_nodes_from stream_name (fs_writable (dumper_fs st))
                     (external_ndarray_counter st) (arrays_of data)
    = (array_nodes node, external_ndarray_counter st')
    /\ fs_writable (dumper_fs st') = fs_writable (dumper_fs st).
Proof.
  induction data as [| | | | | | |items IH|items IH|elements IH|a] using Value_nested_ind;
    intros st node st' H; cbn [represent_data] in H;
    unfold represent_none, represent_int, represent_float in H;
    try (by injection H as <- <-).
  - unfold represent_sequence in H.
    apply bind_Returns in H as ([ns st1] & Hth & H). injection H as <- <-.
    cbn [arrays_of array_nodes].
    by apply (thread_array_nodes stream_name _ arrays_of array_nodes items IH).
  - unfold represent_ordereddict, represent_mapping in H.
    apply bind_Returns in H as ([ns st1] & Hth & H). injection H as <- <-.
    cbn [arrays_of array_nodes].
    apply (thread_array_nodes stream_name (represent_item (represent_data stream_name))
             (fun kv : Value * Value => arrays_of kv.1 ++ arrays_of kv.2)
             (fun kv : Node * Node => array_nodes kv.1 ++ array_nodes kv.2) items);
      [|exact Hth].
    eapply Forall_impl; [exact IH|]. intros [k v] [IHk IHv] st0 [nk nv] st2 Hitem.
    unfold represent_item in Hitem. cbn [fst snd] in *.
    apply bind_Returns in Hitem as ([nk' st1'] & Hnk & Hitem).
    apply bind_Returns in Hitem as ([nv' st2'] & Hnv & Hitem). injection Hitem as <- <- <-.
    destruct (IHk _ _ _ Hnk) as [Hk Hwk]. destruct (IHv _ _ _ Hnv) as [Hv Hwv].
    rewrite array_nodes_from_app, Hk, <- Hwk, Hv. split; [done|congruence].
  - unfold represent_frozenset, represent_set in H.
    apply bind_Returns in H as ([n1 st1] & H1 & H). injection H as <- <-.
    apply bind_Returns in H1 as ([ns st2] & Hth & H1). injection H1 as <- <-.
    cbn [set_tag arrays_of array_nodes].
    apply (thread_array_nodes stream_name (represent_element (represent_data stream_name))
             arrays_of
             (fun kv : Node * Node => array_nodes kv.1 ++ array_nodes kv.2) elements);
      [|exact Hth].
    eapply Forall_impl; [exact IH|]. intros k IHk st0 [nk nv] st3 Hitem.
    unfold represent_element, represent_none in Hitem.
    apply bind_Returns in Hitem as ([nk' st1'] & Hnk & Hitem). injection Hitem as <- <- <-.
    cbn [fst snd array_nodes String.eqb Ascii.eqb Bool.eqb orb]. rewrite app_nil_r.
    by apply IHk.
  - cbn [arrays_of array_nodes_from]. unfold represent_ndarray, fs_write in H.
    destruct stream_name as [name|]; cbn in H; [|by injection H as <- <-].
    destruct (fs_writable _ _); cbn in H; by injection H as <- <-.
Qed.

(** Where no file beside the stream can be written, every array is
    embedded. *)
Lemma array_nodes_from_embedded stream_name (writable : string -> bool) (arrays : list ndarray) :
  (forall name k, stream_name = Some name -> writable (external_path name k) = false) ->
  forall c,
    array_nodes_from stream_name writable c arrays
    = (map (fun a => (TAG_NDARRAY, b64encode (savez_compressed a))) arrays, c).
Proof.
  intros Hfail. induction arrays as [|a rest IH]; intros c; cbn [array_nodes_from map]; [done|].
  destruct stream_name as [name|]; [rewrite (Hfail name c eq_refl)|]; by rewrite IH.
Qed.

(** C5.  When the stream has no name, or the write of the external file
    fails, [represent_ndarray] returns the inline node: the tag [!ndarray]
    on the encoded archive, with the counter and the files as they were.  A
    dump of any value returns, and the document that it writes has, for the
    arrays of the value in their order, the nodes that the arrays get one
    after another: the [!extndarray] node of the next file where that file
    can be written and the [!ndarray] node of the array where it cannot; a
    write that fails changes nothing for the arrays after it but their
    numbers.  When no file beside the stream can be written, or the stream
    has no name, every array is embedded and no file other than the stream
    changes. *)
Theorem external_write_failure_embeds_inline :
  (forall stream_name data st,
      (forall name, stream_name = Some name ->
                    exists e, fs_write (dumper_fs st)
                                       (external_path name (external_ndarray_counter st))
                                       (savez_compressed data) = Raises e) ->
      represent_ndarray stream_name data st
      = Returns (ScalarNode TAG_NDARRAY (b64encode (savez_compressed data)), st))
  /\ (forall data stream_name fs,
        exists node st',
          represent_data stream_name data {| external_ndarray_counter := O; dumper_fs := fs |}
          = Returns (node, st')
          /\ ordered_dump data stream_name fs = Returns ([serialize_node node], dumper_fs st')
          /\ array_nodes node
             = (array_nodes_from stream_name (fs_writable fs) 0 (arrays_of data)).1)
  /\ (forall data stream_name fs,
        (forall name k,
            stream_name = Some name -> fs_writable fs (external_path name k) = false) ->
        exists node fs',
          ordered_dump data stream_name fs = Returns ([serialize_node node], fs')
          /\ array_nodes node
             = map (fun a => (TAG_NDARRAY, b64encode (savez_compressed a))) (arrays_of data)
          /\ (forall q, stream_name <> Some q -> fs_files fs' !! q = fs_files fs !! q)).
Proof.
  split_and!.
  - intros stream_name data st Hfail. unfold represent_ndarray.
    destruct stream_name as [name|]; simpl; [|reflexivity].
    destruct (Hfail name eq_refl) as [e ->]. reflexivity.
  - intros data stream_name fs. unfold ordered_dump.
    destruct (represent_data_returns stream_name data
                {| external_ndarray_counter := O; dumper_fs := fs |}) as (node & st' & Hrep).
    rewrite Hrep. cbn [mbind result_bind]. exists node, st'. split; [done|]. split; [done|].
    apply represent_data_array_nodes in Hrep as [Hnodes _].
    cbn [dumper_fs external_ndarray_counter] in Hnodes. by rewrite Hnodes.
  - intros data stream_name fs Hfail. unfold ordered_dump.
    destruct (represent_data_returns stream_name data
                {| external_ndarray_counter := O; dumper_fs := fs |}) as (node & st' & Hrep).
    rewrite Hrep. cbn [mbind result_bind]. exists node, (dumper_fs st').
    pose proof (represent_data_wrote stream_name data _ _ _ Hrep) as [_ Hc Hw Hframe].
    apply represent_data_array_nodes in Hrep as [Hnodes _].
    cbn [dumper_fs external_ndarray_counter] in Hnodes, Hc, Hw, Hframe.
    rewrite (array_nodes_from_embedded _ _ _ Hfail) in Hnodes.
    injection Hnodes as Hnodes Hcount. split_and!; [done|done|].
    intros q _. apply Hframe.
    rewrite <- Hcount in Hc. destruct (external_nodes node); [apply not_elem_of_nil|].
    cbn [length] in Hc. lia.
Qed.

(** *** Merge keys and keys that cannot be hashed *)

Lemma for_each_app {A B} (f : A -> result B) (l1 l2 : list A) (r1 r2 : list B) :
  for_each f l1 = Returns r1 -> for_each f l2 = Returns r2 ->
  for_each f (l1 ++ l2) = Returns (r1 ++ r2).
Proof.
  revert r1. induction l1 as [|x l1 IH]; intros r1 H1 H2; cbn [for_each app] in *.
  - by injection H1 as <-.
  - apply bind_Returns in H1 as (y & Hy & H1).
    apply bind_Returns in H1 as (ys & Hys & H1). injection H1 as <-.
    rewrite Hy. cbn [mbind result_bind]. by rewrite (IH ys Hys H2).
Qed.

Lemma flatten_merge tag tag' key (before merged after : list (Node * Node)) :
  node_tag key = TAG_MERGE ->
  Forall (fun kv => node_tag kv.1 <> TAG_MERGE /\ node_tag kv.1 <> TAG_VALUE) before ->
  Forall (fun kv => node_tag kv.1 <> TAG_MERGE /\ node_tag kv.1 <> TAG_VALUE) merged ->
  Forall (fun kv => node_tag kv.1 <> TAG_MERGE /\ node_tag kv.1 <> TAG_VALUE) after ->
  flatten_mapping (MappingNode tag (before ++ (key, MappingNode tag' merged) :: after))
  = Returns (merged ++ before ++ after).
Proof.
  intros Hkey Hbefore Hmerged Hafter.
  pose proof (flatten_plain tag' merged Hmerged) as Hm.
  pose proof (flatten_plain tag after Hafter) as Ha.
  cbn [flatten_mapping] in Ha |- *.
  match goal with
  | |- context [mbind _ (?go (before ++ (key, MappingNode tag' merged) :: after))] =>
      assert (Hgo : go (before ++ (key, MappingNode tag' merged) :: after)
                    = Returns (merged, before ++ after)); [|by rewrite Hgo];
      assert (Hafter' : go after = Returns ([], after))
  end.
  { clear Ha Hm. induction Hafter as [|[k v] r [Hm Hv] _ IH]; [done|]. cbn [fst] in Hm, Hv.
    destruct (String.eqb_spec (node_tag k) TAG_MERGE) as [|_]; [done|].
    rewrite IH. cbn.
    destruct (String.eqb_spec (node_tag k) TAG_VALUE) as [|_]; done. }
  assert (Hnone : existsb (fun kv : Node * Node => String.eqb (node_tag kv.1) TAG_MERGE) after
                  = false).
  { clear Ha Hm Hafter'. induction Hafter as [|[k v] r [Hm _] _ IH]; [done|].
    cbn [existsb fst] in *. rewrite IH, orb_false_r. by apply String.eqb_neq. }
  induction Hbefore as [|[k v] r [Hk Hv] _ IH]; cbn [app].
  - rewrite Hkey, String.eqb_refl, Hnone. fold flatten_mapping. rewrite Hm.
    cbn [mbind result_bind]. rewrite Hafter'. cbn [mbind result_bind].
    by rewrite app_nil_r.
  - cbn [fst] in Hk, Hv.
    destruct (String.eqb_spec (node_tag k) TAG_MERGE) as [|_]; [done|].
    rewrite IH. cbn.
    destruct (String.eqb_spec (node_tag k) TAG_VALUE) as [|_]; done.
Qed.

Lemma last_binding_app (k : string) (l1 l2 : list (string * Value)) :
  last_binding k (l1 ++ l2)
  = match last_binding k l2 with
    | Some v => Some v
    | None => last_binding k l1
    end.
Proof.
  induction l1 as [|[k' v'] l1 IH]; cbn [app last_binding].
  - by destruct (last_binding k l2).
  - rewrite IH. by destruct (last_binding k l2).
Qed.

(** X11.  A mapping with a merge key [<<] on a mapping: the loader takes the
    pairs that are merged first, wherever the merge key stands, and then the
    pairs of the mapping itself. When all keys load as strings, the
    dictionary has the keys in that order, each once; a key of the mapping
    itself has the value that the mapping gives it, and a key that only the
    merged mapping has keeps the value from there. *)
Theorem merge_key_gives_defaults :
  forall loader tag tag' key before merged after items_merged items_own,
    node_tag key = TAG_MERGE ->
    Forall (fun kv => node_tag kv.1 <> TAG_MERGE /\ node_tag kv.1 <> TAG_VALUE)
           (merged ++ before ++ after) ->
    construct_pairs loader merged = Returns (str_items items_merged) ->
    construct_pairs loader (before ++ after) = Returns (str_items items_own) ->
    exists d,
      construct_mapping loader
        (MappingNode tag (before ++ (key, MappingNode tag' merged) :: after))
      = Returns (VOrderedDict (str_items d))
      /\ d.*1 = first_occurrences (items_merged ++ items_own).*1
      /\ (forall k v, last_binding k items_own = Some v -> (k, v) ∈ d)
      /\ (forall k v, last_binding k items_own = None ->
                      last_binding k items_merged = Some v -> (k, v) ∈ d)
      /\ (forall k v, (k, v) ∈ d ->
                      last_binding k items_own = Some v
                      \/ (last_binding k items_own = None
                          /\ last_binding k items_merged = Some v)).
Proof.
  intros loader tag tag' key before merged after items_m items_o Hkey Hplain Hm Ho.
  apply Forall_app in Hplain as [Hmerged Hrest].
  apply Forall_app in Hrest as [Hbefore Hafter].
  assert (Helem : forall k v,
             (k, v) ∈ str_update [] (items_m ++ items_o)
             <-> last_binding k (items_m ++ items_o) = Some v).
  { intros k v. rewrite str_update_elem by constructor. split.
    - intros [?|[_ H]]; [done|]. by apply elem_of_nil in H.
    - by left. }
  exists (str_update [] (items_m ++ items_o)). split_and!.
  - unfold construct_mapping.
    rewrite (flatten_merge tag tag' key before merged after Hkey Hbefore Hmerged Hafter).
    cbn [mbind result_bind]. unfold construct_pairs in *.
    rewrite (for_each_app _ _ _ _ _ Hm Ho). cbn [mbind result_bind].
    unfold OrderedDict, str_items. rewrite <- map_app.
    pose proof (od_update_str (items_m ++ items_o) []) as Hupd.
    change (str_items []) with (@nil (Value * Value)) in Hupd.
    unfold str_items in Hupd. by rewrite Hupd.
  - rewrite str_update_keys. cbn [fmap list_fmap app]. apply filter_no_prefix.
  - intros k v Hown. apply Helem. by rewrite last_binding_app, Hown.
  - intros k v Hown Hmerge. apply Helem. by rewrite last_binding_app, Hown.
  - intros k v Hin%Helem. rewrite last_binding_app in Hin.
    destruct (last_binding k items_o) as [w|]; [by left|by right].
Qed.

Lemma od_update_hashable (pairs : list (Value * Value)) :
  forall d,
    (forallb hashable pairs.*1 = true -> exists d', od_update d pairs = Returns d')
    /\ (forallb hashable pairs.*1 = false -> od_update d pairs = Raises TypeError).
Proof.
  induction pairs as [|[k v] pairs IH]; intros d; cbn [fmap list_fmap forallb od_update fst].
  - split; [by eauto|done].
  - destruct (hashable k); cbn [andb]; [apply IH|]. split; [done|done].
Qed.

(** X12.  Once the keys and the values of a mapping node are constructed,
    the mapping loads if and only if every key can be hashed: a key that is
    a list, a dictionary or an array makes the [OrderedDict] constructor
    raise [TypeError]. *)
Theorem unhashable_key_fails_the_mapping :
  forall loader node pairs kvs,
    flatten_mapping node = Returns pairs ->
    construct_pairs loader pairs = Returns kvs ->
    (forallb hashable kvs.*1 = true ->
       exists d, construct_mapping loader node = Returns (VOrderedDict d))
    /\ (forallb hashable kvs.*1 = false ->
          construct_mapping loader node = Raises TypeError).
Proof.
  intros loader node pairs kvs Hflat Hpairs.
  destruct (od_update_hashable kvs []) as [Hok Hno].
  unfold construct_mapping, OrderedDict. rewrite Hflat. cbn [mbind result_bind].
  rewrite Hpairs. cbn [mbind result_bind]. split; intros Hh.
  - destruct (Hok Hh) as [d Hd]. exists d. by rewrite Hd.
  - by rewrite (Hno Hh).
Qed.

(** *** Documents that do not load, and the empty document *)

Lemma startswith_differs (prefix s t : string) :
  startswith prefix s = true -> startswith prefix t = false -> String.eqb s t = false.
Proof. intros Hs Ht. apply String.eqb_neq. intros ->. congruence. Qed.

Lemma construct_python_tag (fs : filesystem) (fuel : nat) (node : Node) :
  startswith "tag:yaml.org,2002:python/" (node_tag node) = true ->
  construct_object SafeLoader fs (S fuel) node = Raises ConstructorError.
Proof.
  intros Htag. cbn [construct_object]. unfold construct_by_tag, string_in.
  cbn [existsb].
  repeat (rewrite (startswith_differs _ (node_tag node) _ Htag) by reflexivity).
  reflexivity.
Qed.

(** X13.  [load] takes the safe loader, which has no constructor for the
    tags of Python objects: a node with such a tag makes the constructor,
    and the load of a file whose document has it at the root, raise a
    [ConstructorError]. *)
Theorem load_refuses_python_tags :
  forall fs fuel node,
    startswith "tag:yaml.org,2002:python/" (node_tag node) = true ->
    construct_object SafeLoader fs (S fuel) node = Raises ConstructorError
    /\ (forall file_path ignore_missing document,
          compose_node document = node ->
          fs_files fs !! file_path = Some (TextFile [document]) ->
          load fs file_path ignore_missing = Raises ConstructorError).
Proof.
  intros fs fuel node Htag. split; [by apply construct_python_tag|].
  intros file_path ignore_missing document Hnode Hfile.
  unfold load, isfile. rewrite Hfile, bool_decide_eq_true_2 by eauto.
  assert (Hroot : get_single_node [document] = Returns (Some node)).
  { destruct document; try (by rewrite <- Hnode). by subst node. }
  unfold ordered_load, yaml_load. rewrite Hroot. cbn [mbind result_bind].
  destruct (node_height node) as [|h] eqn:Hh.
  - pose proof (node_height_pos node). lia.
  - by rewrite construct_python_tag.
Qed.

(** X14.  A document that refers to an array in a file that is not there
    does not load: the constructor of [!extndarray] raises the
    [FileNotFoundError] of [numpy.load] for that file, and so does [load] of
    a configuration that has such a value, also when it is told to ignore a
    missing file. *)
Theorem missing_external_file_fails_the_load :
  forall fs path,
    fs_files fs !! path = None ->
    (forall base fuel,
        construct_object base fs (S fuel) (ScalarNode TAG_EXTNDARRAY path)
        = Raises (FileNotFoundError
                    ("[Errno 2] No such file or directory: '" +:+ path +:+ "'")))
    /\ (forall file_path ignore_missing key style,
          startswith "array(" key = false ->
          fs_files fs !! file_path
          = Some (TextFile [RawMapping None
                              [(RawScalar None Quoted key,
                                RawScalar (Some TAG_EXTNDARRAY) style path)]]) ->
          load fs file_path ignore_missing
          = Raises (FileNotFoundError
                      ("[Errno 2] No such file or directory: '" +:+ path +:+ "'"))).
Proof.
  intros fs path Hmissing.
  assert (Hnode : forall base fuel,
             construct_object base fs (S fuel) (ScalarNode TAG_EXTNDARRAY path)
             = Raises (FileNotFoundError
                         ("[Errno 2] No such file or directory: '" +:+ path +:+ "'"))).
  { intros base fuel. rewrite construct_external.
    unfold construct_external_ndarray, fs_read. cbn [construct_scalar mbind result_bind].
    by rewrite Hmissing. }
  split; [exact Hnode|].
  intros file_path ignore_missing key style Hkey Hfile.
  unfold load, isfile. rewrite Hfile, bool_decide_eq_true_2 by eauto.
  unfold ordered_load, yaml_load.
  cbn [get_single_node compose_node map fst snd default mbind result_bind].
  change (node_height _) with 2%nat.
  rewrite construct_map. unfold construct_mapping.
  rewrite flatten_plain by (repeat constructor; discriminate).
  cbn [mbind result_bind]. unfold construct_pairs. cbn [for_each fst snd].
  rewrite construct_text, (construct_str_plain _ Hkey). cbn [mbind result_bind].
  by rewrite Hnode.
Qed.

(** X15.  [ordered_load] never returns [None]: where the library gives
    [None], for a stream without a document and for a document that is a
    null scalar, it returns an empty [OrderedDict]. A stream with more than
    one document is refused with the [ComposerError] of the library. *)
Theorem ordered_load_never_returns_None :
  forall fs base,
    (forall stream v, ordered_load fs stream base = Returns v -> v <> VNone)
    /\ (forall style text,
          ordered_load fs [RawScalar (Some TAG_NULL) style text] base
          = Returns (VOrderedDict []))
    /\ Forall (fun text => ordered_load fs [RawScalar None Plain text] base
                           = Returns (VOrderedDict []))
              [""; "~"; "null"; "Null"; "NULL"]
    /\ (forall first second rest,
          ordered_load fs (first :: second :: rest) base = Raises ComposerError).
Proof.
  intros fs base. split_and!.
  - intros stream v H. unfold ordered_load in H.
    apply bind_Returns in H as (config & _ & H). by destruct config; injection H as <-.
  - reflexivity.
  - repeat constructor.
  - intros first second rest. by destruct first.
Qed.

(** *** Widths *)

Lemma thread_same {A B S} (f g : A -> S -> result (B * S)) (l : list A) :
  Forall (fun x => forall st, f x st = g x st) l ->
  forall st, thread f l st = thread g l st.
Proof.
  induction 1 as [|x l Hx _ IH]; intros st; cbn [thread]; [done|].
  rewrite Hx. destruct (g x st) as [[y st1]| |]; cbn [mbind result_bind]; [|done..].
  by rewrite IH.
Qed.

Lemma thread_map {A A' B S} (h : A' -> A) (f : A -> S -> result (B * S)) (l : list A') :
  forall st, thread f (map h l) st = thread (fun x => f (h x)) l st.
Proof.
  induction l as [|x l IH]; intros st; cbn [map thread]; [done|].
  destruct (f (h x) st) as [[y st1]| |]; cbn [mbind result_bind]; [|done..].
  by rewrite IH.
Qed.

Lemma represent_data_widen stream_name (data : Value) :
  forall st, represent_data stream_name (widen data) st = represent_data stream_name data st.
Proof.
  induction data as [| | | | | | |items IH|items IH|elements IH|a] using Value_nested_ind;
    intros st; cbn [widen represent_data]; try reflexivity.
  - unfold represent_sequence. rewrite thread_map.
    by rewrite (thread_same _ (represent_data stream_name) items IH).
  - unfold represent_ordereddict, represent_mapping.
    rewrite (thread_map (fun kv : Value * Value => (widen kv.1, widen kv.2))).
    rewrite (thread_same _ (represent_item (represent_data stream_name)) items); [done|].
    eapply Forall_impl; [exact IH|]. intros [k v] [Hk Hv] st0.
    unfold represent_item. cbn [fst snd] in Hk, Hv |- *. rewrite Hk.
    destruct (represent_data stream_name k st0) as [[nk st1]| |]; cbn [mbind result_bind];
      [|done..].
    by rewrite Hv.
  - unfold represent_frozenset, represent_set. rewrite thread_map.
    rewrite (thread_same _ (represent_element (represent_data stream_name)) elements); [done|].
    eapply Forall_impl; [exact IH|]. intros k Hk st0.
    unfold represent_element. by rewrite Hk.
Qed.

(** X10.  The dump does not write the width of a number: a document and the
    document with every numpy scalar replaced by the Python number of the
    same value are dumped as the same text and the same files. *)
Theorem dump_forgets_widths :
  forall data stream_name fs,
    ordered_dump (widen data) stream_name fs = ordered_dump data stream_name fs.
Proof. intros data stream_name fs. unfold ordered_dump. by rewrite represent_data_widen. Qed.

(** *** Arrays and their files when every write succeeds *)

Lemma thread_numbered {A B} (name : string)
    (f : A -> dumper_state -> result (B * dumper_state))
    (arrays : A -> list ndarray) (nodes : B -> list (string * string)) (l : list A) :
  Forall (fun x => forall st y st',
              (forall k, fs_writable (dumper_fs st) (external_path name k) = true) ->
              f x st = Returns (y, st') ->
              nodes y = map (fun k => (TAG_EXTNDARRAY, external_path name k))
                            (seq (external_ndarray_counter st) (length (arrays x)))
              /\ external_ndarray_counter st'
                 = (external_ndarray_counter st + length (arrays x))%nat
              /\ fs_writable (dumper_fs st') = fs_writable (dumper_fs st)) l ->
  forall st ys st',
    (forall k, fs_writable (dumper_fs st) (external_path name k) = true) ->
    thread f l st = Returns (ys, st') ->
    concat (map nodes ys)
    = map (fun k => (TAG_EXTNDARRAY, external_path name k))
          (seq (external_ndarray_counter st) (length (concat (map arrays l))))
    /\ external_ndarray_counter st'
       = (external_ndarray_counter st + length (concat (map arrays l)))%nat
    /\ fs_writable (dumper_fs st') = fs_writable (dumper_fs st).
Proof.
  induction 1 as [|x rest Hx _ IH]; intros st ys st' Hw H; cbn [thread] in H.
  - injection H as <- <-. cbn. split_and!; [done|lia|done].
  - apply bind_Returns in H as ([y st1] & Hy & H).
    apply bind_Returns in H as ([ys' st2] & Hys & H). injection H as <- <-.
    destruct (Hx _ _ _ Hw Hy) as (Hnodes & Hcount & Hsame).
    assert (Hw1 : forall k, fs_writable (dumper_fs st1) (external_path name k) = true)
      by (intros k; by rewrite Hsame).
    destruct (IH _ _ _ Hw1 Hys) as (Hnodes' & Hcount' & Hsame').
    cbn [map concat]. rewrite length_app, seq_app, map_app, Hnodes, Hnodes', Hcount.
    split_and!; [done|lia|congruence].
Qed.

Lemma represent_data_numbered (name : string) (data : Value) :
  forall st node st',
    (forall k, fs_writable (dumper_fs st) (external_path name k) = true) ->
    represent_data (Some name) data st = Returns (node, st') ->
    array_nodes node
    = map (fun k => (TAG_EXTNDARRAY, external_path name k))
          (seq (external_ndarray_counter st) (length (arrays_of data)))
    /\ external_ndarray_counter st'
       = (external_ndarray_counter st + length (arrays_of data))%nat
    /\ fs_writable (dumper_fs st') = fs_writable (dumper_fs st).
Proof.
  induction data as [| | | | | | |items IH|items IH|elements IH|a] using Value_nested_ind;
    intros st node st' Hw H; cbn [represent_data] in H;
    unfold represent_none, represent_int, represent_float in H;
    try (injection H as <- <-; cbn; split_and!; [done|lia|done]).
  - unfold represent_sequence in H.
    apply bind_Returns in H as ([ns st1] & Hth & H). injection H as <- <-.
    cbn [arrays_of array_nodes].
    by apply (thread_numbered name _ arrays_of array_nodes items IH _ _ _ Hw Hth).
  - unfold represent_ordereddict, represent_mapping in H.
    apply bind_Returns in H as ([ns st1] & Hth & H). injection H as <- <-.
    cbn [arrays_of array_nodes].
    refine (thread_numbered name _ (fun kv : Value * Value => arrays_of kv.1 ++ arrays_of kv.2)
              (fun kv : Node * Node => array_nodes kv.1 ++ array_nodes kv.2)
              items _ _ _ _ Hw Hth).
    eapply Forall_impl; [exact IH|]. intros [k v] [IHk IHv] st0 [nk nv] st2 Hw0 Hitem.
    unfold represent_item in Hitem. cbn [fst snd] in *.
    apply bind_Returns in Hitem as ([nk' st1'] & Hnk & Hitem).
    apply bind_Returns in Hitem as ([nv' st2'] & Hnv & Hitem). injection Hitem as <- <- <-.
    destruct (IHk _ _ _ Hw0 Hnk) as (Hn1 & Hc1 & Hs1).
    assert (Hw1 : forall j, fs_writable (dumper_fs st1') (external_path name j) = true)
      by (intros j; by rewrite Hs1).
    destruct (IHv _ _ _ Hw1 Hnv) as (Hn2 & Hc2 & Hs2).
    rewrite length_app, seq_app, map_app, Hn1, Hn2, Hc1.
    split_and!; [done|lia|congruence].
  - unfold represent_frozenset, represent_set in H.
    apply bind_Returns in H as ([n1 st1] & H1 & H). injection H as <- <-.
    apply bind_Returns in H1 as ([ns st2] & Hth & H1). injection H1 as <- <-.
    cbn [set_tag arrays_of array_nodes].
    refine (thread_numbered name _ arrays_of
              (fun kv : Node * Node => array_nodes kv.1 ++ array_nodes kv.2)
              elements _ _ _ _ Hw Hth).
    eapply Forall_impl; [exact IH|]. intros k IHk st0 [nk nv] st3 Hw0 Hitem.
    unfold represent_element, represent_none in Hitem.
    apply bind_Returns in Hitem as ([nk' st1'] & Hnk & Hitem). injection Hitem as <- <- <-.
    cbn [fst snd array_nodes String.eqb Ascii.eqb Bool.eqb orb]. rewrite app_nil_r.
    by apply IHk.
  - unfold represent_ndarray, fs_write in H. cbn in H. rewrite Hw in H. cbn in H.
    injection H as <- <-. cbn. split_and!; [done|lia|done].
Qed.

(** X9.  When every file beside the stream can be written, every array of
    the document goes to a file: the arrays are numbered from 0 in the order
    of the document, the node of an array is the [!extndarray] node with the
    name of the file of its number, and that file holds the archive of the
    array after the dump. *)
Theorem arrays_go_to_files_in_order :
  forall data name fs stream fs',
    (forall k, fs_writable fs (external_path name k) = true) ->
    ordered_dump data (Some name) fs = Returns (stream, fs') ->
    exists node,
      stream = [serialize_node node]
      /\ array_nodes node
         = map (fun k => (TAG_EXTNDARRAY, external_path name k))
               (seq 0 (length (arrays_of data)))
      /\ Forall2 (fun a k => fs_files fs' !! external_path name k
                             = Some (BinaryFile (savez_compressed a)))
                 (arrays_of data) (seq 0 (length (arrays_of data))).
Proof.
  intros data name fs stream fs' Hw H.
  apply ordered_dump_Returns in H as (node & st' & Hrep & -> & ->).
  destruct (represent_data_numbered name data
              {| external_ndarray_counter := O; dumper_fs := fs |} _ _ Hw Hrep)
    as (Hnodes & _ & _).
  cbn [external_ndarray_counter] in Hnodes.
  exists node. split_and!; [done|exact Hnodes|].
  pose proof (represent_data_arrays (Some name) data _ _ _ Hrep (dumper_fs st')
                (fun q _ => eq_refl)) as Harrays.
  rewrite Hnodes in Harrays.
  apply (proj1 (Forall2_fmap_r (fun k => (TAG_EXTNDARRAY, external_path name k))
                  (array_node (Some name) (fs_files (dumper_fs st'))) _ _)) in Harrays.
  eapply Forall2_impl; [exact Harrays|]. cbn [compose].
  intros a k [Hinline|(name' & k' & Hname & Hnode & Hfile)].
  - discriminate Hinline.
  - injection Hnode as Hpath. by rewrite Hpath.
Qed.

(** *** Arrays written as text *)

Lemma bind_ret {A} (m : result A) : (m ≫= fun x => Returns x) = m.
Proof. by destruct m. Qed.

Lemma lex_blanks (k : nat) (rest : list ascii) :
  lex_from LIdle (replicate k " "%char ++ rest) = lex_from LIdle rest.
Proof.
  induction k as [|k IH]; [done|]. cbn [replicate app lex_from].
  change (lex_step LIdle " ") with (Returns (@nil token, LIdle)).
  cbn [mbind result_bind]. rewrite IH. apply bind_ret.
Qed.

Lemma digit_idle (c : ascii) : is_digit c = true -> idle_step c = Returns ([], LInt [c]).
Proof. destruct c as [[] [] [] [] [] [] [] []]; intros H; try discriminate H; reflexivity. Qed.

Lemma lex_digits (ds : list ascii) :
  Forall (fun c => is_digit c = true) ds ->
  forall acc rest,
    lex_from (LInt acc) (ds ++ rest) = lex_from (LInt (rev ds ++ acc)) rest.
Proof.
  induction 1 as [|c ds Hc _ IH]; intros acc rest; [done|].
  cbn [app lex_from lex_step]. rewrite Hc. cbn [mbind result_bind].
  rewrite IH, bind_ret. cbn [rev]. by rewrite <- app_assoc.
Qed.

Lemma int_text_head (n : nat) :
  exists c r,
    chars (int_text (Z.of_nat n)) = c :: r
    /\ (c <> "0"%char \/ r = [])
    /\ Forall (fun c => is_digit c = true) (c :: r).
Proof.
  destruct (Z.of_nat n) as [|p|p] eqn:Hn; [|  |lia].
  - exists "0"%char, []. split_and!; [done|by right|by repeat constructor].
  - unfold int_text. cbn [Z.to_int NilZero.string_of_int].
    destruct (pos_text_head p) as (c & rest & -> & Hc & Hnz & Hrest & _).
    exists c, (chars rest). split_and!; [done|by left|by constructor].
Qed.

Lemma int_token_text (n : nat) :
  int_token (rev (chars (int_text (Z.of_nat n)))) = Returns (TInt (Z.of_nat n)).
Proof.
  unfold int_token. rewrite rev_involutive. pose proof (int_text_value n) as Hval.
  destruct (int_text_head n) as (c & r & Hds & Hhead & _).
  rewrite Hds in Hval |- *. rewrite <- Hval.
  destruct Hhead as [Hc| ->].
  - destruct r; destruct c as [[] [] [] [] [] [] [] []]; solve [reflexivity|by destruct Hc].
  - destruct c as [[] [] [] [] [] [] [] []]; reflexivity.
Qed.

Lemma lex_padded (item : nat * nat) (c : ascii) (rest : list ascii) :
  c = ","%char \/ c = "]"%char ->
  lex_from LIdle (chars (padded item) ++ c :: rest)
  = more ← lex_from LIdle rest;
    Returns (TInt (Z.of_nat item.2) :: separator_token c :: more).
Proof.
  intros Hc. unfold padded. rewrite chars_app. unfold chars at 1.
  rewrite list_ascii_of_string_of_list_ascii, <- app_assoc, lex_blanks.
  pose proof (int_token_text item.2) as Htoken.
  destruct (int_text_head item.2) as (d & r & Hds & _ & Hdigits).
  rewrite Hds in Htoken |- *. apply Forall_cons in Hdigits as [Hd Hr].
  cbn [app lex_from]. change (lex_step LIdle d) with (idle_step d).
  rewrite (digit_idle d Hd). cbn [mbind result_bind].
  rewrite (lex_digits r Hr). cbn [rev] in Htoken.
  cbn [lex_from lex_step].
  assert (Hsep : is_digit c = false /\ is_name_start c || Ascii.eqb c "." = false
                 /\ idle_step c = Returns ([separator_token c], LIdle)).
  { by destruct Hc as [-> | ->]. }
  destruct Hsep as (-> & -> & Hidle). rewrite Htoken. cbn [mbind result_bind].
  unfold after_token. rewrite Hidle. cbn [mbind result_bind].
  destruct (lex_from LIdle rest); done.
Qed.

Lemma lex_joined (items : list (nat * nat)) :
  items <> [] ->
  forall rest,
    lex_from LIdle (chars (joined items) ++ "]"%char :: rest)
    = more ← lex_from LIdle rest; Returns (item_tokens items ++ TRBrack :: more).
Proof.
  induction items as [|item items IH]; [done|]. intros _ rest.
  destruct items as [|item' items].
  - cbn [joined item_tokens]. rewrite lex_padded by (by right). done.
  - change (joined (item :: item' :: items))
      with (padded item +:+ "," +:+ joined (item' :: items)).
    change (item_tokens (item :: item' :: items))
      with (TInt (Z.of_nat item.2) :: TComma :: item_tokens (item' :: items)).
    rewrite !chars_app, <- !app_assoc. change (chars "," ++ ?l) with (","%char :: l).
    rewrite lex_padded by (by left). rewrite IH by done.
    destruct (lex_from LIdle rest); done.
Qed.

Lemma lex_array_repr (items : list (nat * nat)) :
  items <> [] ->
  lex (array_repr items)
  = Returns (TName "array" :: TLParen :: TLBrack :: item_tokens items ++ [TRBrack; TRParen]).
Proof.
  intros Hne. unfold lex, array_repr. rewrite !chars_app.
  change (chars "array([") with ["a"; "r"; "r"; "a"; "y"; "("; "["]%char.
  change (chars "])") with ["]"; ")"]%char.
  cbn [app]. 
  assert (Hstart : forall l,
             lex_from LIdle ("a" :: "r" :: "r" :: "a" :: "y" :: "(" :: "[" :: l)%char
             = more ← lex_from LIdle l;
               Returns (TName "array" :: TLParen :: TLBrack :: more)).
  { intros l. cbn [lex_from]. change (lex_step LIdle "a") with (idle_step "a").
    repeat match goal with
           | |- context [idle_step ?c] =>
               let r := eval vm_compute in (idle_step c) in
               change (idle_step c) with r; cbn [mbind result_bind]
           | |- context [lex_step ?st ?c] =>
               let r := eval vm_compute in (lex_step st c) in
               change (lex_step st c) with r; cbn [mbind result_bind]
           end.
    destruct (lex_from LIdle l); done. }
  rewrite Hstart, (lex_joined items Hne). reflexivity.
Qed.

Lemma parse_items_more (fuel : nat) (z : Z) (more : list token) :
  (2 <= fuel)%nat ->
  parse_items (S fuel) (TInt z :: TComma :: more)
  = '(es, rest) ← parse_items fuel more; Returns (EIntLit z :: es, rest).
Proof. intros H. destruct fuel as [|[|fuel]]; [lia..|reflexivity]. Qed.

Lemma parse_items_last (fuel : nat) (z : Z) (rest : list token) :
  (2 <= fuel)%nat ->
  parse_items (S fuel) (TInt z :: TRBrack :: rest) = Returns ([EIntLit z], rest).
Proof. intros H. destruct fuel as [|[|fuel]]; [lia..|reflexivity]. Qed.

Lemma parse_int_items (items : list (nat * nat)) :
  items <> [] ->
  forall fuel rest,
    (length items + 2 <= fuel)%nat ->
    parse_items fuel (item_tokens items ++ TRBrack :: rest) = Returns (item_exprs items, rest).
Proof.
  induction items as [|item items IH]; [done|]. intros _ fuel rest Hfuel.
  destruct fuel as [|fuel]; cbn [length] in Hfuel; [lia|].
  destruct items as [|item' items].
  - apply parse_items_last. lia.
  - change (item_tokens (item :: item' :: items))
      with (TInt (Z.of_nat item.2) :: TComma :: item_tokens (item' :: items)).
    cbn [app]. rewrite parse_items_more by lia.
    rewrite IH by (done || cbn [length] in *; lia). reflexivity.
Qed.

Lemma item_tokens_length (items : list (nat * nat)) :
  (length items <= length (item_tokens items))%nat.
Proof.
  induction items as [|item [|item' items] IH]; cbn [length item_tokens] in *; lia.
Qed.

Lemma parse_array_repr (items : list (nat * nat)) :
  items <> [] ->
  parse (array_repr items) = Returns (ECall (EName "array") [EListDisplay (item_exprs items)] []).
Proof.
  intros Hne. unfold parse. rewrite (lex_array_repr items Hne). cbn [mbind result_bind].
  pose proof (item_tokens_length items) as Hlen.
  assert (Hfuel : exists fuel,
             (3 * length (TName "array" :: TLParen :: TLBrack
                          :: item_tokens items ++ [TRBrack; TRParen]) + 3
              = S (S (S (S (S fuel)))))%nat
             /\ (length items + 2 <= S fuel)%nat).
  { cbn [length]. rewrite length_app. cbn [length].
    exists (3 * (S (S (S (length (item_tokens items) + 2)))) + 3 - 5)%nat. lia. }
  destruct Hfuel as (fuel & -> & Hfuel).
  cbn [parse_expr parse_trailers parse_args].
  rewrite (parse_int_items items Hne (S fuel) [TRParen] Hfuel).
  reflexivity.
Qed.

Lemma eval_int_items (globals : gmap string pyobj) (items : list (nat * nat)) :
  eval_expr globals (EListDisplay (item_exprs items))
  = Returns (PyList (map (fun item => PyInt (Z.of_nat item.2)) items), []).
Proof.
  cbn [eval_expr].
  match goal with
  | |- context [mbind _ (?go (item_exprs items))] =>
      assert (Hgo : go (item_exprs items)
                    = Returns (map (fun item => PyInt (Z.of_nat item.2)) items, []));
      [|by rewrite Hgo]
  end.
  induction items as [|item items IH]; [done|].
  cbn [item_exprs map eval_expr mbind result_bind]. unfold item_exprs in IH. by rewrite IH.
Qed.

Lemma int_items_list (zs : list Z) :
  zs <> [] -> int_items (PyList (map PyInt zs)) = Returns ([length zs], zs).
Proof.
  intros Hne. cbn [int_items].
  match goal with
  | |- context [mbind _ (?go (map PyInt zs))] =>
      assert (Hgo : go (map PyInt zs) = Returns (map (fun z => ([], [z])) zs));
      [|rewrite Hgo]
  end.
  { clear Hne. induction zs as [|z zs IH]; [done|].
    cbn [map int_items mbind result_bind]. by rewrite IH. }
  cbn [mbind result_bind]. destruct zs as [|z zs]; [done|]. cbn [map].
  assert (Hshape : forallb (fun c : list nat * list Z => shape_eqb c.1 [])
                     (([], [z]) :: map (fun z => ([], [z])) zs) = true).
  { apply forallb_forall. intros c [<-|(z' & <- & _)%in_map_iff]; done. }
  rewrite Hshape. cbn [length map concat snd app]. rewrite length_map. do 3 f_equal.
  clear. induction zs as [|z' zs IH]; [done|]. cbn [map concat snd app]. by rewrite IH.
Qed.

Lemma array_repr_lookups (items : list (nat * nat)) :
  items <> [] ->
  Forall (fun item => Z.of_nat item.2 < 2 ^ 63) items ->
  construct_str_lookups (array_repr items)
  = Returns (VArray {| arr_dtype := IntType int64;
                       arr_shape := [length items];
                       arr_data := map (fun item => EInt (Z.of_nat item.2)) items |},
             [("array", PyCallable NumpyArray)]).
Proof.
  intros Hne Hfit. unfold construct_str_lookups.
  assert (Hstart : startswith "array(" (array_repr items) = true) by reflexivity.
  rewrite Hstart. unfold python_eval.
  destruct eval_namespace as [ns| |] eqn:Hns; [|vm_compute in Hns; discriminate Hns..].
  cbn [mbind result_bind]. rewrite (parse_array_repr items Hne). cbn [mbind result_bind].
  set (globals := match ns !! "__builtins__" with
                  | Some _ => ns
                  | None => <["__builtins__" := PyModule "builtins"]> ns
                  end).
  assert (Harray : lookup_name globals "array" = Returns (PyCallable NumpyArray)).
  { vm_compute in Hns. injection Hns as <-. subst globals. vm_compute. reflexivity. }
  change (eval_expr globals (ECall (EName "array") [EListDisplay (item_exprs items)] []))
    with ('(f, l0) ← (v ← lookup_name globals "array"; Returns (v, [("array", v)]));
          '(vs, l1) ← ('(v, l1) ← eval_expr globals (EListDisplay (item_exprs items));
                       Returns ([v], l1 ++ []));
          v ← call f vs []; Returns (v, l0 ++ l1 ++ [])).
  rewrite Harray, eval_int_items. cbn [mbind result_bind call numpy_array array_arguments].
  rewrite <- (map_map (fun item : nat * nat => Z.of_nat item.2) PyInt).
  rewrite int_items_list by (by destruct items).
  cbn [mbind result_bind].
  assert (Hall : forallb (fits int64) (map (fun item : nat * nat => Z.of_nat item.2) items)
                 = true).
  { apply forallb_forall. intros z (item & <- & Hin)%in_map_iff.
    rewrite Forall_forall in Hfit. specialize (Hfit item (proj2 (list_elem_of_In _ _) Hin)).
    unfold fits. cbn [int_bounds fst snd]. apply andb_true_iff. split; lia. }
  rewrite Hall.
  destruct (map (fun item : nat * nat => Z.of_nat item.2) items) as [|z zs] eqn:Hzs;
    [by destruct items|].
  cbn [mbind result_bind value_of_pyobj try_except_SyntaxError app].
  rewrite <- Hzs, length_map, map_map. reflexivity.
Qed.

Lemma array_repr_value (items : list (nat * nat)) :
  items <> [] ->
  Forall (fun item => Z.of_nat item.2 < 2 ^ 63) items ->
  construct_str_value (array_repr items)
  = Returns (VArray {| arr_dtype := IntType int64;
                       arr_shape := [length items];
                       arr_data := map (fun item => EInt (Z.of_nat item.2)) items |}).
Proof.
  intros Hne Hfit. unfold construct_str_value. by rewrite (array_repr_lookups items Hne Hfit).
Qed.

(** X16.  A string that holds the text of a one-dimensional array of
    integers, as numpy writes it on one line, loads as that array:
    [construct_str] evaluates it, the only name that the evaluation resolves
    is [array], and the value is the array of the numbers in their order, of
    type [int64]. *)
Theorem array_repr_loads_as_array :
  forall items tag,
    items <> [] ->
    Forall (fun item => Z.of_nat item.2 < 2 ^ 63) items ->
    construct_str_lookups (array_repr items)
    = Returns (VArray {| arr_dtype := IntType int64;
                         arr_shape := [length items];
                         arr_data := map (fun item => EInt (Z.of_nat item.2)) items |},
               [("array", PyCallable NumpyArray)])
    /\ construct_str (ScalarNode tag (array_repr items))
       = Returns (VArray {| arr_dtype := IntType int64;
                            arr_shape := [length items];
                            arr_data := map (fun item => EInt (Z.of_nat item.2)) items |}).
Proof.
  intros items tag Hne Hfit. split; [by apply array_repr_lookups|].
  unfold construct_str. cbn [construct_scalar mbind result_bind].
  by apply array_repr_value.
Qed.

Lemma resolve_plain_array_repr (items : list (nat * nat)) :
  resolve_plain (array_repr items) = TAG_STR.
Proof. reflexivity. Qed.

(** X17.  A string value that holds the text of an array does not come back
    from a dump and a load: the dump writes the string, and the load
    evaluates it and returns the array. *)
Theorem array_text_value_comes_back_as_array :
  forall key items stream_name fs base,
    startswith "array(" key = false ->
    items <> [] ->
    Forall (fun item => Z.of_nat item.2 < 2 ^ 63) items ->
    exists stream,
      ordered_dump (VOrderedDict [(VStr key, VStr (array_repr items))]) stream_name fs
      = Returns (stream, fs)
      /\ ordered_load fs stream base
         = Returns (VOrderedDict
                      [(VStr key,
                        VArray {| arr_dtype := IntType int64;
                                  arr_shape := [length items];
                                  arr_data :=
                                    map (fun item => EInt (Z.of_nat item.2)) items |})]).
Proof.
  intros key items stream_name fs base Hkey Hne Hfit.
  eexists. split; [reflexivity|].
  unfold ordered_load, yaml_load. rewrite get_single_serialize by reflexivity.
  cbn [mbind result_bind]. change (node_height _) with 2%nat.
  rewrite construct_map. unfold construct_mapping.
  rewrite flatten_plain by (repeat constructor; discriminate).
  cbn [mbind result_bind]. unfold construct_pairs. cbn [for_each fst snd].
  rewrite !construct_text, (construct_str_plain _ Hkey), (array_repr_value items Hne Hfit).
  reflexivity.
Qed.

(** X18.  A key that holds the text of an array makes the load of its
    mapping fail: the key is evaluated as the array, which cannot be hashed,
    and the [OrderedDict] constructor raises [TypeError]. *)
Theorem array_text_key_fails_the_load :
  forall fs base items style value v,
    items <> [] ->
    Forall (fun item => Z.of_nat item.2 < 2 ^ 63) items ->
    loads_back base fs (compose_node value) v ->
    ordered_load fs [RawMapping None [(RawScalar None style (array_repr items), value)]] base
    = Raises TypeError.
Proof.
  intros fs base items style value v Hne Hfit Hvalue.
  assert (Hdoc : compose_node (RawMapping None [(RawScalar None style (array_repr items),
                                                  value)])
                 = MappingNode DEFAULT_MAPPING_TAG
                     [(ScalarNode TAG_STR (array_repr items), compose_node value)]).
  { destruct style; cbn [compose_node map fst snd default];
      by rewrite ?resolve_plain_array_repr. }
  unfold ordered_load, yaml_load, get_single_node. cbn [mbind result_bind]. rewrite Hdoc.
  set (node := MappingNode DEFAULT_MAPPING_TAG
                 [(ScalarNode TAG_STR (array_repr items), compose_node value)]).
  destruct (height_pair DEFAULT_MAPPING_TAG
              [(ScalarNode TAG_STR (array_repr items), compose_node value)]
              (ScalarNode TAG_STR (array_repr items), compose_node value)
              ltac:(apply list_elem_of_here)) as [Hh1 Hh2].
  fold node in Hh1, Hh2. cbn [fst snd] in Hh1, Hh2.
  destruct (node_height node) as [|[|h]] eqn:Hh; [lia|cbn [node_height] in Hh1; lia|].
  unfold node. rewrite construct_map. unfold construct_mapping.
  rewrite flatten_plain by (repeat constructor; discriminate).
  cbn [mbind result_bind]. unfold construct_pairs. cbn [for_each fst snd].
  rewrite construct_text, (array_repr_value items Hne Hfit). cbn [mbind result_bind].
  rewrite (Hvalue (S h)) by lia. reflexivity.
Qed.

End Codec.

(** ** The statements at sample inputs *)

Local Abbreviation sample_dump :=
  (ordered_dump Sample.float_text Sample.savez_compressed Sample.b64encode).
Local Abbreviation sample_load :=
  (ordered_load Sample.float_value Sample.numpy_load Sample.b64decode).
Local Abbreviation sample_faithful :=
  (faithful Sample.float_text Sample.float_value Sample.savez_compressed
            Sample.numpy_load Sample.b64encode Sample.b64decode).

(** C2 (the code departs from the claim).  The namespace that
    [construct_str] hands to [eval] holds the names of the allow-list, each
    bound to the numpy object of that name, and no other name.  It does not
    bound what the evaluation reaches: [eval] enters the builtins of Python
    into the namespace it is given.  The string [array(len([1, 2]))] starts
    with [array(]; its evaluation resolves the name [len], which is not on
    the allow-list, to the builtin, calls it, and returns the array of its
    result.  In the same way the evaluation of
    [array(len([__import__('os')]))] resolves and calls [__import__], which
    imports a module. *)
Theorem evaluation_reaches_builtins :
  (exists ns,
      eval_namespace = Returns ns
      /\ (forall name obj,
            ns !! name = Some obj
            <-> In name allow_list /\ numpy_getattr name = Returns obj)
      /\ ns !! "__builtins__" = None)
  /\ startswith "array(" "array(len([1, 2]))" = true
  /\ construct_str_lookups "array(len([1, 2]))"
     = Returns (VArray {| arr_dtype := IntType int64; arr_shape := [];
                          arr_data := [EInt 2] |},
                [("array", PyCallable NumpyArray); ("len", PyCallable (Builtin "len"))])
  /\ ~ In "len" allow_list
  /\ startswith "array(" "array(len([__import__('os')]))" = true
  /\ construct_str_lookups "array(len([__import__('os')]))"
     = Returns (VArray {| arr_dtype := IntType int64; arr_shape := [];
                          arr_data := [EInt 1] |},
                [("array", PyCallable NumpyArray); ("len", PyCallable (Builtin "len"));
                 ("__import__", PyCallable (Builtin "__import__"))])
  /\ ~ In "__import__" allow_list.
Proof.
  split.
  { destruct eval_namespace as [ns| |] eqn:Hns; [|vm_compute in Hns; discriminate Hns..].
    exists ns. split; [done|]. split; [by apply eval_namespace_lookup|].
    destruct (ns !! "__builtins__") as [x|] eqn:Hx; [|done].
    apply (eval_namespace_lookup ns Hns) in Hx as [Hin _].
    cbn in Hin. repeat (destruct Hin as [Hin|Hin]; [discriminate Hin|]). destruct Hin. }
  split_and!; try (vm_compute; reflexivity);
    intros Hin; cbn in Hin;
    repeat (destruct Hin as [Hin|Hin]; [discriminate Hin|]); destruct Hin.
Qed.



(** C6, the claim as stated fails.  A document with an array and with a key
    that holds the text of an array is dumped to a named stream: the array
    goes to the file [conf/app-000000.npz] and its node is the [!extndarray]
    node of that file.  The load of the document that was written
    evaluates the key and raises [TypeError]: no array is restored. *)
Lemma array_text_key_blocks_the_arrays :
  let D := VOrderedDict [(VStr "dark", VArray Sample.grid); (VStr "array([1, 2])", VInt 5)] in
  exists stream fs' node,
    sample_dump D (Some "conf/app.cfg") Sample.writable_fs = Returns (stream, fs')
    /\ stream = [serialize_node node]
    /\ array_nodes node = [(TAG_EXTNDARRAY, "conf/app-000000.npz")]
    /\ fs_files fs' !! "conf/app-000000.npz"
       = Some (BinaryFile (Sample.savez_compressed Sample.grid))
    /\ sample_load fs' stream SafeLoader = Raises TypeError
    /\ sample_load fs' stream Loader = Raises TypeError.
Proof.
  cbv zeta. eexists _, _, _. split; [reflexivity|]. split; [reflexivity|].
  split_and!; vm_compute; reflexivity.
Qed.


Lemma load_missing_and_existing_witness :
  isfile Sample.config_fs "missing.cfg" = false
  /\ load Sample.float_value Sample.numpy_load Sample.b64decode
          Sample.config_fs "missing.cfg" true = Returns (VOrderedDict [])
  /\ load Sample.float_value Sample.numpy_load Sample.b64decode
          Sample.config_fs "missing.cfg" false
     = Raises (FileNotFoundError
                 ("Could not load config file " +:+ quoted "missing.cfg"
                    +:+ ". File not found"))
  /\ fs_files Sample.config_fs !! "app.cfg" = Some (TextFile Sample.config_text)
  /\ load Sample.float_value Sample.numpy_load Sample.b64decode
          Sample.config_fs "app.cfg" false
     = sample_load Sample.config_fs Sample.config_text SafeLoader.
Proof.
  assert (Hmissing : isfile Sample.config_fs "missing.cfg" = false) by (vm_compute; reflexivity).
  assert (Hfile : fs_files Sample.config_fs !! "app.cfg" = Some (TextFile Sample.config_text))
    by (vm_compute; reflexivity).
  destruct (load_missing_and_existing Sample.float_value Sample.numpy_load Sample.b64decode
              Sample.config_fs "missing.cfg") as [Hm _].
  destruct (load_missing_and_existing Sample.float_value Sample.numpy_load Sample.b64decode
              Sample.config_fs "app.cfg") as [_ He].
  destruct (Hm Hmissing) as [H1 H2].
  split_and!; [exact Hmissing|exact H1|exact H2|exact Hfile|exact (He _ false Hfile)].
Defined.

Lemma external_write_failure_embeds_inline_witness :
  let st := {| external_ndarray_counter := O; dumper_fs := Sample.readonly_fs |} in
  let embedded :=
    (TAG_NDARRAY, Sample.b64encode (Sample.savez_compressed Sample.grid)) in
  (forall name,
      Some "conf/app.cfg" = Some name ->
      exists e, fs_write (dumper_fs st) (external_path name (external_ndarray_counter st))
                         (Sample.savez_compressed Sample.grid) = Raises e)
  /\ represent_ndarray Sample.savez_compressed Sample.b64encode
                       (Some "conf/app.cfg") Sample.grid st
     = Returns (ScalarNode TAG_NDARRAY
                  (Sample.b64encode (Sample.savez_compressed Sample.grid)), st)
  /\ (forall name k,
        Some "conf/app.cfg" = Some name ->
        fs_writable Sample.readonly_fs (external_path name k) = false)
  /\ exists node fs',
       sample_dump (VOrderedDict Sample.document) (Some "conf/app.cfg") Sample.readonly_fs
       = Returns ([serialize_node node], fs')
       /\ array_nodes node = [embedded; embedded]
       /\ (forall q, Some "conf/app.cfg" <> Some q ->
                     fs_files fs' !! q = fs_files Sample.readonly_fs !! q).
Proof.
  cbv zeta.
  assert (Hfail : forall name,
             Some "conf/app.cfg" = Some name ->
             exists e, fs_write Sample.readonly_fs (external_path name O)
                                (Sample.savez_compressed Sample.grid) = Raises e)
    by (intros name _; exists OSError; reflexivity).
  assert (Hall : forall name k,
             Some "conf/app.cfg" = Some name ->
             fs_writable Sample.readonly_fs (external_path name k) = false)
    by (intros name k _; reflexivity).
  destruct (external_write_failure_embeds_inline
              Sample.float_text Sample.savez_compressed Sample.b64encode)
    as (Hone & _ & Hdump).
  split_and!; [exact Hfail| |exact Hall|].
  - exact (Hone (Some "conf/app.cfg") Sample.grid
             {| external_ndarray_counter := O; dumper_fs := Sample.readonly_fs |} Hfail).
  - exact (Hdump (VOrderedDict Sample.document) (Some "conf/app.cfg") Sample.readonly_fs Hall).
Defined.

Lemma external_arrays_numbered_from_zero_witness :
  fs_writable Sample.writable_fs (external_path "conf/app.cfg" 0) = true
  /\ represent_ndarray Sample.savez_compressed Sample.b64encode (Some "conf/app.cfg")
       Sample.grid {| external_ndarray_counter := O; dumper_fs := Sample.writable_fs |}
     = Returns
         (ScalarNode TAG_EXTNDARRAY "conf/app-000000.npz",
          {| external_ndarray_counter := 1;
             dumper_fs :=
               {| fs_files :=
                    <["conf/app-000000.npz"
                      := BinaryFile (Sample.savez_compressed Sample.grid)]> ∅;
                  fs_writable := fun _ => true |} |})
  /\ supported (VOrderedDict Sample.document) = true
  /\ sample_faithful (VOrderedDict Sample.document)
  /\ exists stream fs' loaded,
       sample_dump (VOrderedDict Sample.document) (Some "conf/app.cfg") Sample.writable_fs
       = Returns (stream, fs')
       /\ sample_load fs' stream SafeLoader = Returns loaded
       /\ arrays_of loaded = [Sample.grid; Sample.grid].
Proof.
  assert (Hw : fs_writable Sample.writable_fs (external_path "conf/app.cfg" 0) = true)
    by reflexivity.
  assert (Hs : supported (VOrderedDict Sample.document) = true) by reflexivity.
  assert (Hf : sample_faithful (VOrderedDict Sample.document))
    by (cbn; repeat split; vm_compute; reflexivity).
  destruct (external_arrays_numbered_from_zero
              Sample.float_text Sample.float_value Sample.savez_compressed
              Sample.numpy_load Sample.b64encode Sample.b64decode)
    as (Hone & _ & _ & _ & _ & _ & _ & Hall).
  split_and!; [exact Hw| |exact Hs|exact Hf|].
  - exact (Hone "conf/app.cfg" Sample.grid
             {| external_ndarray_counter := O; dumper_fs := Sample.writable_fs |} Hw).
  - exact (Hall Sample.document "conf/app.cfg" Sample.writable_fs SafeLoader Hs Hf).
Defined.

Lemma duplicate_keys_last_value_wins_witness :
  let node :=
    MappingNode TAG_MAP [(ScalarNode TAG_STR "a", ScalarNode TAG_INT "1");
                         (ScalarNode TAG_STR "b", ScalarNode TAG_INT "2");
                         (ScalarNode TAG_STR "a", ScalarNode TAG_INT "3")] in
  let loader :=
    construct_object Sample.float_value Sample.numpy_load Sample.b64decode
                     SafeLoader Sample.writable_fs 1 in
  let items := [("a", VInt 1); ("b", VInt 2); ("a", VInt 3)] in
  flatten_mapping node
  = Returns [(ScalarNode TAG_STR "a", ScalarNode TAG_INT "1");
             (ScalarNode TAG_STR "b", ScalarNode TAG_INT "2");
             (ScalarNode TAG_STR "a", ScalarNode TAG_INT "3")]
  /\ construct_pairs loader [(ScalarNode TAG_STR "a", ScalarNode TAG_INT "1");
                             (ScalarNode TAG_STR "b", ScalarNode TAG_INT "2");
                             (ScalarNode TAG_STR "a", ScalarNode TAG_INT "3")]
     = Returns (str_items items)
  /\ construct_mapping loader node
     = Returns (VOrderedDict [(VStr "a", VInt 3); (VStr "b", VInt 2)])
  /\ exists d,
       construct_mapping loader node = Returns (VOrderedDict (str_items d))
       /\ d.*1 = first_occurrences items.*1
       /\ NoDup d.*1
       /\ (forall k v, (k, v) ∈ d <-> last_binding k items = Some v).
Proof.
  cbv zeta.
  match goal with
  | |- ?flat /\ ?built /\ _ =>
      assert (Hflat : flat) by (vm_compute; reflexivity);
      assert (Hpairs : built) by (vm_compute; reflexivity)
  end.
  split; [exact Hflat|]. split; [exact Hpairs|]. split; [vm_compute; reflexivity|].
  exact (duplicate_keys_last_value_wins _ _ _ [("a", VInt 1); ("b", VInt 2); ("a", VInt 3)]
           Hflat Hpairs).
Defined.

(** ** The further properties at sample inputs *)

Local Abbreviation sample_save :=
  (save Sample.float_text Sample.savez_compressed Sample.b64encode).
Local Abbreviation sample_load_file :=
  (load Sample.float_value Sample.numpy_load Sample.b64decode).
Local Abbreviation sample_construct :=
  (construct_object Sample.float_value Sample.numpy_load Sample.b64decode).

Lemma save_without_directory_raises_witness :
  char_in "/" "app.cfg" = false
  /\ sample_save Sample.conf_disk "app.cfg" (VOrderedDict Sample.document)
     = Raises (FileNotFoundError "[Errno 2] No such file or directory: ''").
Proof.
  assert (H : char_in "/" "app.cfg" = false) by reflexivity.
  split; [exact H|].
  exact (proj2 (save_without_directory_raises _ _ _ Sample.conf_disk "app.cfg"
                  (VOrderedDict Sample.document) H)).
Defined.



Lemma dump_changes_only_numbered_files_witness :
  exists stream fs',
    sample_dump (VOrderedDict Sample.document) (Some "conf/app.cfg") Sample.writable_fs
    = Returns (stream, fs')
    /\ exists node,
         stream = [serialize_node node]
         /\ external_nodes node
            = map (external_path "conf/app.cfg") (seq 0 (length (external_nodes node)))
         /\ ("conf/app.cfg" ∉ external_nodes node)
         /\ (forall q,
               q <> "conf/app.cfg" -> q ∉ external_nodes node ->
               fs_files fs' !! q = fs_files Sample.writable_fs !! q)
         /\ fs_writable fs' = fs_writable Sample.writable_fs.
Proof.
  destruct (sample_dump (VOrderedDict Sample.document) (Some "conf/app.cfg")
              Sample.writable_fs) as [[stream fs']| |] eqn:H;
    [|vm_compute in H; discriminate H..].
  exists stream, fs'. split; [reflexivity|].
  exact (dump_changes_only_numbered_files _ _ _ _ _ _ _ _ H).
Defined.

Lemma every_array_has_its_node_witness :
  exists stream fs',
    sample_dump (VOrderedDict Sample.document) (Some "conf/app.cfg") Sample.readonly_fs
    = Returns (stream, fs')
    /\ exists node,
         stream = [serialize_node node]
         /\ Forall2 (array_node Sample.savez_compressed Sample.b64encode
                                (Some "conf/app.cfg") (fs_files fs'))
                    (arrays_of (VOrderedDict Sample.document)) (array_nodes node).
Proof.
  destruct (sample_dump (VOrderedDict Sample.document) (Some "conf/app.cfg")
              Sample.readonly_fs) as [[stream fs']| |] eqn:H;
    [|vm_compute in H; discriminate H..].
  exists stream, fs'. split; [reflexivity|].
  exact (every_array_has_its_node _ _ _ _ _ _ _ _ H).
Defined.

Lemma save_changes_only_its_files_witness :
  exists d',
    sample_save Sample.conf_disk "conf/app.cfg" (VOrderedDict Sample.document) = Returns d'
    /\ (exists stream fs fs',
          sample_dump (VOrderedDict Sample.document) (Some "conf/app.cfg") fs
          = Returns (stream, fs')
          /\ disk_files d' !! "conf/app.cfg" = Some (TextFile stream))
    /\ (forall q,
          q <> "conf/app.cfg" -> (forall k, q <> external_path "conf/app.cfg" k) ->
          disk_files d' !! q = disk_files Sample.conf_disk !! q)
    /\ disk_dirs Sample.conf_disk ⊆ disk_dirs d'
    /\ disk_permits d' = disk_permits Sample.conf_disk.
Proof.
  destruct (sample_save Sample.conf_disk "conf/app.cfg" (VOrderedDict Sample.document))
    as [d'| |] eqn:H; [|vm_compute in H; discriminate H..].
  exists d'. split; [reflexivity|].
  exact (save_changes_only_its_files _ _ _ _ _ _ _ H).
Defined.

Lemma merge_key_gives_defaults_witness :
  let loader := sample_construct SafeLoader Sample.writable_fs 1 in
  let key := ScalarNode TAG_MERGE "<<" in
  let items_merged := [("a", VInt 1); ("b", VInt 2)] in
  let items_own := [("b", VInt 3); ("c", VInt 4)] in
  node_tag key = TAG_MERGE
  /\ Forall (fun kv => node_tag kv.1 <> TAG_MERGE /\ node_tag kv.1 <> TAG_VALUE)
            (Sample.merged_pairs ++ [] ++ Sample.own_pairs)
  /\ construct_pairs loader Sample.merged_pairs = Returns (str_items items_merged)
  /\ construct_pairs loader ([] ++ Sample.own_pairs) = Returns (str_items items_own)
  /\ construct_mapping loader
       (MappingNode TAG_MAP ([] ++ (key, MappingNode TAG_MAP Sample.merged_pairs)
                                :: Sample.own_pairs))
     = Returns (VOrderedDict [(VStr "a", VInt 1); (VStr "b", VInt 3); (VStr "c", VInt 4)])
  /\ exists d,
       construct_mapping loader
         (MappingNode TAG_MAP ([] ++ (key, MappingNode TAG_MAP Sample.merged_pairs)
                                  :: Sample.own_pairs))
       = Returns (VOrderedDict (str_items d))
       /\ d.*1 = first_occurrences (items_merged ++ items_own).*1
       /\ (forall k v, last_binding k items_own = Some v -> (k, v) ∈ d)
       /\ (forall k v, last_binding k items_own = None ->
                       last_binding k items_merged = Some v -> (k, v) ∈ d)
       /\ (forall k v, (k, v) ∈ d ->
                       last_binding k items_own = Some v
                       \/ (last_binding k items_own = None
                           /\ last_binding k items_merged = Some v)).
Proof.
  cbv zeta.
  assert (Hkey : node_tag (ScalarNode TAG_MERGE "<<") = TAG_MERGE) by reflexivity.
  assert (Hplain : Forall (fun kv : Node * Node =>
                             node_tag kv.1 <> TAG_MERGE /\ node_tag kv.1 <> TAG_VALUE)
                          (Sample.merged_pairs ++ [] ++ Sample.own_pairs))
    by (repeat constructor; discriminate).
  assert (Hm : construct_pairs (sample_construct SafeLoader Sample.writable_fs 1)
                 Sample.merged_pairs
               = Returns (str_items [("a", VInt 1); ("b", VInt 2)]))
    by (vm_compute; reflexivity).
  assert (Ho : construct_pairs (sample_construct SafeLoader Sample.writable_fs 1)
                 ([] ++ Sample.own_pairs)
               = Returns (str_items [("b", VInt 3); ("c", VInt 4)]))
    by (vm_compute; reflexivity).
  split_and!; try assumption; [vm_compute; reflexivity|].
  exact (merge_key_gives_defaults _ TAG_MAP TAG_MAP _ [] _ _ _ _ Hkey Hplain Hm Ho).
Defined.

Lemma unhashable_key_fails_the_mapping_witness :
  let loader := sample_construct SafeLoader Sample.writable_fs 2 in
  let pairs := [(SequenceNode TAG_SEQ [ScalarNode TAG_INT "1"], ScalarNode TAG_INT "2")] in
  let kvs := [(VList [VInt 1], VInt 2)] in
  flatten_mapping (MappingNode TAG_MAP pairs) = Returns pairs
  /\ construct_pairs loader pairs = Returns kvs
  /\ forallb hashable kvs.*1 = false
  /\ construct_mapping loader (MappingNode TAG_MAP pairs) = Raises TypeError.
Proof.
  cbv zeta.
  assert (Hflat : flatten_mapping
                    (MappingNode TAG_MAP
                       [(SequenceNode TAG_SEQ [ScalarNode TAG_INT "1"], ScalarNode TAG_INT "2")])
                  = Returns [(SequenceNode TAG_SEQ [ScalarNode TAG_INT "1"],
                              ScalarNode TAG_INT "2")])
    by reflexivity.
  assert (Hpairs : construct_pairs (sample_construct SafeLoader Sample.writable_fs 2)
                     [(SequenceNode TAG_SEQ [ScalarNode TAG_INT "1"], ScalarNode TAG_INT "2")]
                   = Returns [(VList [VInt 1], VInt 2)])
    by (vm_compute; reflexivity).
  assert (Hno : forallb hashable [(VList [VInt 1], VInt 2)].*1 = false) by reflexivity.
  split_and!; try assumption.
  exact (proj2 (unhashable_key_fails_the_mapping _ _ _ _ Hflat Hpairs) Hno).
Defined.

Lemma load_refuses_python_tags_witness :
  let tag := "tag:yaml.org,2002:python/object/apply:os.system" in
  let fs := {| fs_files := {["app.cfg" := TextFile [RawScalar (Some tag) Plain "ls"]]};
               fs_writable := fun _ => true |} in
  startswith "tag:yaml.org,2002:python/" (node_tag (ScalarNode tag "ls")) = true
  /\ sample_construct SafeLoader fs 1 (ScalarNode tag "ls") = Raises ConstructorError
  /\ sample_load_file fs "app.cfg" false = Raises ConstructorError.
Proof.
  cbv zeta.
  assert (H : startswith "tag:yaml.org,2002:python/"
                (node_tag (ScalarNode "tag:yaml.org,2002:python/object/apply:os.system" "ls"))
              = true) by reflexivity.
  split; [exact H|].
  match goal with
  | |- sample_construct _ ?fs _ ?node = _ /\ _ =>
      pose proof (load_refuses_python_tags Sample.float_value Sample.numpy_load
                    Sample.b64decode fs O node H) as [Hnode Hload]
  end.
  split; [exact Hnode|].
  apply (Hload "app.cfg" false
           (RawScalar (Some "tag:yaml.org,2002:python/object/apply:os.system") Plain "ls"));
    vm_compute; reflexivity.
Defined.

Lemma missing_external_file_fails_the_load_witness :
  fs_files Sample.config_fs !! "conf/app-000000.npz" = None
  /\ sample_construct SafeLoader Sample.config_fs 1
       (ScalarNode TAG_EXTNDARRAY "conf/app-000000.npz")
     = Raises (FileNotFoundError
                 "[Errno 2] No such file or directory: 'conf/app-000000.npz'").
Proof.
  assert (H : fs_files Sample.config_fs !! "conf/app-000000.npz" = None)
    by (vm_compute; reflexivity).
  split; [exact H|].
  exact (proj1 (missing_external_file_fails_the_load _ _ _ Sample.config_fs _ H) SafeLoader O).
Defined.

Lemma arrays_go_to_files_in_order_witness :
  (forall k, fs_writable Sample.writable_fs (external_path "conf/app.cfg" k) = true)
  /\ exists stream fs',
       sample_dump (VOrderedDict Sample.document) (Some "conf/app.cfg") Sample.writable_fs
       = Returns (stream, fs')
       /\ exists node,
            stream = [serialize_node node]
            /\ array_nodes node
               = map (fun k => (TAG_EXTNDARRAY, external_path "conf/app.cfg" k))
                     (seq 0 (length (arrays_of (VOrderedDict Sample.document))))
            /\ Forall2 (fun a k => fs_files fs' !! external_path "conf/app.cfg" k
                                   = Some (BinaryFile (Sample.savez_compressed a)))
                       (arrays_of (VOrderedDict Sample.document))
                       (seq 0 (length (arrays_of (VOrderedDict Sample.document)))).
Proof.
  assert (Hw : forall k, fs_writable Sample.writable_fs (external_path "conf/app.cfg" k) = true)
    by (intros k; reflexivity).
  split; [exact Hw|].
  destruct (sample_dump (VOrderedDict Sample.document) (Some "conf/app.cfg")
              Sample.writable_fs) as [[stream fs']| |] eqn:H;
    [|vm_compute in H; discriminate H..].
  exists stream, fs'. split; [reflexivity|].
  exact (arrays_go_to_files_in_order _ _ _ _ _ _ _ _ Hw H).
Defined.

Lemma array_repr_loads_as_array_witness :
  let items := [(O, 1%nat); (1%nat, 20%nat); (1%nat, 300%nat)] in
  array_repr items = "array([1, 20, 300])"
  /\ items <> []
  /\ Forall (fun item => Z.of_nat item.2 < 2 ^ 63) items
  /\ construct_str_lookups (array_repr items)
     = Returns (VArray {| arr_dtype := IntType int64;
                          arr_shape := [3%nat];
                          arr_data := [EInt 1; EInt 20; EInt 300] |},
                [("array", PyCallable NumpyArray)])
  /\ construct_str (ScalarNode TAG_STR (array_repr items))
     = Returns (VArray {| arr_dtype := IntType int64;
                          arr_shape := [3%nat];
                          arr_data := [EInt 1; EInt 20; EInt 300] |}).
Proof.
  cbv zeta.
  assert (Hne : [(O, 1%nat); (1%nat, 20%nat); (1%nat, 300%nat)] <> []) by discriminate.
  assert (Hfit : Forall (fun item : nat * nat => Z.of_nat item.2 < 2 ^ 63)
                        [(O, 1%nat); (1%nat, 20%nat); (1%nat, 300%nat)])
    by (repeat constructor).
  split; [vm_compute; reflexivity|]. split; [exact Hne|]. split; [exact Hfit|].
  exact (array_repr_loads_as_array _ TAG_STR Hne Hfit).
Defined.

Lemma array_text_value_comes_back_as_array_witness :
  let items := [(O, 1%nat); (1%nat, 2%nat); (1%nat, 3%nat)] in
  startswith "array(" "t" = false
  /\ items <> []
  /\ Forall (fun item => Z.of_nat item.2 < 2 ^ 63) items
  /\ exists stream,
       sample_dump (VOrderedDict [(VStr "t", VStr (array_repr items))]) None
                   Sample.writable_fs
       = Returns (stream, Sample.writable_fs)
       /\ sample_load Sample.writable_fs stream SafeLoader
          = Returns (VOrderedDict
                       [(VStr "t",
                         VArray {| arr_dtype := IntType int64;
                                   arr_shape := [length items];
                                   arr_data :=
                                     map (fun item => EInt (Z.of_nat item.2)) items |})]).
Proof.
  cbv zeta.
  assert (Hkey : startswith "array(" "t" = false) by reflexivity.
  assert (Hne : [(O, 1%nat); (1%nat, 2%nat); (1%nat, 3%nat)] <> []) by discriminate.
  assert (Hfit : Forall (fun item : nat * nat => Z.of_nat item.2 < 2 ^ 63)
                        [(O, 1%nat); (1%nat, 2%nat); (1%nat, 3%nat)])
    by (repeat constructor).
  split; [exact Hkey|]. split; [exact Hne|]. split; [exact Hfit|].
  exact (array_text_value_comes_back_as_array _ _ _ _ _ _ "t" _ None Sample.writable_fs
           SafeLoader Hkey Hne Hfit).
Defined.

Lemma array_text_key_fails_the_load_witness :
  let items := [(O, 1%nat); (1%nat, 2%nat)] in
  let value := RawScalar None Plain "5" in
  items <> []
  /\ Forall (fun item => Z.of_nat item.2 < 2 ^ 63) items
  /\ loads_back Sample.float_value Sample.numpy_load Sample.b64decode
                SafeLoader Sample.writable_fs (compose_node value) (VInt 5)
  /\ sample_load Sample.writable_fs
       [RawMapping None [(RawScalar None Plain (array_repr items), value)]] SafeLoader
     = Raises TypeError.
Proof.
  cbv zeta.
  assert (Hne : [(O, 1%nat); (1%nat, 2%nat)] <> []) by discriminate.
  assert (Hfit : Forall (fun item : nat * nat => Z.of_nat item.2 < 2 ^ 63)
                        [(O, 1%nat); (1%nat, 2%nat)])
    by (repeat constructor).
  assert (Hvalue : loads_back Sample.float_value Sample.numpy_load Sample.b64decode
                     SafeLoader Sample.writable_fs
                     (compose_node (RawScalar None Plain "5")) (VInt 5)).
  { intros fuel Hfuel. destruct fuel as [|fuel]; [cbn in Hfuel; lia|]. reflexivity. }
  split; [exact Hne|]. split; [exact Hfit|]. split; [exact Hvalue|].
  exact (array_text_key_fails_the_load _ _ _ _ _ _ Plain _ _ Hne Hfit Hvalue).
Defined.
